(** * Surface normals from depth images

    A shallow embedding of [rgbd/src/normal.cpp]: the sign convention
    enforcer [signNormal], the angular precompute [computeThetaPhi], the
    three estimators (FALS, LINEMOD, SRI) with the cache of FALS and the
    angular grid that SRI caches, and the dispatcher [RgbdNormals] with its
    destructor.

    The estimators are C++ templates over the floating type [T]; here they
    are definitions over a type class of scalar operations.  Its instances
    are [Z] for the [long] accumulators of LINEMOD, [R] for exact arithmetic,
    the binary64 floats of [PrimFloat] for [double] (with its NaN), on which
    the definitions can be run, and a variant of the latter that carries the
    sign, the quiet bit and the payload of a NaN.  The OpenCV primitives the
    code calls ([boxFilter], [invert], [remap], [sepFilter2D], [convertTo])
    are parameters, and so is the way the cache builds of FALS and SRI
    end. *)

From Stdlib Require Import Floats Uint63.
From Stdlib Require Import ZArith Reals Lra Lia.
From stdpp Require Import base list numbers.
Local Open Scope Z_scope.

(** * Part I: the embedding *)

(** ** Scalar types *)

(** What [LINEMOD::computeImpl] asks of its [ContainerDepth] parameter
    ([long], [float] or [double]). *)
Class Container (C : Type) := {
  c_ofZ : Z -> C;          (* conversion from [int] and [long] *)
  c_add : C -> C -> C;
  c_sub : C -> C -> C;
  c_mul : C -> C -> C;
  c_abs : C -> C;          (* [std::abs] *)
  c_gt : C -> C -> bool    (* [a > b] *)
}.

(** What the estimators ask of their floating parameter [T]. *)
Class Floating (T : Type) := {
  f_container :: Container T;
  f_div : T -> T -> T;
  f_opp : T -> T;
  f_sqrt : T -> T;         (* [std::sqrt] *)
  f_isNaN : T -> bool      (* [cvIsNaN] *)
}.

Declare Scope scalar_scope.
Delimit Scope scalar_scope with S.
Notation "x + y" := (c_add x y) : scalar_scope.
Notation "x - y" := (c_sub x y) : scalar_scope.
Notation "x * y" := (c_mul x y) : scalar_scope.
Notation "x / y" := (f_div x y) : scalar_scope.
Notation "- x" := (f_opp x) : scalar_scope.
Notation "x >? y" := (c_gt x y) : scalar_scope.
Notation "0" := (c_ofZ 0%Z) : scalar_scope.
Notation "1" := (c_ofZ 1%Z) : scalar_scope.

(** [long]: 64-bit integers.  The values LINEMOD stores in them stay far
    below 2^63 for 16-bit depths, so no wrap-around is written out. *)
#[export] Instance Container_long : Container Z := {
  c_ofZ z := z;
  c_add := Z.add;
  c_sub := Z.sub;
  c_mul := Z.mul;
  c_abs := Z.abs;
  c_gt a b := (a >? b)%Z
}.

(** Exact real arithmetic: the estimators without rounding and without NaN. *)
Definition Rgtb (a b : R) : bool := if Rlt_dec b a then true else false.

#[export] Instance Container_R : Container R := {
  c_ofZ := IZR;
  c_add := Rplus;
  c_sub := Rminus;
  c_mul := Rmult;
  c_abs := Rabs;
  c_gt := Rgtb
}.

#[export] Instance Floating_R : Floating R := {
  f_div := Rdiv;
  f_opp := Ropp;
  f_sqrt := sqrt;
  f_isNaN _ := false
}.

(** [double]: IEEE binary64.  [long] values are converted with rounding to
    nearest, as [of_uint63] does on the magnitude; the magnitude of
    [LONG_MIN] is no [Uint63], so that value is converted apart. *)
Definition float_ofZ (z : Z) : float :=
  if (z <? 0)%Z then
    if (z =? - 2 ^ 63)%Z then (-0x1p63)%float
    else PrimFloat.opp (of_uint63 (Uint63.of_Z (- z)))
  else of_uint63 (Uint63.of_Z z).

#[export] Instance Container_double : Container float := {
  c_ofZ := float_ofZ;
  c_add := PrimFloat.add;
  c_sub := PrimFloat.sub;
  c_mul := PrimFloat.mul;
  c_abs := PrimFloat.abs;
  c_gt a b := PrimFloat.ltb b a
}.

#[export] Instance Floating_double : Floating float := {
  f_div := PrimFloat.div;
  f_opp := PrimFloat.opp;
  f_sqrt := PrimFloat.sqrt;
  f_isNaN := PrimFloat.is_nan
}.

(** ** Small vectors and matrices ([cv::Vec<T,3>], [cv::Matx<T,3,3>]) *)

Record Vec3T (T : Type) := Vec3 { v0 : T; v1 : T; v2 : T }.
Arguments Vec3 {T} _ _ _.
Arguments v0 {T} _.
Arguments v1 {T} _.
Arguments v2 {T} _.

(** Row-major, as [Mat33T] and the nine scalars of a [Vec9T]. *)
Record Mat33T (T : Type) := Mat33 {
  m00 : T; m01 : T; m02 : T;
  m10 : T; m11 : T; m12 : T;
  m20 : T; m21 : T; m22 : T }.
Arguments Mat33 {T} _ _ _ _ _ _ _ _ _.
Arguments m00 {T} _.
Arguments m01 {T} _.
Arguments m02 {T} _.
Arguments m10 {T} _.
Arguments m11 {T} _.
Arguments m12 {T} _.
Arguments m20 {T} _.
Arguments m21 {T} _.
Arguments m22 {T} _.

Section VecOps.
Context {T : Type} `{Floating T}.
Local Open Scope scalar_scope.

(** [Vec3T()]: the zero vector. *)
Definition vec_zero : Vec3T T := Vec3 0 0 0.

(** [-v] *)
Definition vec_opp (v : Vec3T T) : Vec3T T :=
  Vec3 (- v0 v) (- v1 v) (- v2 v).

(** [v / s]: the [operator /] of [cv::Vec] scales the vector by the
    reciprocal [1 / s] (OpenCV's [Matx_ScaleOp]); it does not divide each
    component. *)
Definition vec_div (v : Vec3T T) (s : T) : Vec3T T :=
  let alpha := 1 / s in
  Vec3 (v0 v * alpha) (v1 v * alpha) (v2 v * alpha).

(** [M * v] *)
Definition mat_vec (M : Mat33T T) (v : Vec3T T) : Vec3T T :=
  Vec3 (m00 M * v0 v + m01 M * v1 v + m02 M * v2 v)
       (m10 M * v0 v + m11 M * v1 v + m12 M * v2 v)
       (m20 M * v0 v + m21 M * v1 v + m22 M * v2 v).

(** [a.cross(b)] *)
Definition cross (a b : Vec3T T) : Vec3T T :=
  Vec3 (v1 a * v2 b - v2 a * v1 b)
       (v2 a * v0 b - v0 a * v2 b)
       (v0 a * v1 b - v1 a * v0 b).

(** ** The norm and the sign convention *)

Definition norm_vec (vec : Vec3T T) : T :=
  f_sqrt (v0 vec * v0 vec + v1 vec * v1 vec + v2 vec * v2 vec).

(** [signNormal(const Vec<T,3>&, Vec<T,3>&)] *)
Definition signNormal (normal_in : Vec3T T) : Vec3T T :=
  if v2 normal_in >? 0
  then vec_div (vec_opp normal_in) (norm_vec normal_in)
  else vec_div normal_in (norm_vec normal_in).

(** [signNormal(T a, T b, T c, Vec<T,3>&)] *)
Definition signNormal3 (a b c : T) : Vec3T T :=
  let norm := 1 / f_sqrt (a * a + b * b + c * c) in
  if c >? 0
  then Vec3 (- a * norm) (- b * norm) (- c * norm)
  else Vec3 (a * norm) (b * norm) (c * norm).

End VecOps.

(** ** Dense buffers

    A [cv::Mat_<A>] is a row-major buffer that the estimators walk with
    pointers.  It is a list; [rd] is the read [p[i]] (with a default outside
    the buffer, where the C++ read is undefined), [<[i:=x]>] the write. *)

Definition rd {A : Type} (d : A) (buf : list A) (i : nat) : A :=
  default d (buf !! i).

(** [for (p = buf; p != buf + n; ++p) p[0] = g(index of p)] *)
Definition write_loop {A : Type} (n : nat) (g : nat -> A) (buf : list A) : list A :=
  fold_left (fun b i => <[i := g i]> b) (seq 0 n) buf.

(** [for (p = buf; p != buf + n; ++p) p[0] = h(p[0])]: an update in place. *)
Definition update_loop {A : Type} (d : A) (n : nat) (h : A -> A) (buf : list A) : list A :=
  fold_left (fun b i => <[i := h (rd d b i)]> b) (seq 0 n) buf.

(** ** The FALS estimator *)

Section FALS.
Context {T : Type} `{Floating T}.
Local Open Scope scalar_scope.

(** [cv::boxFilter(src, dst, depth, Size(k, k), Point(-1, -1), false)] on a
    [rows x cols] grid of 3-vectors: an OpenCV primitive, taken as given. *)
Variable boxFilter : Z -> Z -> Z -> list (Vec3T T) -> list (Vec3T T).

Definition mat_zero : Mat33T T := Mat33 0 0 0 0 0 0 0 0 0.

(** The members of [FALS<T>] that [compute] reads: the grid size and the
    window of the base class and the two cached fields. *)
Record FALS := {
  fals_rows_ : Z;
  fals_cols_ : Z;
  fals_window_size_ : Z;
  V_ : list (Vec3T T);
  M_inv_ : list (Mat33T T)
}.

(** The first loop of [compute]: [B = V / r], the zero vector where [r] is
    NaN. *)
Definition FALS_B (f : FALS) (r : list T) : list (Vec3T T) :=
  write_loop (Z.to_nat (fals_rows_ f * fals_cols_ f)%Z)
    (fun i =>
       let row_r := rd 0 r i in
       if f_isNaN row_r then vec_zero
       else vec_div (rd vec_zero (V_ f) i) row_r)
    (replicate (Z.to_nat (fals_rows_ f * fals_cols_ f)%Z) vec_zero).

(** What the second loop stores at pixel [i]. *)
Definition FALS_pixel (f : FALS) (r : list T) (B : list (Vec3T T)) (i : nat)
  : Vec3T T :=
  let row_r := rd 0 r i in
  if f_isNaN row_r then Vec3 row_r row_r row_r
  else signNormal (mat_vec (rd mat_zero (M_inv_ f) i) (rd vec_zero B i)).

(** [FALS<T>::compute(const cv::Mat&, const cv::Mat &r, cv::Mat &normals)].
    The first parameter has no name in the source. *)
Definition FALS_compute (f : FALS) (_ : list (Vec3T T)) (r : list T)
    (normals : list (Vec3T T)) : list (Vec3T T) :=
  let B := boxFilter (fals_rows_ f) (fals_cols_ f) (fals_window_size_ f)
             (FALS_B f r) in
  write_loop (Z.to_nat (fals_rows_ f * fals_cols_ f)%Z) (FALS_pixel f r B)
    normals.

End FALS.

(** ** The SRI estimator *)

Section SRI.
Context {T : Type} `{Floating T}.
Local Open Scope scalar_scope.

(** The interpolation tables [cv::convertMaps] builds, and the OpenCV
    primitives [compute] calls with them: bilinear [cv::remap] of a scalar
    grid and of a grid of 3-vectors, and [cv::sepFilter2D]. *)
Context {MapTable : Type}.
Variable remap : list T -> MapTable -> MapTable -> list T.
Variable remap3 : list (Vec3T T) -> MapTable -> MapTable -> list (Vec3T T).
Variable sepFilter2D : list T -> list T -> list T -> list T.

(** The members of [SRI<T>] that [compute] reads. *)
Record SRI := {
  sri_rows_ : Z;
  sri_cols_ : Z;
  R_hat_ : list (Mat33T T);
  kx_dx_ : list T; ky_dx_ : list T; kx_dy_ : list T; ky_dy_ : list T;
  xy_ : MapTable; fxy_ : MapTable;
  invxy_ : MapTable; invfxy_ : MapTable
}.

(** What the first loop stores at cell [i] of the angular grid. *)
Definition SRI_cell (s : SRI) (r r_theta r_phi : list T) (i : nat) : Vec3T T :=
  let r_ptr := rd 0 r i in
  if f_isNaN r_ptr then Vec3 r_ptr r_ptr r_ptr
  else
    let Rm := rd mat_zero (R_hat_ s) i in
    let r_theta_over_r := rd 0 r_theta i / r_ptr in
    let r_phi_over_r := rd 0 r_phi i / r_ptr in
    signNormal3
      (m00 Rm + m01 Rm * r_theta_over_r + m02 Rm * r_phi_over_r)
      (m10 Rm + m12 Rm * r_phi_over_r)
      (m20 Rm + m21 Rm * r_theta_over_r + m22 Rm * r_phi_over_r).

(** The normals on the angular grid, before they are resampled. *)
Definition SRI_normals (s : SRI) (r_non_interp : list T) : list (Vec3T T) :=
  let r := remap r_non_interp (xy_ s) (fxy_ s) in
  let r_theta := sepFilter2D r (kx_dx_ s) (ky_dx_ s) in
  let r_phi := sepFilter2D r (kx_dy_ s) (ky_dy_ s) in
  write_loop (Z.to_nat (sri_rows_ s * sri_cols_ s)%Z)
    (SRI_cell s r r_theta r_phi)
    (replicate (Z.to_nat (sri_rows_ s * sri_cols_ s)%Z) vec_zero).

(** [SRI<T>::compute(const cv::Mat_<Vec3T> &, const cv::Mat_<T> &r_non_interp,
    cv::Mat &normals_out)].  [cv::remap] allocates [normals_out] anew, so
    its former contents are not an input. *)
Definition SRI_compute (s : SRI) (_ : list (Vec3T T)) (r_non_interp : list T)
  : list (Vec3T T) :=
  let normals := SRI_normals s r_non_interp in
  let normals_out := remap3 normals (invxy_ s) (invfxy_ s) in
  update_loop vec_zero (Z.to_nat (sri_rows_ s * sri_cols_ s)%Z)
    (fun normal => signNormal3 (v0 normal) (v1 normal) (v2 normal))
    normals_out.

End SRI.

(** ** The LINEMOD estimator *)

(** A two-dimensional [cv::Mat_<A>] addressed as [ptr(y, x)]: its width and
    its continuous row-major data. *)
Record Mat_ (A : Type) := mkMat_ { mat_cols : Z; mat_data : list A }.
Arguments mkMat_ {A} _ _.
Arguments mat_cols {A} _.
Arguments mat_data {A} _.

(** The read [p[z]] at a signed position. *)
Definition rdZ {A : Type} (d : A) (buf : list A) (z : Z) : A :=
  if (z <? 0)%Z then d else rd d buf (Z.to_nat z).

(** [multiply_by_K_inv]: the product with an upper-triangular [K_inv] whose
    last diagonal entry is 1.  [toT] converts the arguments, of type [U], to
    the type [T] of the matrix. *)
Definition multiply_by_K_inv {T U : Type} `{Floating T} (toT : U -> T)
    (K_inv : Mat33T T) (a b c : U) : Vec3T T :=
  Vec3 (m00 K_inv * toT a + m01 K_inv * toT b + m02 K_inv * toT c)%S
       (m11 K_inv * toT b + m12 K_inv * toT c)%S
       (toT c).

Section LINEMOD.

(** [DepthDepth], [ContainerDepth] and [T]; [toC] is the cast
    [ContainerDepth(d)]. *)
Context {D C T : Type} `{Container C} `{Floating T}.
Variable toC : D -> C.
Variable toT : C -> T.
Variable d_default : D.
Local Open Scope scalar_scope.

Record LINEMOD := {
  lm_rows_ : Z;
  lm_cols_ : Z;
  lm_K_ : Mat33T T
}.

Definition linemod_r : Z := 5.

Definition sample_step : Z := linemod_r.

Definition square_size : Z := (Z.quot (2 * linemod_r) sample_step + 1)%Z.

(** The values the loop variables [j] and [i] take, from [-r] to [r] in
    steps of [sample_step]. *)
Definition sample_range : list Z :=
  (fun k => (- linemod_r + k * sample_step)%Z) <$> seqZ 0 square_size.

(** The pairs [(i, j)] in the order of [index]. *)
Definition sample_grid : list (Z * Z) :=
  j ← sample_range; i ← sample_range; [(i, j)].

Definition offsets_x : list Z := (fun ij => ij.1) <$> sample_grid.

Definition offsets_y : list Z := (fun ij => ij.2) <$> sample_grid.

Definition offsets_x_x : list Z := (fun ij => (ij.1 * ij.1)%Z) <$> sample_grid.

Definition offsets_x_y : list Z := (fun ij => (ij.1 * ij.2)%Z) <$> sample_grid.

Definition offsets_y_y : list Z := (fun ij => (ij.2 * ij.2)%Z) <$> sample_grid.

Definition offsets (cols_ : Z) : list Z :=
  (fun ij => (ij.2 * cols_ + ij.1)%Z) <$> sample_grid.

(** [K_inv], written out by hand in the source. *)
Definition K_inv_of (K : Mat33T T) : Mat33T T :=
  Mat33 (1 / m00 K)
        (- m01 K / (m00 K * m11 K))
        ((m01 K * m12 K - m02 K * m11 K) / (m00 K * m11 K))
        0 (1 / m11 K) (- m12 K / m11 K)
        0 0 1.

Definition difference_threshold : C := c_ofZ 50.

(** The accumulators [A[0]], [A[1]], [A[3]] ([A[2]] stays 0 and is never
    read) and [b[0]], [b[1]]. *)
Record Accum := mkAccum { A0 : Z; A1 : Z; A3 : Z; b0 : C; b1 : C }.

Definition accum_zero : Accum := mkAccum 0 0 0 0 0.

(** [delta] of sample [i] for the pixel at position [p_line] of depth [d]. *)
Definition sample_delta (cols_ : Z) (depth : list D) (p_line : Z) (d : D)
    (i : nat) : C :=
  toC (rdZ d_default depth (p_line + rd 0%Z (offsets cols_) i)%Z) - toC d.

(** One round of the loop over the samples. *)
Definition accum_step (cols_ : Z) (depth : list D) (p_line : Z) (d : D)
    (acc : Accum) (i : nat) : Accum :=
  let delta := sample_delta cols_ depth p_line d i in
  if c_abs delta >? difference_threshold then acc
  else mkAccum (A0 acc + rd 0 offsets_x_x i)%Z
               (A1 acc + rd 0 offsets_x_y i)%Z
               (A3 acc + rd 0 offsets_y_y i)%Z
               (b0 acc + c_ofZ (rd 0%Z offsets_x i) * delta)
               (b1 acc + c_ofZ (rd 0%Z offsets_y i) * delta).

Definition accumulate (cols_ : Z) (depth : list D) (p_line : Z) (d : D) : Accum :=
  fold_left (accum_step cols_ depth p_line d)
    (seq 0 (Z.to_nat (square_size * square_size)%Z)) accum_zero.

Definition det_of (acc : Accum) : Z := (A0 acc * A3 acc - A1 acc * A1 acc)%Z.

Definition dx_of (acc : Accum) : C :=
  c_ofZ (A3 acc) * b0 acc - c_ofZ (A1 acc) * b1 acc.

Definition dy_of (acc : Accum) : C :=
  c_ofZ (- A1 acc)%Z * b0 acc + c_ofZ (A0 acc) * b1 acc.

(** The body of the loop over [x] for pixel [(x, y)], whose depth is read
    at [p_line]: the vector [nor] handed to [signNormal]. *)
Definition pixel_nor (lm : LINEMOD) (depth : list D) (p_line x y : Z)
  : Vec3T T :=
  let K_inv := K_inv_of (lm_K_ lm) in
  let d := rdZ d_default depth p_line in
  let acc := accumulate (lm_cols_ lm) depth p_line d in
  let det := det_of acc in
  let dx := dx_of acc in
  let dy := dy_of acc in
  let X1_minus_X :=
    multiply_by_K_inv toT K_inv
      (toC d * c_ofZ det + c_ofZ (x + 1)%Z * dx) (c_ofZ y * dx) dx in
  let X2_minus_X :=
    multiply_by_K_inv toT K_inv
      (c_ofZ x * dy) (toC d * c_ofZ det + c_ofZ (y + 1)%Z * dy) dy in
  cross X1_minus_X X2_minus_X.

(** The normal stored for the pixel. *)
Definition pixel_normal (lm : LINEMOD) (depth : list D) (p_line x y : Z)
  : Vec3T T :=
  signNormal (pixel_nor lm depth p_line x y).

(** The loop over [x] of row [y]; [p_line] and [normal] advance together. *)
Definition row_loop (lm : LINEMOD) (depth : Mat_ D) (ncols : Z) (y : Z)
    (normals : list (Vec3T T)) : list (Vec3T T) :=
  (fold_left
     (fun st x =>
        let '(p_line, normal, out) := st in
        ((p_line + 1)%Z, (normal + 1)%Z,
         <[Z.to_nat normal := pixel_normal lm (mat_data depth) p_line x y]> out))
     (seqZ linemod_r (lm_cols_ lm - linemod_r - 1 - linemod_r))
     ((y * mat_cols depth + linemod_r)%Z, (y * ncols + linemod_r)%Z, normals)).2.

(** [LINEMOD<T>::computeImpl<DepthDepth, ContainerDepth>] *)
Definition computeImpl (lm : LINEMOD) (depth : Mat_ D) (normals : Mat_ (Vec3T T))
  : Mat_ (Vec3T T) :=
  mkMat_ (mat_cols normals)
    (fold_left (fun out y => row_loop lm depth (mat_cols normals) y out)
       (seqZ linemod_r (lm_rows_ lm - linemod_r - 1 - linemod_r))
       (mat_data normals)).

End LINEMOD.

(** *** [LINEMOD::compute] *)

(** The depth image handed to [LINEMOD::compute], by its depth code: pixels
    of type [unsigned short], [float] or [double], or an image of another
    depth.  [F32] is the type of the [float] pixels. *)
Inductive DepthImage (F32 : Type) : Type :=
  | Depth16U (depth : Mat_ Z)
  | Depth32F (depth : Mat_ F32)
  | Depth64F (depth : Mat_ float)
  | DepthOther (code : Z).
Arguments Depth16U {F32} depth.
Arguments Depth32F {F32} depth.
Arguments Depth64F {F32} depth.
Arguments DepthOther {F32} code.

Section LINEMODCompute.
Context {T F32 : Type} `{Floating T} `{Container F32}.

(** The conversions of [long], [float] and [double] to [T], and the value
    the model reads outside a [float] buffer. *)
Variable long_to_T : Z -> T.
Variable float_to_T : F32 -> T.
Variable double_to_T : float -> T.
Variable float_default : F32.

(** [LINEMOD<T>::compute]: a switch on the depth code, without a default
    case. *)
Definition LINEMOD_compute (lm : LINEMOD) (depth_in : DepthImage F32)
    (normals : Mat_ (Vec3T T)) : Mat_ (Vec3T T) :=
  match depth_in with
  | Depth16U depth =>
      computeImpl (fun d : Z => d) long_to_T 0%Z lm depth normals
  | Depth32F depth =>
      computeImpl (fun d : F32 => d) float_to_T float_default lm depth normals
  | Depth64F depth =>
      computeImpl (fun d : float => d) double_to_T 0%float lm depth normals
  | DepthOther _ => normals
  end.

End LINEMODCompute.

(** ** The dispatcher [cv::RgbdNormals] *)

(** The depth codes of OpenCV and its packing of depth and channel count
    into a type. *)
Definition CV_16U : Z := 2.

Definition CV_32S : Z := 4.

Definition CV_32F : Z := 5.

Definition CV_64F : Z := 6.

Definition CV_MAKETYPE (depth cn : Z) : Z := depth + Z.shiftl (cn - 1) 3.

(** Modelled from the spec: the enumeration [RGBD_NORMALS_METHOD] of the
    three methods, declared in [rgbd.hpp], which is not among the sources.
    Only that the three values differ is used. *)
Definition RGBD_NORMALS_METHOD_SRI : Z := 0.

Definition RGBD_NORMALS_METHOD_FALS : Z := 1.

Definition RGBD_NORMALS_METHOD_LINEMOD : Z := 2.

(** A [cv::Mat]: its header and its pixels, each pixel the list of its
    channels.  Values of every depth code are carried as binary64, which
    holds the 8-, 16- and 32-bit integers and binary32 exactly. *)
Record Mat := mkMat {
  m_dims : Z;
  m_rows : Z;
  m_cols : Z;
  m_depth : Z;
  m_channels : Z;
  m_data : list (list float)
}.

(** [cv::Mat()] *)
Definition Mat_empty : Mat := mkMat 0 0 0 0 1 [].

Definition mat_type (m : Mat) : Z := CV_MAKETYPE (m_depth m) (m_channels m).

(** [Mat::empty()] *)
Definition mat_is_empty (m : Mat) : bool :=
  (m_rows m * m_cols m =? 0) || (length (m_data m) =? 0)%nat.

(** [cv::countNonZero(a != b)] for two matrices of one size and type: the
    number of elements that differ.  A NaN differs from itself. *)
Definition countNonZero_ne (a b : Mat) : nat :=
  length (List.filter (fun xy : float * float => negb (PrimFloat.eqb xy.1 xy.2))
            (zip (concat (m_data a)) (concat (m_data b)))).

(** [cv::split]: the channels of a matrix, none for an empty matrix. *)
Definition cv_split (m : Mat) : list Mat :=
  if mat_is_empty m then []
  else (fun c : nat =>
          mkMat (m_dims m) (m_rows m) (m_cols m) (m_depth m) 1
            ((fun px => [rd 0%float px c]) <$> m_data m))
       <$> seq 0 (Z.to_nat (m_channels m)).

(** How a call ends: normally, with a failed [CV_Assert] (an exception), or
    in undefined behaviour. *)
Inductive outcome (A : Type) : Type :=
  | Done (a : A)
  | AssertFailed
  | Undefined.
Arguments Done {A} a.
Arguments AssertFailed {A}.
Arguments Undefined {A}.

#[export] Instance outcome_bind : MBind outcome := fun A B k o =>
  match o with
  | Done a => k a
  | AssertFailed => AssertFailed
  | Undefined => Undefined
  end.

Definition CV_Assert (b : bool) : outcome unit :=
  if b then Done tt else AssertFailed.

(** [std::vector::operator[]]: undefined outside the vector. *)
Definition vector_at {A : Type} (v : list A) (i : nat) : outcome A :=
  match v !! i with
  | Some a => Done a
  | None => Undefined
  end.

(** The members of the base class [RgbdNormalsImpl]. *)
Record RgbdNormalsImpl := mkImpl {
  impl_rows_ : Z;
  impl_cols_ : Z;
  impl_depth_ : Z;
  impl_K_ : Mat;
  impl_K_ori_ : Mat;
  impl_window_size_ : Z;
  impl_method_ : Z
}.

(** Which class the object behind the [void*] was built as. *)
Inductive EstimatorClass : Type :=
  | FALS_float | FALS_double
  | LINEMOD_float | LINEMOD_double
  | SRI_float | SRI_double.

Record Estimator := mkEstimator {
  est_class : EstimatorClass;
  est_base : RgbdNormalsImpl
}.

(** [RgbdNormalsImpl::validate].  The fourth conjunct of the source is the
    assignment [cols = cols_], whose value is that of [cols_]. *)
Definition validate (impl : RgbdNormalsImpl) (rows cols depth : Z) (K_ori : Mat)
    (window_size method : Z) : bool :=
  if negb (m_cols K_ori =? m_cols (impl_K_ori_ impl))
     || negb (m_rows K_ori =? m_rows (impl_K_ori_ impl))
     || negb (mat_type K_ori =? mat_type (impl_K_ori_ impl))
  then false
  else
    let K_test := negb (0 <? countNonZero_ne K_ori (impl_K_ori_ impl))%nat in
    let cols := impl_cols_ impl in
    (rows =? impl_rows_ impl) && negb (cols =? 0)
    && (window_size =? impl_window_size_ impl) && (depth =? impl_depth_ impl)
    && K_test && (method =? impl_method_ impl).

(** The members of [cv::RgbdNormals]. *)
Record RgbdNormals := mkRgbdNormals {
  rows_ : Z;
  cols_ : Z;
  depth_ : Z;
  K_ : Mat;
  window_size_ : Z;
  method_ : Z;
  rgbd_normals_impl_ : option Estimator
}.

Section Dispatcher.

(** [cv::Mat::convertTo], an OpenCV primitive. *)
Variable convertTo : Mat -> Z -> Mat.

(** How [cache()] ends on a FALS or an SRI estimator.  Their caches are
    built with OpenCV primitives, which can refuse what they are given (a
    failed assertion), and [SRI::cache] can read outside a matrix
    ([SRI_cache_R_hat] below); the dispatcher does not look at what they
    compute. *)
Variable FALS_SRI_cache : Estimator -> outcome unit.

(** The virtual call [cache()]: the body of [LINEMOD::cache] is empty. *)
Definition Estimator_cache (est : Estimator) : outcome unit :=
  match est_class est with
  | LINEMOD_float | LINEMOD_double => Done tt
  | FALS_float | FALS_double | SRI_float | SRI_double => FALS_SRI_cache est
  end.

(** The constructor of [RgbdNormalsImpl], shared by the three estimators. *)
Definition RgbdNormalsImpl_new (rows cols window_size depth : Z) (K : Mat)
    (method : Z) : RgbdNormalsImpl :=
  mkImpl rows cols depth (convertTo K depth) K window_size method.

(** The constructor of [RgbdNormals]. *)
Definition RgbdNormals_new (rows cols depth : Z) (K_in : Mat)
    (window_size method : Z) : outcome RgbdNormals :=
  CV_Assert ((depth =? CV_32F) || (depth =? CV_64F)) ;;
  CV_Assert ((m_cols K_in =? 3) && (m_rows K_in =? 3)) ;;
  Done (mkRgbdNormals rows cols depth K_in window_size method None).

(** [RgbdNormals::initialize_normals_impl].  The switch has no default
    case, and the last statement calls [cache()] through the pointer, which
    is undefined for a null pointer.  The pointer holds the new estimator
    before [cache()] runs; what the object is after a failed assertion is
    not followed. *)
Definition initialize_normals_impl (n : RgbdNormals) (rows cols depth : Z)
    (K : Mat) (window_size method : Z) : outcome RgbdNormals :=
  CV_Assert ((0 <? rows) && (0 <? cols)
             && ((depth =? CV_32F) || (depth =? CV_64F))) ;;
  CV_Assert ((window_size =? 1) || (window_size =? 3) || (window_size =? 5)
             || (window_size =? 7)) ;;
  CV_Assert ((m_cols (K_ n) =? 3) && (m_rows K =? 3)
             && ((m_depth K =? CV_32F) || (m_depth K =? CV_64F))) ;;
  CV_Assert ((method =? RGBD_NORMALS_METHOD_FALS)
             || (method =? RGBD_NORMALS_METHOD_LINEMOD)
             || (method =? RGBD_NORMALS_METHOD_SRI)) ;;
  let base := RgbdNormalsImpl_new rows cols window_size depth K in
  let impl :=
    if method =? RGBD_NORMALS_METHOD_FALS then
      Some (if depth =? CV_32F
            then mkEstimator FALS_float (base RGBD_NORMALS_METHOD_FALS)
            else mkEstimator FALS_double (base RGBD_NORMALS_METHOD_FALS))
    else if method =? RGBD_NORMALS_METHOD_LINEMOD then
      Some (if depth =? CV_32F
            then mkEstimator LINEMOD_float (base RGBD_NORMALS_METHOD_LINEMOD)
            else mkEstimator LINEMOD_double (base RGBD_NORMALS_METHOD_LINEMOD))
    else if method =? RGBD_NORMALS_METHOD_SRI then
      Some (if depth =? CV_32F
            then mkEstimator SRI_float (base RGBD_NORMALS_METHOD_SRI)
            else mkEstimator SRI_double (base RGBD_NORMALS_METHOD_SRI))
    else rgbd_normals_impl_ n in
  match impl with
  | Some est => Estimator_cache est
  | None => Undefined
  end ;;
  Done (mkRgbdNormals (rows_ n) (cols_ n) (depth_ n) (K_ n) (window_size_ n)
          (method_ n) impl).

(** [RgbdNormals::initialize].  [delete_normals_impl] frees the estimator
    that [validate] refuses; the pointer is then overwritten by
    [initialize_normals_impl]. *)
Definition initialize (n : RgbdNormals) : outcome RgbdNormals :=
  match rgbd_normals_impl_ n with
  | None =>
      initialize_normals_impl n (rows_ n) (cols_ n) (depth_ n) (K_ n)
        (window_size_ n) (method_ n)
  | Some impl =>
      if negb (validate (est_base impl) (rows_ n) (cols_ n) (depth_ n) (K_ n)
                 (window_size_ n) (method_ n))
      then initialize_normals_impl n (rows_ n) (cols_ n) (depth_ n) (K_ n)
             (window_size_ n) (method_ n)
      else Done n
  end.

End Dispatcher.

(** [computeRadius<T>]: the distance of every point to the origin. *)
Definition computeRadius {T : Type} `{Floating T} (points : list (Vec3T T))
  : list T :=
  norm_vec <$> points.

Section Compute.
Variable convertTo : Mat -> Z -> Mat.
Variable FALS_SRI_cache : Estimator -> outcome unit.

(** Arithmetic of [float] (binary32) on values carried as binary64. *)
Variable single : Floating float.

(** The contents of a freshly allocated [rows x cols] matrix of [cn]
    channels. *)
Variable uninitialized : Z -> Z -> Z -> list (list float).

(** The [compute] methods of the six estimator classes, on [cv::Mat]. *)
Variables FALS_float_compute FALS_double_compute
  : Estimator -> Mat -> Mat -> Mat -> Mat.
Variables LINEMOD_float_compute LINEMOD_double_compute
  : Estimator -> Mat -> Mat -> Mat.
Variables SRI_float_compute SRI_double_compute
  : Estimator -> Mat -> Mat -> Mat -> Mat.

(** [computeRadius<T>] on a [cv::Mat] of 3-channel points. *)
Definition computeRadius_Mat (ops : Floating float) (depth : Z) (points : Mat)
  : Mat :=
  mkMat 2 (m_rows points) (m_cols points) depth 1
    ((fun x => [x]) <$>
       computeRadius
         ((fun px => Vec3 (rd 0%float px 0) (rd 0%float px 1) (rd 0%float px 2))
            <$> m_data points)).

(** [Mat::create]: the matrix is kept when it has the size and type asked
    for, and allocated anew otherwise. *)
Definition Mat_create (m : Mat) (rows cols depth cn : Z) : Mat :=
  if (m_rows m =? rows) && (m_cols m =? cols) && (m_depth m =? depth)
     && (m_channels m =? cn) && negb (length (m_data m) =? 0)%nat
  then m
  else mkMat 2 rows cols depth cn (uninitialized rows cols cn).

(** The depth image [operator()] hands to [LINEMOD::compute]: the third
    element of the vector [cv::split] fills from the local [points3d] for a
    3-channel input, the input itself otherwise. *)
Definition LINEMOD_depth (points3d_ori points3d : Mat) : outcome Mat :=
  if m_channels points3d_ori =? 3
  then vector_at (cv_split points3d) 2
  else Done points3d_ori.

(** [RgbdNormals::operator()]: the new state of the object and the normals. *)
Definition RgbdNormals_call (n : RgbdNormals) (points3d_in normals_out : Mat)
  : outcome (RgbdNormals * Mat) :=
  let points3d_ori := points3d_in in
  CV_Assert (m_dims points3d_ori =? 2) ;;
  (if method_ n =? RGBD_NORMALS_METHOD_FALS then
     CV_Assert (m_channels points3d_ori =? 3) ;;
     CV_Assert ((m_depth points3d_ori =? CV_32F) || (m_depth points3d_ori =? CV_64F))
   else if method_ n =? RGBD_NORMALS_METHOD_LINEMOD then
     CV_Assert (((m_channels points3d_ori =? 3)
                 && ((m_depth points3d_ori =? CV_32F)
                     || (m_depth points3d_ori =? CV_64F)))
                || ((m_channels points3d_ori =? 1)
                    && ((m_depth points3d_ori =? CV_16U)
                        || (m_depth points3d_ori =? CV_32F)
                        || (m_depth points3d_ori =? CV_64F))))
   else if method_ n =? RGBD_NORMALS_METHOD_SRI then
     CV_Assert ((m_channels points3d_ori =? 3)
                && ((m_depth points3d_ori =? CV_32F)
                    || (m_depth points3d_ori =? CV_64F)))
   else Done tt) ;;
  n' ← initialize convertTo FALS_SRI_cache n;
  let '(points3d, radius) :=
    if (method_ n' =? RGBD_NORMALS_METHOD_SRI)
       || (method_ n' =? RGBD_NORMALS_METHOD_FALS)
    then
      let points3d :=
        if m_depth points3d_ori =? depth_ n' then points3d_ori
        else convertTo points3d_ori (depth_ n') in
      (points3d,
       if depth_ n' =? CV_32F
       then computeRadius_Mat single CV_32F points3d
       else computeRadius_Mat Floating_double CV_64F points3d)
    else (Mat_empty, Mat_empty) in
  let normals :=
    Mat_create normals_out (m_rows points3d_ori) (m_cols points3d_ori)
      (depth_ n') 3 in
  if mat_is_empty points3d_in then Done (n', normals)
  else
    match rgbd_normals_impl_ n' with
    | None => Undefined
    | Some impl =>
        if method_ n' =? RGBD_NORMALS_METHOD_FALS then
          Done (n', if depth_ n' =? CV_32F
                    then FALS_float_compute impl points3d radius normals
                    else FALS_double_compute impl points3d radius normals)
        else if method_ n' =? RGBD_NORMALS_METHOD_LINEMOD then
          depth ← LINEMOD_depth points3d_ori points3d;
          Done (n', if depth_ n' =? CV_32F
                    then LINEMOD_float_compute impl depth normals
                    else LINEMOD_double_compute impl depth normals)
        else if method_ n' =? RGBD_NORMALS_METHOD_SRI then
          Done (n', if depth_ n' =? CV_32F
                    then SRI_float_compute impl points3d radius normals
                    else SRI_double_compute impl points3d radius normals)
        else Done (n', normals)
    end.

End Compute.

(** Construction followed by the first [initialize], as the first call of
    [operator()] runs it. *)
Definition configure (convertTo : Mat -> Z -> Mat)
    (FALS_SRI_cache : Estimator -> outcome unit) (rows cols depth : Z)
    (K : Mat) (window_size method : Z) : outcome RgbdNormals :=
  n ← RgbdNormals_new rows cols depth K window_size method;
  initialize convertTo FALS_SRI_cache n.

(** *** [delete_normals_impl] and the destructor *)

(** The class [delete_normals_impl] casts the pointer to before it deletes
    the object, if it deletes one. *)
Definition delete_normals_impl (rgbd_normals_impl_ : option Estimator)
    (method_ depth : Z) : option EstimatorClass :=
  match rgbd_normals_impl_ with
  | None => None
  | Some _ =>
      if method_ =? RGBD_NORMALS_METHOD_LINEMOD then
        Some (if depth =? CV_32F then LINEMOD_float else LINEMOD_double)
      else if method_ =? RGBD_NORMALS_METHOD_SRI then
        Some (if depth =? CV_32F then SRI_float else SRI_double)
      else if method_ =? RGBD_NORMALS_METHOD_FALS then
        Some (if depth =? CV_32F then FALS_float else FALS_double)
      else None
  end.

(** [RgbdNormals::~RgbdNormals] *)
Definition RgbdNormals_destroy (n : RgbdNormals) : option EstimatorClass :=
  delete_normals_impl (rgbd_normals_impl_ n) (method_ n) (depth_ n).

(** ** The angular precompute [computeThetaPhi] *)

(** The functions of [<cmath>] that [computeThetaPhi] calls, and the
    narrowing to [float] of the two angles it stores in [float] variables. *)
Class Trig (T : Type) := {
  t_atan2 : T -> T -> T;
  t_asin : T -> T;
  t_cos : T -> T;
  t_sin : T -> T;
  t_float : T -> T
}.

(** [atan2(y, x)] over the reals: the angle of the point [(x, y)], in
    [(-PI, PI]]. *)
Definition Ratan2 (y x : R) : R :=
  if Rlt_dec 0 x then atan (y / x)
  else if Rlt_dec x 0 then
    (if Rle_dec 0 y then atan (y / x) + PI else atan (y / x) - PI)
  else if Rlt_dec 0 y then PI / 2
  else if Rlt_dec y 0 then - (PI / 2)
  else 0.

#[export] Instance Trig_R : Trig R := {
  t_atan2 := Ratan2;
  t_asin := asin;
  t_cos := cos;
  t_sin := sin;
  t_float x := x
}.

Section ThetaPhi.
Context {T : Type} `{Floating T} `{Trig T}.
Local Open Scope scalar_scope.

(** Modelled from the spec: [depthTo3d], which is defined in another file of
    the repository.  It is the pinhole back-projection of a depth image
    through [K]: the pixel [(u, v)] of depth [z] is the point
    [((u - cx) z / fx, (v - cy) z / fy, z)]. *)
Definition depthTo3d (cols : Z) (depth_image : list T) (K : Mat33T T)
  : list (Vec3T T) :=
  imap (fun (k : nat) (z : T) =>
          let u := c_ofZ (Z.of_nat k mod cols) in
          let v := c_ofZ (Z.of_nat k / cols) in
          Vec3 ((u - m02 K) * z / m00 K) ((v - m12 K) * z / m11 K) z)
       depth_image.

Record ThetaPhi := mkThetaPhi {
  cos_theta : list T;
  sin_theta : list T;
  cos_phi : list T;
  sin_phi : list T
}.

(** [computeThetaPhi<T>] *)
Definition computeThetaPhi (rows cols : Z) (K : Mat33T T) : ThetaPhi :=
  let depth_image := replicate (Z.to_nat (rows * cols)) (m00 K * 1) in
  let points3d := depthTo3d cols depth_image K in
  let r := computeRadius points3d in
  let theta := (fun p : Vec3T T => t_float (t_atan2 (v0 p) (v2 p))) <$> points3d in
  let phi := (fun pr : Vec3T T * T => t_float (t_asin (v1 pr.1 / pr.2)))
               <$> zip points3d r in
  mkThetaPhi (t_cos <$> theta) (t_sin <$> theta) (t_cos <$> phi) (t_sin <$> phi).

End ThetaPhi.

(** ** [FALS::cache] *)

Section FALSCache.
Context {T : Type} `{Floating T} `{Trig T}.
Local Open Scope scalar_scope.

(** [cv::boxFilter] on a grid of 9-vectors and [cv::invert(src, dst,
    cv::DECOMP_CHOLESKY)] on a 3 x 3 matrix: OpenCV primitives, taken as
    given. *)
Variable boxFilter9 : Z -> Z -> Z -> list (Mat33T T) -> list (Mat33T T).
Variable invert : Mat33T T -> Mat33T T.

(** [VVt]: the product of [vec] with its transpose. *)
Definition VVt_of (vec : Vec3T T) : Mat33T T :=
  Mat33 (v0 vec * v0 vec) (v0 vec * v1 vec) (v0 vec * v2 vec)
        (v1 vec * v0 vec) (v1 vec * v1 vec) (v1 vec * v2 vec)
        (v2 vec * v0 vec) (v2 vec * v1 vec) (v2 vec * v2 vec).

(** The three channels merged into [V_]: [sin_theta.mul(cos_phi)],
    [sin_phi] and [cos_theta.mul(cos_phi)]. *)
Definition FALS_V (g : ThetaPhi) : list (Vec3T T) :=
  zip_with (fun x yz => Vec3 x yz.1 yz.2)
    (zip_with c_mul (sin_theta g) (cos_phi g))
    (zip (sin_phi g) (zip_with c_mul (cos_theta g) (cos_phi g))).

(** The matrix [M] before the box filter: [V V^t] at every pixel. *)
Definition FALS_M (rows_ cols_ : Z) (V : list (Vec3T T)) : list (Mat33T T) :=
  write_loop (Z.to_nat (rows_ * cols_)%Z)
    (fun i => VVt_of (rd vec_zero V i))
    (replicate (Z.to_nat (rows_ * cols_)%Z) mat_zero).

(** [FALS<T>::cache] *)
Definition FALS_cache (rows_ cols_ window_size_ : Z) (K_ : Mat33T T) : FALS :=
  let g := computeThetaPhi rows_ cols_ K_ in
  let V := FALS_V g in
  let M := boxFilter9 rows_ cols_ window_size_ (FALS_M rows_ cols_ V) in
  {| fals_rows_ := rows_; fals_cols_ := cols_; fals_window_size_ := window_size_;
     V_ := V;
     M_inv_ := write_loop (Z.to_nat (rows_ * cols_)%Z)
                 (fun i => invert (rd mat_zero M i))
                 (replicate (Z.to_nat (rows_ * cols_)%Z) mat_zero) |}.

End FALSCache.

(** ** [SRI::cache]: the angular grid and the matrices [R_hat_] *)

Section SRICache.
Context {T : Type} `{Floating T} `{Trig T}.
Local Open Scope scalar_scope.

(** [Mat_<T>::operator()(row, col)] on a continuous matrix of [cols]
    columns: the read [data[row * cols + col]], which release builds do not
    check against the size of the matrix. *)
Definition Mat_at (cols : Z) (data : list T) (row col : Z) : outcome T :=
  let k := (row * cols + col)%Z in
  if (k <? 0)%Z then Undefined else vector_at data (Z.to_nat k).

(** The local variables [min_theta], [max_theta], [min_phi], [max_phi] and
    the members [phi_step_], [theta_step_], all of type [float]. *)
Record AngleRange := mkAngleRange {
  min_theta : T; max_theta : T;
  min_phi : T; max_phi : T;
  phi_step_ : T; theta_step_ : T
}.

Definition SRI_angle_range (rows_ cols_ : Z) (g : ThetaPhi) : outcome AngleRange :=
  s_min ← Mat_at cols_ (sin_theta g) 0 0;
  s_max ← Mat_at cols_ (sin_theta g) 0 (cols_ - 1);
  p_min ← Mat_at cols_ (sin_phi g) 0 (Z.quot cols_ 2 - 1);
  p_max ← Mat_at cols_ (sin_phi g) (rows_ - 1) (Z.quot cols_ 2 - 1);
  let min_theta := t_float (t_asin s_min) in
  let max_theta := t_float (t_asin s_max) in
  let min_phi := t_float (t_asin p_min) in
  let max_phi := t_float (t_asin p_max) in
  Done {| min_theta := min_theta; max_theta := max_theta;
          min_phi := min_phi; max_phi := max_phi;
          phi_step_ :=
            t_float (t_float (max_phi - min_phi) / t_float (c_ofZ (rows_ - 1)));
          theta_step_ :=
            t_float (t_float (max_theta - min_theta) / t_float (c_ofZ (cols_ - 1))) |}.

(** The product of two 3 x 3 matrices. *)
Definition mat_mul (A B : Mat33T T) : Mat33T T :=
  Mat33 (m00 A * m00 B + m01 A * m10 B + m02 A * m20 B)
        (m00 A * m01 B + m01 A * m11 B + m02 A * m21 B)
        (m00 A * m02 B + m01 A * m12 B + m02 A * m22 B)
        (m10 A * m00 B + m11 A * m10 B + m12 A * m20 B)
        (m10 A * m01 B + m11 A * m11 B + m12 A * m21 B)
        (m10 A * m02 B + m11 A * m12 B + m12 A * m22 B)
        (m20 A * m00 B + m21 A * m10 B + m22 A * m20 B)
        (m20 A * m01 B + m21 A * m11 B + m22 A * m21 B)
        (m20 A * m02 B + m21 A * m12 B + m22 A * m22 B).

(** The matrix stored in [R_hat_] for the cell of angles [theta] and [phi]:
    the product of a permutation and two rotations, its second column
    divided by [cos(phi)], and its first column corrected. *)
Definition SRI_R_hat (theta phi : T) : Mat33T T :=
  let mat :=
    mat_mul
      (mat_mul (Mat33 0 1 0 0 0 1 1 0 0)
         (Mat33 (t_cos theta) (- t_sin theta) 0
                (t_sin theta) (t_cos theta) 0
                0 0 1))
      (Mat33 (t_cos phi) 0 (- t_sin phi)
             0 1 0
             (t_sin phi) 0 (t_cos phi)) in
  Mat33 (m00 mat - t_float (c_ofZ 2 * t_cos phi * t_sin theta))
        (m01 mat / t_cos phi) (m02 mat)
        (m10 mat - t_float (c_ofZ 2 * t_sin phi))
        (m11 mat / t_cos phi) (m12 mat)
        (m20 mat - t_float (c_ofZ 2 * t_cos phi * t_cos theta))
        (m21 mat / t_cos phi) (m22 mat).

(** The angles of the cell [(phi_int, theta_int)] of the grid. *)
Definition SRI_phi (a : AngleRange) (phi_int : Z) : T :=
  t_float (min_phi a + t_float (t_float (c_ofZ phi_int) * phi_step_ a)).

Definition SRI_theta (a : AngleRange) (theta_int : Z) : T :=
  t_float (min_theta a + t_float (t_float (c_ofZ theta_int) * theta_step_ a)).

(** The two loops of [cache] over the grid: the matrices [R_hat_], in
    row-major order. *)
Definition SRI_R_hat_grid (rows_ cols_ : Z) (a : AngleRange) : list (Mat33T T) :=
  phi_int ← seqZ 0 rows_;
  theta_int ← seqZ 0 cols_;
  [SRI_R_hat (SRI_theta a theta_int) (SRI_phi a phi_int)].

(** The part of [SRI<T>::cache] that fills [R_hat_], [phi_step_] and
    [theta_step_]. *)
Definition SRI_cache_R_hat (rows_ cols_ : Z) (K_ : Mat33T T)
  : outcome (AngleRange * list (Mat33T T)) :=
  let g := computeThetaPhi rows_ cols_ K_ in
  a ← SRI_angle_range rows_ cols_ g;
  Done (a, SRI_R_hat_grid rows_ cols_ a).

End SRICache.

(** ** Notions used in the statements *)

(** The square of the norm, over the reals. *)
Definition sumsq (a b c : R) : R := (a * a + b * b + c * c)%R.

(** A unit vector that faces the camera. *)
Definition unit_facing (n : Vec3T R) : Prop :=
  norm_vec n = 1%R /\ (v2 n <= 0)%R.

(** A sequence of writes [buf[key a] = val a], one for each [a] of [l]. *)
Definition keyed_writes {A K : Type} (key : K -> nat) (val : K -> A)
    (l : list K) (buf : list A) : list A :=
  fold_left (fun b a => <[key a := val a]> b) l buf.

(** The pixels the two loops of [computeImpl] visit, in their order. *)
Definition visited (rows_ cols_ : Z) : list (Z * Z) :=
  y ← seqZ linemod_r (rows_ - linemod_r - 1 - linemod_r);
  (fun x => (x, y)) <$> seqZ linemod_r (cols_ - linemod_r - 1 - linemod_r).

(** Sums of lists, and [a <= b] on the reals as a boolean. *)
Definition Zsum (l : list Z) : Z := foldr Z.add 0%Z l.

Definition Rsum (l : list R) : R := foldr Rplus 0%R l.

Definition Rleb (a b : R) : bool := if Rle_dec a b then true else false.

Section LINEMODSums.
Context {D C : Type} `{Container C}.
Variable toC : D -> C.
Variable d_default : D.
Variables (cols_ : Z) (depth : list D) (p_line : Z) (d : D).
Local Open Scope scalar_scope.

(** [delta] of the sample at offset [(i, j)]. *)
Definition delta_at (ij : Z * Z) : C :=
  toC (rdZ d_default depth (p_line + (ij.2 * cols_ + ij.1))%Z) - toC d.

(** One round of the loop, on the sample itself instead of its index. *)
Definition accum_sample (acc : @Accum C) (ij : Z * Z) : @Accum C :=
  if c_abs (delta_at ij) >? difference_threshold then acc
  else mkAccum (A0 acc + ij.1 * ij.1)%Z (A1 acc + ij.1 * ij.2)%Z
               (A3 acc + ij.2 * ij.2)%Z
               (b0 acc + c_ofZ ij.1 * delta_at ij)
               (b1 acc + c_ofZ ij.2 * delta_at ij).

(** The samples the loop does not skip. *)
Definition accepted (l : list (Z * Z)) : list (Z * Z) :=
  List.filter (fun ij => negb (c_abs (delta_at ij) >? difference_threshold)) l.

End LINEMODSums.

(** The configurations the code refuses. *)
Definition rejected (rows cols depth : Z) (K : Mat) (window_size method : Z)
  : Prop :=
  rows <= 0 \/ cols <= 0
  \/ ~ (depth = CV_32F \/ depth = CV_64F)
  \/ ~ (window_size = 1 \/ window_size = 3 \/ window_size = 5 \/ window_size = 7)
  \/ ~ (method = RGBD_NORMALS_METHOD_FALS \/ method = RGBD_NORMALS_METHOD_LINEMOD
        \/ method = RGBD_NORMALS_METHOD_SRI)
  \/ ~ (m_cols K = 3 /\ m_rows K = 3)
  \/ ~ (m_depth K = CV_32F \/ m_depth K = CV_64F).

(** The point of depth [z] that the pinhole camera [K] sees at pixel
    [(x, y)], over the reals. *)
Definition backproject (K : Mat33T R) (x y : Z) (z : R) : Vec3T R :=
  Vec3 ((IZR x - m02 K) * z / m00 K)%R ((IZR y - m12 K) * z / m11 K)%R z.

(** Doubles with the bits of their NaNs: the sign, the quiet bit and the
    payload.  IEEE 754 has every arithmetic operation return a quiet NaN
    when an operand is a NaN or the operation is invalid, and leaves the
    sign and the payload of that NaN to the implementation: [nan_bits]
    chooses them from the operation and its operands.  Copies keep all
    bits, negation and [abs] only touch the sign, and a comparison with a
    NaN is false. *)
Inductive pdouble : Type :=
  | PFin (x : float)
  | PNaN (sign quiet : bool) (payload : Z).

Inductive pd_operation : Type := PAdd | PSub | PMul | PDiv | PSqrt.

Definition pd_isNaN (a : pdouble) : bool :=
  match a with
  | PFin x => PrimFloat.is_nan x
  | PNaN _ _ _ => true
  end.

(** A NaN whose quiet bit is clear. *)
Definition pd_signaling (a : pdouble) : bool :=
  match a with
  | PNaN _ false _ => true
  | _ => false
  end.

Definition pd_quiet (a : pdouble) : bool :=
  match a with
  | PNaN _ true _ => true
  | _ => false
  end.

Definition pd_opp (a : pdouble) : pdouble :=
  match a with
  | PFin x => PFin (PrimFloat.opp x)
  | PNaN s q p => PNaN (negb s) q p
  end.

Definition pd_abs (a : pdouble) : pdouble :=
  match a with
  | PFin x => PFin (PrimFloat.abs x)
  | PNaN _ q p => PNaN false q p
  end.

Definition pd_gt (a b : pdouble) : bool :=
  match a, b with
  | PFin x, PFin y => PrimFloat.ltb y x
  | _, _ => false
  end.

Section NaNBits.
Variable nan_bits : pd_operation -> list pdouble -> bool * Z.

Definition pd_nan (o : pd_operation) (operands : list pdouble) : pdouble :=
  PNaN (nan_bits o operands).1 true (nan_bits o operands).2.

Definition pd_op2 (o : pd_operation) (op : float -> float -> float)
    (a b : pdouble) : pdouble :=
  match a, b with
  | PFin x, PFin y =>
      if PrimFloat.is_nan (op x y) then pd_nan o [a; b] else PFin (op x y)
  | _, _ => pd_nan o [a; b]
  end.

Definition pd_op1 (o : pd_operation) (op : float -> float) (a : pdouble)
  : pdouble :=
  match a with
  | PFin x => if PrimFloat.is_nan (op x) then pd_nan o [a] else PFin (op x)
  | PNaN _ _ _ => pd_nan o [a]
  end.

Definition Container_pdouble : Container pdouble := {|
  c_ofZ z := PFin (float_ofZ z);
  c_add := pd_op2 PAdd PrimFloat.add;
  c_sub := pd_op2 PSub PrimFloat.sub;
  c_mul := pd_op2 PMul PrimFloat.mul;
  c_abs := pd_abs;
  c_gt := pd_gt
|}.

Definition Floating_pdouble : Floating pdouble := {|
  f_container := Container_pdouble;
  f_div := pd_op2 PDiv PrimFloat.div;
  f_opp := pd_opp;
  f_sqrt := pd_op1 PSqrt PrimFloat.sqrt;
  f_isNaN := pd_isNaN
|}.

End NaNBits.

(** [s v] and [a - b] on real vectors. *)
Definition vec_scale (s : R) (v : Vec3T R) : Vec3T R :=
  Vec3 (s * v0 v)%R (s * v1 v)%R (s * v2 v)%R.

Definition vec_sub (a b : Vec3T R) : Vec3T R :=
  Vec3 (v0 a - v0 b)%R (v1 a - v1 b)%R (v2 a - v2 b)%R.

(** The normal as the comment in [computeImpl] writes it, with the division
    by the determinant that the code leaves out: [X = K_inv (x, y, 1) d],
    [X1 = K_inv (x + 1, y, 1) (d + Dx)], [X2 = K_inv (x, y + 1, 1) (d + Dy)]
    and [nor = (X1 - X) x (X2 - X)], where [(Dx, Dy)] is the gradient of the
    depth. *)
Definition nor_by_division (K : Mat33T R) (x y : Z) (d Dx Dy : R) : Vec3T R :=
  let K_inv := K_inv_of K in
  let X := vec_scale d (mat_vec K_inv (Vec3 (IZR x) (IZR y) 1%R)) in
  let X1 := vec_scale (d + Dx) (mat_vec K_inv (Vec3 (IZR x + 1)%R (IZR y) 1%R)) in
  let X2 := vec_scale (d + Dy) (mat_vec K_inv (Vec3 (IZR x) (IZR y + 1)%R 1%R)) in
  cross (vec_sub X1 X) (vec_sub X2 X).

(** The inputs [operator()] accepts for a method: two dimensions, and the
    channels and the depth its switch asserts. *)
Definition input_accepted (method : Z) (m : Mat) : Prop :=
  m_dims m = 2
  /\ (method = RGBD_NORMALS_METHOD_FALS ->
      m_channels m = 3 /\ (m_depth m = CV_32F \/ m_depth m = CV_64F))
  /\ (method = RGBD_NORMALS_METHOD_LINEMOD ->
      (m_channels m = 3 /\ (m_depth m = CV_32F \/ m_depth m = CV_64F))
      \/ (m_channels m = 1
          /\ (m_depth m = CV_16U \/ m_depth m = CV_32F \/ m_depth m = CV_64F)))
  /\ (method = RGBD_NORMALS_METHOD_SRI ->
      m_channels m = 3 /\ (m_depth m = CV_32F \/ m_depth m = CV_64F)).

(** ** Configurations and inputs of the examples *)

(** A 12 x 12 grid of 16-bit depths, all 1000, with normals of type [double];
    the output grid is filled with the marker [(7, 7, 7)] beforehand. *)
Definition lm12 : @LINEMOD float :=
  {| lm_rows_ := 12; lm_cols_ := 12;
     lm_K_ := Mat33 525 0 6 0 525 6 0 0 1 |}%float.

Definition depth12 : Mat_ Z := mkMat_ 12 (replicate 144 1000).

Definition marker : Vec3T float := Vec3 7%float 7%float 7%float.

Definition normals12 : Mat_ (Vec3T float) := mkMat_ 12 (replicate 144 marker).

(** A 1 x 1 FALS cache over the reals. *)
Definition fals1 : @FALS R :=
  {| fals_rows_ := 1; fals_cols_ := 1; fals_window_size_ := 1;
     V_ := [Vec3 0 0 1]%R;
     M_inv_ := [Mat33 1 0 0 0 1 0 0 0 1]%R |}.

(** A 12 x 12 LINEMOD and a 2 x 2 SRI state over the reals. *)
Definition lm12R : @LINEMOD R :=
  {| lm_rows_ := 12; lm_cols_ := 12;
     lm_K_ := Mat33 525 0 6 0 525 6 0 0 1 |}%R.

Definition normals12R : Mat_ (Vec3T R) :=
  mkMat_ 12 (replicate 144 (Vec3 0 0 0)%R).

Definition sri2R : @SRI R unit :=
  {| sri_rows_ := 2; sri_cols_ := 2;
     R_hat_ := replicate 4 (Mat33 1 0 0 0 1 0 0 0 1)%R;
     kx_dx_ := []; ky_dx_ := []; kx_dy_ := []; ky_dy_ := [];
     xy_ := tt; fxy_ := tt; invxy_ := tt; invfxy_ := tt |}.

(** The intrinsics of the examples, as a 3 x 3 matrix of the given depth. *)
Definition K_example (depth : Z) : Mat :=
  mkMat 2 3 3 depth 1
    [[525]; [0]; [320]; [0]; [525]; [240]; [0]; [0]; [1]]%float.

(** A [convertTo] that changes the depth code and keeps the values, as the
    conversion does on values the target depth holds exactly. *)
Definition convertTo_exact (m : Mat) (depth : Z) : Mat :=
  mkMat (m_dims m) (m_rows m) (m_cols m) depth (m_channels m) (m_data m).

(** A cache build of FALS or SRI that completes. *)
Definition cache_completes (_ : Estimator) : outcome unit := Done tt.

(** A 12 x 12 field of points [(x, y, 1000)] in double precision. *)
Definition points12 : Mat :=
  mkMat 2 12 12 CV_64F 3
    ((fun k : nat => [float_ofZ (Z.of_nat (k mod 12)); float_ofZ (Z.of_nat (k / 12));
                      1000%float]) <$> seq 0 144).

Definition linemod12 : RgbdNormals :=
  mkRgbdNormals 12 12 CV_64F (K_example CV_64F) 5 RGBD_NORMALS_METHOD_LINEMOD None.

(** A 1 x 1 FALS cache and a 2 x 2 SRI state in double precision. *)
Definition fals1d : @FALS float :=
  {| fals_rows_ := 1; fals_cols_ := 1; fals_window_size_ := 1;
     V_ := [Vec3 0 0 1]%float;
     M_inv_ := [Mat33 1 0 0 0 1 0 0 0 1]%float |}.

Definition sri2d : @SRI float unit :=
  {| sri_rows_ := 2; sri_cols_ := 2;
     R_hat_ := replicate 4 (Mat33 1 0 0 0 1 0 0 0 1)%float;
     kx_dx_ := []; ky_dx_ := []; kx_dy_ := []; ky_dy_ := [];
     xy_ := tt; fxy_ := tt; invxy_ := tt; invfxy_ := tt |}.

(** A 12 x 12 grid of 16-bit depths on the plane [1000 + 2 x + 3 y]. *)
Definition tilted12 : list Z :=
  (fun k : nat => 1000 + 2 * Z.of_nat (k mod 12) + 3 * Z.of_nat (k / 12))
    <$> seq 0 144.

(** A 12 x 12 grid of 16-bit depths whose pixel [(5, 5)], of depth 1000,
    lies 1000 before all the others. *)
Definition isolated12 : list Z := replicate 65 2000 ++ 1000 :: replicate 78 2000.

(** A 1 x 1 SRI whose matrix is the one [cache] computes for the angles
    [theta = 0] and [phi = 0]. *)
Definition angles0 : @AngleRange R := (mkAngleRange 0 0 0 0 0 0)%R.

Definition sri_cached : @SRI R unit :=
  {| sri_rows_ := 1; sri_cols_ := 1;
     R_hat_ := SRI_R_hat_grid 1 1 angles0;
     kx_dx_ := []; ky_dx_ := []; kx_dy_ := []; ky_dy_ := [];
     xy_ := tt; fxy_ := tt; invxy_ := tt; invfxy_ := tt |}.

(** * Part II: the properties *)

(** ** The sign convention over exact arithmetic *)

Section SumOfSquares.
Local Open Scope R_scope.

Lemma Rgtb_true (a b : R) : Rgtb a b = true <-> b < a.
Proof. unfold Rgtb. destruct (Rlt_dec b a); split; intros; try done. Qed.

Lemma Rgtb_false (a b : R) : Rgtb a b = false <-> a <= b.
Proof.
  unfold Rgtb. destruct (Rlt_dec b a); split; intros; try done; lra.
Qed.

Lemma sumsq_pos (a b c : R) : Vec3 a b c <> Vec3 0 0 0 -> 0 < sumsq a b c.
Proof.
  intros Hne. unfold sumsq.
  destruct (Req_dec a 0) as [->|Ha]; [|nra].
  destruct (Req_dec b 0) as [->|Hb]; [|nra].
  destruct (Req_dec c 0) as [->|Hc]; [|nra].
  by destruct Hne.
Qed.

Lemma sqrt_sumsq_pos (a b c : R) :
  Vec3 a b c <> Vec3 0 0 0 -> 0 < sqrt (sumsq a b c).
Proof. intros Hne. apply sqrt_lt_R0, sumsq_pos, Hne. Qed.

Lemma sumsq_scaled (a b c n : R) :
  0 < n -> n * n = sumsq a b c -> sumsq (a / n) (b / n) (c / n) = 1.
Proof.
  intros Hn Hs. unfold sumsq in *.
  replace (a / n * (a / n) + b / n * (b / n) + c / n * (c / n))
    with ((a * a + b * b + c * c) / (n * n)) by (field; lra).
  rewrite <- Hs. field. lra.
Qed.

End SumOfSquares.

Section SignNormalFacts.
Local Open Scope R_scope.

Lemma norm_vec_R (v : Vec3T R) :
  norm_vec v = sqrt (sumsq (v0 v) (v1 v) (v2 v)).
Proof. reflexivity. Qed.

(** Over the reals, scaling by the reciprocal is the division of every
    component. *)
Lemma vec_div_R (v : Vec3T R) (s : R) :
  vec_div v s = Vec3 (v0 v / s) (v1 v / s) (v2 v / s).
Proof.
  unfold vec_div.
  cbn [c_mul c_ofZ f_div f_container Floating_R Container_R].
  f_equal; unfold Rdiv; ring.
Qed.

Lemma signNormal_pos (v : Vec3T R) :
  0 < v2 v ->
  signNormal v =
    Vec3 (- v0 v / norm_vec v) (- v1 v / norm_vec v) (- v2 v / norm_vec v).
Proof.
  intros Hz. unfold signNormal. cbn [c_gt f_container Floating_R Container_R c_ofZ].
  rewrite (proj2 (Rgtb_true _ _) Hz). rewrite vec_div_R. done.
Qed.

Lemma signNormal_nonpos (v : Vec3T R) :
  v2 v <= 0 ->
  signNormal v =
    Vec3 (v0 v / norm_vec v) (v1 v / norm_vec v) (v2 v / norm_vec v).
Proof.
  intros Hz. unfold signNormal. cbn [c_gt f_container Floating_R Container_R c_ofZ].
  rewrite (proj2 (Rgtb_false _ _) Hz). rewrite vec_div_R. done.
Qed.

Lemma signNormal_unit (v : Vec3T R) :
  v <> Vec3 0 0 0 -> norm_vec (signNormal v) = 1.
Proof.
  intros Hne. destruct v as [a b c].
  pose proof (sqrt_sumsq_pos a b c Hne) as Hn.
  pose proof (sqrt_sqrt (sumsq a b c) (Rlt_le _ _ (sumsq_pos a b c Hne))) as Hs.
  destruct (Rlt_le_dec 0 c) as [Hc|Hc].
  - rewrite signNormal_pos by done. rewrite !norm_vec_R. cbn [v0 v1 v2].
    rewrite (sumsq_scaled (- a) (- b) (- c)); [apply sqrt_1 | done |].
    rewrite Hs. unfold sumsq. ring.
  - rewrite signNormal_nonpos by done. rewrite !norm_vec_R. cbn [v0 v1 v2].
    rewrite (sumsq_scaled a b c); [apply sqrt_1 | done | done].
Qed.

Lemma signNormal_facing (v : Vec3T R) :
  v <> Vec3 0 0 0 -> v2 (signNormal v) <= 0.
Proof.
  intros Hne. destruct v as [a b c].
  pose proof (sqrt_sumsq_pos a b c Hne) as Hn.
  destruct (Rlt_le_dec 0 c) as [Hc|Hc].
  - rewrite signNormal_pos by done. rewrite norm_vec_R. cbn [v0 v1 v2].
    apply Rlt_le. apply Rdiv_neg_pos; lra.
  - rewrite signNormal_nonpos by done. rewrite norm_vec_R. cbn [v0 v1 v2].
    pose proof (Rinv_0_lt_compat _ Hn) as Hi. unfold Rdiv.
    fold (sumsq a b c). nra.
Qed.

(** A unit vector that already faces the camera is left as it is. *)
Lemma signNormal_fixed (u : Vec3T R) :
  norm_vec u = 1 -> v2 u <= 0 -> signNormal u = u.
Proof.
  intros Hu Hz. rewrite signNormal_nonpos by done. rewrite Hu.
  destruct u as [a b c]. cbn [v0 v1 v2]. f_equal; field.
Qed.

(** Over exact arithmetic the two overloads agree. *)
Lemma signNormal3_signNormal (a b c : R) :
  signNormal3 a b c = signNormal (Vec3 a b c).
Proof.
  unfold signNormal3, signNormal, vec_div, vec_opp, norm_vec.
  cbn [v0 v1 v2 c_gt c_mul c_add c_ofZ f_div f_opp f_sqrt f_container
       Floating_R Container_R].
  destruct (Rgtb c 0); f_equal; unfold Rdiv; ring.
Qed.

End SignNormalFacts.




(** ** Dense buffers *)

Section Buffers.
Context {A : Type}.
Implicit Types (buf : list A) (g : nat -> A) (h : A -> A).

Lemma rd_lookup (d : A) buf i x : buf !! i = Some x -> rd d buf i = x.
Proof. unfold rd. by intros ->. Qed.

Lemma fold_insert_length (F : list A -> nat -> A) (l : list nat) buf :
  length (fold_left (fun b i => <[i := F b i]> b) l buf) = length buf.
Proof.
  revert buf. induction l as [|j l IH]; intros buf; [done|].
  cbn [fold_left]. by rewrite IH, length_insert.
Qed.

Lemma fold_insert_notin (F : list A -> nat -> A) (l : list nat) buf i :
  i ∉ l ->
  fold_left (fun b j => <[j := F b j]> b) l buf !! i = buf !! i.
Proof.
  revert buf. induction l as [|j l IH]; intros buf Hi; [done|].
  apply not_elem_of_cons in Hi as [Hij Hil].
  cbn [fold_left]. rewrite IH by done.
  by apply list_lookup_insert_ne.
Qed.

Lemma write_loop_length n g buf : length (write_loop n g buf) = length buf.
Proof. apply (fold_insert_length (fun _ i => g i)). Qed.

Lemma write_loop_outside n g buf i :
  (n <= i)%nat -> write_loop n g buf !! i = buf !! i.
Proof.
  intros Hi. apply (fold_insert_notin (fun _ j => g j)).
  rewrite elem_of_seq. lia.
Qed.

Lemma write_loop_inside n g buf i :
  (i < n)%nat -> (i < length buf)%nat -> write_loop n g buf !! i = Some (g i).
Proof.
  unfold write_loop. revert buf. induction n as [|n IH]; intros buf Hi Hl; [lia|].
  rewrite seq_S, fold_left_app. cbn [fold_left Nat.add].
  destruct (decide (i = n)) as [->|Hne].
  - apply list_lookup_insert_eq.
    by rewrite (fold_insert_length (fun _ j => g j)).
  - rewrite list_lookup_insert_ne by done. apply IH; [lia | done].
Qed.

Lemma update_loop_length d n h buf : length (update_loop d n h buf) = length buf.
Proof. apply (fold_insert_length (fun b i => h (rd d b i))). Qed.

Lemma update_loop_inside d n h buf i :
  (i < n)%nat -> (i < length buf)%nat ->
  update_loop d n h buf !! i = Some (h (rd d buf i)).
Proof.
  unfold update_loop. revert buf. induction n as [|n IH]; intros buf Hi Hl; [lia|].
  rewrite seq_S, fold_left_app. cbn [fold_left Nat.add].
  destruct (decide (i = n)) as [->|Hne].
  - rewrite list_lookup_insert_eq
      by (by rewrite (fold_insert_length (fun b j => h (rd d b j)))).
    do 2 f_equal. unfold rd.
    rewrite (fold_insert_notin (fun b j => h (rd d b j))); [done|].
    rewrite elem_of_seq. lia.
  - rewrite list_lookup_insert_ne by done. apply IH; [lia | done].
Qed.

Lemma update_loop_outside d n h buf i :
  (n <= i)%nat -> update_loop d n h buf !! i = buf !! i.
Proof.
  intros Hi. apply (fold_insert_notin (fun b j => h (rd d b j))).
  rewrite elem_of_seq. lia.
Qed.

End Buffers.

(** ** The loops of FALS and SRI *)

Section FALSFacts.
Context {T : Type} `{Floating T}.
Local Open Scope scalar_scope.

(** [cv::boxFilter(src, dst, depth, Size(k, k), Point(-1, -1), false)] on a
    [rows x cols] grid of 3-vectors: an OpenCV primitive, taken as given. *)
Variable boxFilter : Z -> Z -> Z -> list (Vec3T T) -> list (Vec3T T).
Local Abbreviation FALS_compute := (FALS_compute boxFilter).

Lemma FALS_compute_pixel f pts r normals i :
  (i < Z.to_nat (fals_rows_ f * fals_cols_ f)%Z)%nat ->
  (i < length normals)%nat ->
  FALS_compute f pts r normals !! i =
    Some (FALS_pixel f r
            (boxFilter (fals_rows_ f) (fals_cols_ f) (fals_window_size_ f)
               (FALS_B f r)) i).
Proof. intros Hi Hl. unfold FALS_compute. by apply write_loop_inside. Qed.

Lemma FALS_compute_nan f pts r normals i x :
  (i < Z.to_nat (fals_rows_ f * fals_cols_ f)%Z)%nat ->
  (i < length normals)%nat ->
  r !! i = Some x -> f_isNaN x = true ->
  FALS_compute f pts r normals !! i = Some (Vec3 x x x).
Proof.
  intros Hi Hl Hr Hx. rewrite FALS_compute_pixel by done.
  unfold FALS_pixel. by rewrite (rd_lookup _ _ _ _ Hr), Hx.
Qed.

End FALSFacts.

Section SRIFacts.
Context {T : Type} `{Floating T}.
Local Open Scope scalar_scope.

(** The interpolation tables [cv::convertMaps] builds, and the OpenCV
    primitives [compute] calls with them: bilinear [cv::remap] of a scalar
    grid and of a grid of 3-vectors, and [cv::sepFilter2D]. *)
Context {MapTable : Type}.
Variable remap : list T -> MapTable -> MapTable -> list T.
Variable remap3 : list (Vec3T T) -> MapTable -> MapTable -> list (Vec3T T).
Variable sepFilter2D : list T -> list T -> list T -> list T.
Local Abbreviation SRI_normals := (SRI_normals remap sepFilter2D).
Local Abbreviation SRI_compute := (SRI_compute remap remap3 sepFilter2D).

Lemma SRI_normals_cell s r_non_interp i :
  (i < Z.to_nat (sri_rows_ s * sri_cols_ s)%Z)%nat ->
  SRI_normals s r_non_interp !! i =
    Some (let r := remap r_non_interp (xy_ s) (fxy_ s) in
          SRI_cell s r (sepFilter2D r (kx_dx_ s) (ky_dx_ s))
            (sepFilter2D r (kx_dy_ s) (ky_dy_ s)) i).
Proof.
  intros Hi. unfold SRI_normals. cbv zeta.
  apply write_loop_inside; [done|]. by rewrite length_replicate.
Qed.

Lemma SRI_compute_pixel s pts r_non_interp i q :
  (i < Z.to_nat (sri_rows_ s * sri_cols_ s)%Z)%nat ->
  remap3 (SRI_normals s r_non_interp) (invxy_ s) (invfxy_ s) !! i = Some q ->
  SRI_compute s pts r_non_interp !! i =
    Some (signNormal3 (v0 q) (v1 q) (v2 q)).
Proof.
  intros Hi Hq. unfold SRI_compute. cbv zeta.
  rewrite update_loop_inside; [|done|by eapply lookup_lt_Some].
  by rewrite (rd_lookup _ _ _ _ Hq).
Qed.

End SRIFacts.

(** ** LINEMOD *)

(** *** The sample tables *)

Example sample_grid_value :
  sample_grid =
    [(-5, -5); (0, -5); (5, -5); (-5, 0); (0, 0); (5, 0); (-5, 5); (0, 5); (5, 5)].
Proof. reflexivity. Qed.

Example offsets_value : offsets 640 = [-3205; -3200; -3195; -5; 0; 5; 3195; 3200; 3205].
Proof. reflexivity. Qed.

(** *** Which pixels LINEMOD writes *)

Section KeyedWrites.
Context {A K : Type} (key : K -> nat) (val : K -> A).
Local Abbreviation keyed_writes := (keyed_writes key val).

Lemma keyed_writes_length l buf : length (keyed_writes l buf) = length buf.
Proof.
  revert buf. induction l as [|a l IH]; intros buf; [done|].
  cbn. unfold keyed_writes in IH. by rewrite IH, length_insert.
Qed.

Lemma keyed_writes_other l buf k :
  (forall a, a ∈ l -> key a <> k) ->
  keyed_writes l buf !! k = buf !! k.
Proof.
  revert buf. induction l as [|a l IH]; intros buf Hk; [done|].
  cbn. unfold keyed_writes in IH. rewrite IH.
  - apply list_lookup_insert_ne, Hk. by left.
  - intros a' Ha'. apply Hk. by right.
Qed.

Lemma keyed_writes_at l buf a :
  NoDup (key <$> l) -> a ∈ l -> (key a < length buf)%nat ->
  keyed_writes l buf !! key a = Some (val a).
Proof.
  revert buf. induction l as [|a0 l IH]; intros buf Hnd Ha Hl.
  { by apply elem_of_nil in Ha. }
  rewrite fmap_cons in Hnd. apply list.NoDup_cons in Hnd as [Hnotin Hnd].
  cbn. fold (keyed_writes l (<[key a0 := val a0]> buf)).
  destruct (decide (key a = key a0)) as [Heq|Hne].
  - rewrite keyed_writes_other.
    + rewrite Heq. rewrite list_lookup_insert_eq by (by rewrite <- Heq).
      apply elem_of_cons in Ha as [->|Ha]; [done|].
      exfalso. apply Hnotin. rewrite <- Heq.
      by apply list_elem_of_fmap_2.
    + intros a' Ha' Hk. apply Hnotin. rewrite <- Heq, <- Hk.
      by apply list_elem_of_fmap_2.
  - apply IH; [done| |by rewrite length_insert].
    apply elem_of_cons in Ha as [->|?]; done.
Qed.

End KeyedWrites.

Section LINEMODWrites.
Context {D C T : Type} `{Container C} `{Floating T}.
Variable toC : D -> C.
Variable toT : C -> T.
Variable d_default : D.
Local Abbreviation pixel_normal := (pixel_normal toC toT d_default).
Local Abbreviation row_loop := (row_loop toC toT d_default).
Local Abbreviation computeImpl := (computeImpl toC toT d_default).

Lemma elem_of_visited rows_ cols_ x y :
  (x, y) ∈ visited rows_ cols_ <->
  (5 <= x < cols_ - 6 /\ 5 <= y < rows_ - 6)%Z.
Proof.
  unfold visited, linemod_r. rewrite list_elem_of_bind. split.
  - intros (y' & Hx & Hy). apply list_elem_of_fmap in Hx as (x' & Heq & Hx).
    inversion Heq; subst. apply elem_of_seqZ in Hx, Hy. lia.
  - intros [Hx Hy]. exists y. split.
    + apply list_elem_of_fmap. exists x. split; [done|].
      apply elem_of_seqZ. lia.
    + apply elem_of_seqZ. lia.
Qed.

(** The pointers of [row_loop] are [ptr(y, x)] at every round. *)
Lemma row_loop_pointers lm depth y (n : nat) (a : Z) p q out :
  fold_left
    (fun st x =>
       let '(p_line, normal, out) := st in
       ((p_line + 1)%Z, (normal + 1)%Z,
        <[Z.to_nat normal := pixel_normal lm (mat_data depth) p_line x y]> out))
    ((fun i : nat => (Z.of_nat i + a)%Z) <$> seq 0 n)
    ((p + a)%Z, (q + a)%Z, out)
  = ((p + a + Z.of_nat n)%Z, (q + a + Z.of_nat n)%Z,
     keyed_writes (fun xy : Z * Z => Z.to_nat (q + xy.1)%Z)
       (fun xy => pixel_normal lm (mat_data depth) (p + xy.1)%Z xy.1 xy.2)
       ((fun x => (x, y)) <$> ((fun i : nat => (Z.of_nat i + a)%Z) <$> seq 0 n))
       out).
Proof.
  induction n as [|n IH].
  - cbn. do 2 f_equal; lia.
  - rewrite seq_S, !fmap_app. unfold keyed_writes in *.
    rewrite !fold_left_app, IH. cbn.
    replace (p + a + Z.of_nat n)%Z with (p + (Z.of_nat n + a))%Z by lia.
    replace (q + a + Z.of_nat n)%Z with (q + (Z.of_nat n + a))%Z by lia.
    do 2 f_equal; lia.
Qed.

Lemma row_loop_keyed lm depth ncols y out :
  row_loop lm depth ncols y out =
  keyed_writes (fun xy : Z * Z => Z.to_nat (xy.2 * ncols + xy.1)%Z)
    (fun xy => pixel_normal lm (mat_data depth)
                 (xy.2 * mat_cols depth + xy.1)%Z xy.1 xy.2)
    ((fun x => (x, y)) <$>
       seqZ linemod_r (lm_cols_ lm - linemod_r - 1 - linemod_r))
    out.
Proof.
  unfold row_loop, seqZ.
  rewrite (row_loop_pointers lm depth y _ linemod_r
             (y * mat_cols depth)%Z (y * ncols)%Z out).
  cbn [snd]. unfold keyed_writes.
  generalize ((fun i : nat => (Z.of_nat i + linemod_r)%Z) <$>
                seq 0 (Z.to_nat (lm_cols_ lm - linemod_r - 1 - linemod_r))).
  intros l. revert out. induction l as [|x l IH]; intros out; [done|].
  cbn. apply IH.
Qed.

Lemma computeImpl_keyed lm depth normals :
  mat_data (computeImpl lm depth normals) =
  keyed_writes (fun xy : Z * Z => Z.to_nat (xy.2 * mat_cols normals + xy.1)%Z)
    (fun xy => pixel_normal lm (mat_data depth)
                 (xy.2 * mat_cols depth + xy.1)%Z xy.1 xy.2)
    (visited (lm_rows_ lm) (lm_cols_ lm))
    (mat_data normals).
Proof.
  unfold computeImpl, visited. cbn [mat_data].
  generalize (seqZ linemod_r (lm_rows_ lm - linemod_r - 1 - linemod_r)).
  intros ys. generalize (mat_data normals).
  induction ys as [|y ys IH]; intros out; [done|].
  cbn [fold_left]. rewrite IH, row_loop_keyed. cbn [mbind list_bind].
  fold (@mbind list _ _ _
          (fun y => (fun x => (x, y)) <$>
             seqZ linemod_r (lm_cols_ lm - linemod_r - 1 - linemod_r)) ys).
  unfold keyed_writes. by rewrite fold_left_app.
Qed.

Lemma NoDup_visited rows_ cols_ : NoDup (visited rows_ cols_).
Proof.
  unfold visited. apply NoDup_bind.
  - intros y1 y2 xy _ _ H1 H2.
    apply list_elem_of_fmap in H1 as (x1 & -> & _).
    apply list_elem_of_fmap in H2 as (x2 & Heq & _). by inversion Heq.
  - intros y _. apply NoDup_fmap_2_strong; [|apply NoDup_seqZ].
    intros x1 x2 _ _ Heq. by inversion Heq.
  - apply NoDup_seqZ.
Qed.

Lemma pixel_index_inj (n x y x' y' : Z) :
  (0 <= x < n)%Z -> (0 <= x' < n)%Z -> (0 <= y)%Z -> (0 <= y')%Z ->
  Z.to_nat (y * n + x) = Z.to_nat (y' * n + x') -> x = x' /\ y = y'.
Proof.
  intros Hx Hx' Hy Hy' Heq.
  assert (y * n + x = y' * n + x')%Z as Hz by nia.
  assert (y = y') as -> by nia. lia.
Qed.

(** Every visited pixel gets [pixel_normal]; every other pixel of the grid
    keeps what it held. *)
Lemma computeImpl_lookup lm depth normals x y :
  mat_cols normals = lm_cols_ lm ->
  (0 <= x < lm_cols_ lm)%Z -> (0 <= y)%Z ->
  (Z.to_nat (y * lm_cols_ lm + x) < length (mat_data normals))%nat ->
  mat_data (computeImpl lm depth normals) !! Z.to_nat (y * lm_cols_ lm + x) =
    if decide (5 <= x < lm_cols_ lm - 6 /\ 5 <= y < lm_rows_ lm - 6)%Z
    then Some (pixel_normal lm (mat_data depth) (y * mat_cols depth + x)%Z x y)
    else mat_data normals !! Z.to_nat (y * lm_cols_ lm + x).
Proof.
  intros Hcols Hx Hy Hlen. rewrite computeImpl_keyed, Hcols.
  destruct (decide _) as [Hin|Hout].
  - apply (keyed_writes_at
             (fun xy : Z * Z => Z.to_nat (xy.2 * lm_cols_ lm + xy.1)%Z)
             (fun xy => pixel_normal lm (mat_data depth)
                          (xy.2 * mat_cols depth + xy.1)%Z xy.1 xy.2)
             _ _ (x, y)); [| by apply elem_of_visited | done].
    apply NoDup_fmap_2_strong; [|apply NoDup_visited].
    intros [x1 y1] [x2 y2] H1%elem_of_visited H2%elem_of_visited Heq.
    cbn [fst snd] in Heq.
    apply pixel_index_inj in Heq as [-> ->]; [done|lia..].
  - apply keyed_writes_other. intros [x' y'] H'%elem_of_visited Heq.
    cbn [fst snd] in Heq.
    apply pixel_index_inj in Heq as [-> ->]; [done|lia..].
Qed.

End LINEMODWrites.

(** *** The normal equations LINEMOD accumulates *)

Lemma fold_left_Zadd (l : list Z) (a : Z) : fold_left Z.add l a = (a + Zsum l)%Z.
Proof.
  revert a. induction l as [|x l IH]; intros a; unfold Zsum in *;
    cbn [fold_left foldr]; [lia|].
  rewrite IH. lia.
Qed.

Lemma fold_left_Rplus (l : list R) (a : R) : fold_left Rplus l a = (a + Rsum l)%R.
Proof.
  revert a. induction l as [|x l IH]; intros a; unfold Rsum in *;
    cbn [fold_left foldr]; [lra|].
  rewrite IH. lra.
Qed.

Lemma Rgtb_Rleb (a b : R) : Rgtb a b = negb (Rleb a b).
Proof.
  unfold Rgtb, Rleb. destruct (Rlt_dec b a), (Rle_dec a b); try done; lra.
Qed.

Lemma fold_left_agree {A B : Type} (F G : A -> B -> A) (l : list B) (a : A) :
  (forall acc x, x ∈ l -> F acc x = G acc x) ->
  fold_left F l a = fold_left G l a.
Proof.
  revert a. induction l as [|x l IH]; intros a Hext; [done|].
  cbn [fold_left]. rewrite Hext by left. apply IH.
  intros acc y Hy. apply Hext. by right.
Qed.

Lemma fold_left_indices {A B : Type} (d : B) (F : A -> B -> A) (l : list B) (a : A) :
  fold_left (fun acc i => F acc (rd d l i)) (seq 0 (length l)) a = fold_left F l a.
Proof.
  revert a. induction l as [|x l IH] using rev_ind; intros a; [done|].
  rewrite length_app, Nat.add_1_r, seq_S, !fold_left_app. cbn.
  rewrite <- IH. unfold rd at 2. rewrite lookup_app_r, Nat.sub_diag by done.
  cbn. f_equal. apply fold_left_agree. intros acc i Hi. f_equal. unfold rd.
  rewrite lookup_app_l; [done|]. apply elem_of_seq in Hi. lia.
Qed.

(** *** Comparisons of doubles *)

Lemma SFcompare_antisym (x y : spec_float) :
  SFcompare y x = option_map CompOpp (SFcompare x y).
Proof.
  destruct x as [sx|sx| |sx mx ex], y as [sy|sy| |sy my ey]; cbn;
    try reflexivity;
    try (destruct sx; reflexivity); try (destruct sy; reflexivity);
    try (destruct sx, sy; reflexivity).
  pose proof (Pos.compare_cont_antisym mx my Eq) as Hp. cbn [CompOpp] in Hp.
  rewrite (Z.compare_antisym ex ey), <- Hp.
  destruct sx, sy, (ex ?= ey), (Pos.compare_cont Eq mx my); reflexivity.
Qed.

Lemma SFcompare_refl (x : spec_float) :
  x <> S754_nan -> SFcompare x x = Some Eq.
Proof.
  destruct x as [s|s| |s m e]; cbn; try done.
  - by destruct s.
  - intros _. rewrite Z.compare_refl, Pos.compare_cont_refl. by destruct s.
Qed.

Lemma SFcompare_None (x y : spec_float) :
  SFcompare x y = None -> x = S754_nan \/ y = S754_nan.
Proof.
  destruct x as [sx|sx| |sx mx ex], y as [sy|sy| |sy my ey]; cbn;
    try discriminate; tauto.
Qed.

Lemma SFcompare_Some (x y : spec_float) (c : comparison) :
  SFcompare x y = Some c -> y <> S754_nan.
Proof. destruct x, y; cbn; try discriminate; done. Qed.

(** The test [!(y > t)] holds of the [y] with [y <= t] and of the NaN. *)
Lemma not_ltb_leb_or_nan (t y : float) :
  PrimFloat.is_nan t = false ->
  negb (PrimFloat.ltb t y) = PrimFloat.leb y t || PrimFloat.is_nan y.
Proof.
  unfold PrimFloat.is_nan.
  rewrite FloatAxioms.ltb_spec, FloatAxioms.leb_spec, !FloatAxioms.eqb_spec.
  unfold SFltb, SFleb, SFeqb.
  rewrite (SFcompare_antisym (Prim2SF t) (Prim2SF y)).
  set (T := Prim2SF t). set (Y := Prim2SF y). intros Ht.
  assert (HT : T <> S754_nan) by (intros E; rewrite E in Ht; discriminate).
  destruct (SFcompare T Y) as [c|] eqn:Hc.
  - rewrite (SFcompare_refl Y) by (by eapply SFcompare_Some).
    by destruct c.
  - destruct (SFcompare_None _ _ Hc) as [?|HY]; [done|]. by rewrite HY.
Qed.

Lemma is_nan_abs (x : float) :
  PrimFloat.is_nan (PrimFloat.abs x) = PrimFloat.is_nan x.
Proof.
  unfold PrimFloat.is_nan.
  rewrite !FloatAxioms.eqb_spec, FloatAxioms.abs_spec. unfold SFeqb.
  destruct (Prim2SF x) as [s|s| |s m e]; cbn; try reflexivity.
  - by destruct s.
  - rewrite !Z.compare_refl, !Pos.compare_cont_refl. by destruct s.
Qed.

Section LINEMODSumsFacts.
Context {D C : Type} `{Container C}.
Variable toC : D -> C.
Variable d_default : D.
Variables (cols_ : Z) (depth : list D) (p_line : Z) (d : D).
Local Open Scope scalar_scope.
Local Abbreviation delta_at := (delta_at toC d_default cols_ depth p_line d).
Local Abbreviation accum_sample := (accum_sample toC d_default cols_ depth p_line d).
Local Abbreviation accepted := (accepted toC d_default cols_ depth p_line d).

Lemma rd_fmap {A B : Type} (f : A -> B) (da : A) (db : B) (l : list A) (i : nat) :
  (i < length l)%nat -> rd db (f <$> l) i = f (rd da l i).
Proof.
  intros Hi. unfold rd. rewrite list_lookup_fmap.
  destruct (lookup_lt_is_Some_2 l i Hi) as [x ->]. done.
Qed.

Lemma accum_step_sample acc (i : nat) :
  (i < length sample_grid)%nat ->
  accum_step toC d_default cols_ depth p_line d acc i =
  accum_sample acc (rd (0, 0)%Z sample_grid i).
Proof.
  intros Hi. unfold accum_step, accum_sample, sample_delta, delta_at.
  unfold offsets, offsets_x, offsets_y, offsets_x_x, offsets_x_y, offsets_y_y.
  by rewrite !(rd_fmap _ (0, 0)%Z) by done.
Qed.

Lemma accumulate_samples :
  accumulate toC d_default cols_ depth p_line d =
  fold_left accum_sample sample_grid accum_zero.
Proof.
  unfold accumulate. rewrite <- (fold_left_indices (0, 0)%Z).
  change (Z.to_nat (square_size * square_size)) with (length sample_grid).
  apply fold_left_agree. intros acc i Hi. apply accum_step_sample.
  apply elem_of_seq in Hi. lia.
Qed.

Lemma fold_accum_sample (l : list (Z * Z)) (acc : @Accum C) :
  fold_left accum_sample l acc =
  mkAccum (A0 acc + Zsum ((fun ij => ij.1 * ij.1) <$> accepted l))%Z
          (A1 acc + Zsum ((fun ij => ij.1 * ij.2) <$> accepted l))%Z
          (A3 acc + Zsum ((fun ij => ij.2 * ij.2) <$> accepted l))%Z
          (fold_left c_add ((fun ij => c_ofZ ij.1 * delta_at ij) <$> accepted l)
             (b0 acc))
          (fold_left c_add ((fun ij => c_ofZ ij.2 * delta_at ij) <$> accepted l)
             (b1 acc)).
Proof.
  revert acc. induction l as [|ij l IH]; intros acc.
  - destruct acc. cbn. f_equal; lia.
  - cbn [fold_left]. rewrite IH. unfold accum_sample at 1 2 3 4 5, accepted.
    cbn [List.filter].
    destruct (c_abs (delta_at ij) >? difference_threshold);
      cbn [negb fmap list_fmap A0 A1 A3 b0 b1 fold_left]; [done|].
    unfold Zsum. cbn [foldr]. f_equal; lia.
Qed.

End LINEMODSumsFacts.

(** C6 (amended).  The nine samples lie [r = 5] apart around the pixel.  In
    every instantiation the accumulators are the sums of [i*i], [i*j], [j*j],
    [i*delta] and [j*delta] over exactly the samples [(i, j)] that the test
    [abs(delta) > 50] does not reject, added in the order of the samples, and
    the gradients are [dx = A11*b0 - A01*b1] and [dy = -A01*b0 + A00*b1], with
    no division by the determinant.  For [computeImpl<unsigned short, long>]
    and for exact real arithmetic the samples kept are exactly those with
    [|delta| <= 50]; for [computeImpl<double, double>] they are those with
    [|delta| <= 50] and those whose [delta] is NaN. *)
Theorem LINEMOD_normal_equations :
  sample_grid =
    [(-5, -5); (0, -5); (5, -5); (-5, 0); (0, 0); (5, 0); (-5, 5); (0, 5); (5, 5)]
  /\ (forall (D C : Type) (ops : Container C) (toC : D -> C) (d_default : D)
        (cols_ : Z) (depth : list D) (p_line : Z) (d : D),
        let acc := accumulate toC d_default cols_ depth p_line d in
        let delta := fun ij : Z * Z =>
          (toC (rdZ d_default depth (p_line + (ij.2 * cols_ + ij.1))) - toC d)%S in
        let S := List.filter
                   (fun ij => negb (c_abs (delta ij) >? c_ofZ 50)%S) sample_grid in
        A0 acc = Zsum ((fun ij => ij.1 * ij.1) <$> S) /\
        A1 acc = Zsum ((fun ij => ij.1 * ij.2) <$> S) /\
        A3 acc = Zsum ((fun ij => ij.2 * ij.2) <$> S) /\
        b0 acc = fold_left c_add ((fun ij => c_ofZ ij.1 * delta ij)%S <$> S) 0%S /\
        b1 acc = fold_left c_add ((fun ij => c_ofZ ij.2 * delta ij)%S <$> S) 0%S /\
        dx_of acc = (c_ofZ (A3 acc) * b0 acc - c_ofZ (A1 acc) * b1 acc)%S /\
        dy_of acc = (c_ofZ (- A1 acc) * b0 acc + c_ofZ (A0 acc) * b1 acc)%S)
  /\ (forall (cols_ : Z) (depth : list Z) (p_line d : Z),
        let acc := accumulate (C := Z) (fun d => d) 0 cols_ depth p_line d in
        let delta := fun ij : Z * Z =>
          rdZ 0 depth (p_line + (ij.2 * cols_ + ij.1)) - d in
        let S := List.filter (fun ij => Z.abs (delta ij) <=? 50) sample_grid in
        A0 acc = Zsum ((fun ij => ij.1 * ij.1) <$> S) /\
        A1 acc = Zsum ((fun ij => ij.1 * ij.2) <$> S) /\
        A3 acc = Zsum ((fun ij => ij.2 * ij.2) <$> S) /\
        b0 acc = Zsum ((fun ij => ij.1 * delta ij) <$> S) /\
        b1 acc = Zsum ((fun ij => ij.2 * delta ij) <$> S) /\
        dx_of acc = A3 acc * b0 acc - A1 acc * b1 acc /\
        dy_of acc = - A1 acc * b0 acc + A0 acc * b1 acc)
  /\ (forall (cols_ : Z) (depth : list R) (p_line : Z) (d : R),
        let acc := accumulate (C := R) (fun d => d) 0%R cols_ depth p_line d in
        let delta := fun ij : Z * Z =>
          (rdZ 0 depth (p_line + (ij.2 * cols_ + ij.1)) - d)%R in
        let S := List.filter (fun ij => Rleb (Rabs (delta ij)) 50) sample_grid in
        A0 acc = Zsum ((fun ij => ij.1 * ij.1) <$> S) /\
        A1 acc = Zsum ((fun ij => ij.1 * ij.2) <$> S) /\
        A3 acc = Zsum ((fun ij => ij.2 * ij.2) <$> S) /\
        b0 acc = Rsum ((fun ij => IZR ij.1 * delta ij)%R <$> S) /\
        b1 acc = Rsum ((fun ij => IZR ij.2 * delta ij)%R <$> S) /\
        dx_of acc = (IZR (A3 acc) * b0 acc - IZR (A1 acc) * b1 acc)%R /\
        dy_of acc = (- IZR (A1 acc) * b0 acc + IZR (A0 acc) * b1 acc)%R)
  /\ (forall (cols_ : Z) (depth : list float) (p_line : Z) (d : float),
        let acc :=
          accumulate (C := float) (fun d => d) 0%float cols_ depth p_line d in
        let delta := fun ij : Z * Z =>
          PrimFloat.sub (rdZ 0%float depth (p_line + (ij.2 * cols_ + ij.1))) d in
        let S := List.filter
                   (fun ij => PrimFloat.leb (PrimFloat.abs (delta ij)) 50%float
                              || PrimFloat.is_nan (delta ij))
                   sample_grid in
        A0 acc = Zsum ((fun ij => ij.1 * ij.1) <$> S) /\
        A1 acc = Zsum ((fun ij => ij.1 * ij.2) <$> S) /\
        A3 acc = Zsum ((fun ij => ij.2 * ij.2) <$> S) /\
        b0 acc = fold_left PrimFloat.add
                   ((fun ij => PrimFloat.mul (float_ofZ ij.1) (delta ij)) <$> S)
                   0%float /\
        b1 acc = fold_left PrimFloat.add
                   ((fun ij => PrimFloat.mul (float_ofZ ij.2) (delta ij)) <$> S)
                   0%float).
Proof.
  split; [reflexivity|]. split; [|split; [|split]].
  - intros D C ops toC d_default cols_ depth p_line d acc delta S.
    unfold acc. rewrite accumulate_samples, fold_accum_sample.
    cbn [A0 A1 A3 b0 b1 accum_zero]. repeat split; done.
  - intros cols_ depth p_line d acc delta S.
    assert (HS : accepted (fun d => d) 0 cols_ depth p_line d sample_grid = S).
    { apply List.filter_ext. intros ij. cbn.
      fold (delta ij). destruct (Z.gtb_spec (Z.abs (delta ij)) 50);
        destruct (Z.leb_spec (Z.abs (delta ij)) 50); try done; lia. }
    unfold acc. rewrite accumulate_samples, fold_accum_sample, HS.
    cbn [A0 A1 A3 b0 b1 accum_zero]. rewrite !fold_left_Zadd.
    unfold dx_of, dy_of. cbn [A0 A1 A3 b0 b1 c_ofZ c_add c_sub c_mul Container_long].
    repeat split; try done; lia.
  - intros cols_ depth p_line d acc delta S.
    assert (HS : accepted (fun d => d) 0%R cols_ depth p_line d sample_grid = S).
    { apply List.filter_ext. intros ij. cbn. fold (delta ij).
      by rewrite Rgtb_Rleb, negb_involutive. }
    unfold acc. rewrite accumulate_samples, fold_accum_sample, HS.
    cbn [A0 A1 A3 b0 b1 accum_zero]. rewrite !fold_left_Rplus.
    unfold dx_of, dy_of. cbn [A0 A1 A3 b0 b1 c_ofZ c_add c_sub c_mul Container_R].
    rewrite opp_IZR, !Rplus_0_l.
    repeat split; try done; lia.
  - intros cols_ depth p_line d acc delta S.
    assert (HS : accepted (fun d => d) 0%float cols_ depth p_line d sample_grid
                 = S).
    { apply List.filter_ext. intros ij.
      unfold delta_at, difference_threshold.
      cbn [c_abs c_gt c_sub c_ofZ Container_double]. fold (delta ij).
      rewrite not_ltb_leb_or_nan by reflexivity. by rewrite is_nan_abs. }
    unfold acc. rewrite accumulate_samples, fold_accum_sample, HS.
    cbn [A0 A1 A3 b0 b1 accum_zero]. repeat split; done.
Qed.

(** C6 as stated fails in [computeImpl<double, double>] when a sample is
    NaN: [abs(NaN) > 50] is false, so the sample is not skipped although
    [|delta| <= 50] does not hold of it.  A 12 x 12 depth map of constant
    depth 1000 whose top-left pixel is NaN, at the pixel [(5, 5)], the one
    pixel the loops compute: all nine samples are accumulated ([A[0]] is
    150), while only eight have [|delta| <= 50] (their sum of [i*i] is
    125). *)
Lemma LINEMOD_nan_sample_counterexample :
  let depth := PrimFloat.nan :: replicate 143 1000%float in
  let p_line := 5 * 12 + 5 in
  let acc :=
    accumulate (C := float) (fun d => d) 0%float 12 depth p_line 1000%float in
  let delta := fun ij : Z * Z =>
    PrimFloat.sub (rdZ 0%float depth (p_line + (ij.2 * 12 + ij.1))) 1000%float in
  let S := List.filter
             (fun ij => PrimFloat.leb (PrimFloat.abs (delta ij)) 50%float)
             sample_grid in
  (visited 12 12 = [(5, 5)] /\ rdZ 0%float depth p_line = 1000%float)
  /\ A0 acc = 150 /\ Zsum ((fun ij => ij.1 * ij.1) <$> S) = 125
  /\ A0 acc <> Zsum ((fun ij => ij.1 * ij.1) <$> S)
  /\ PrimFloat.is_nan (b0 acc) = true.
Proof. vm_compute. repeat split; done. Qed.

(** *** The margin of LINEMOD *)

(** C5 (amended).  On a [rows x cols] output grid LINEMOD writes the normal of
    every pixel [(x, y)] with [5 <= x < cols - 6] and [5 <= y < rows - 6]
    (the loops stop at [cols_ - r - 1] and [rows_ - r - 1]) and leaves every
    other pixel of the grid as it was. *)
Theorem LINEMOD_written_pixels {D C T : Type} `{Container C} `{Floating T}
    (toC : D -> C) (toT : C -> T) (d_default : D)
    (lm : LINEMOD) (depth : Mat_ D) (normals : Mat_ (Vec3T T)) (x y : Z) :
  mat_cols normals = lm_cols_ lm ->
  length (mat_data normals) = Z.to_nat (lm_rows_ lm * lm_cols_ lm) ->
  0 <= x < lm_cols_ lm -> 0 <= y < lm_rows_ lm ->
  let out := mat_data (computeImpl toC toT d_default lm depth normals) in
  let k := Z.to_nat (y * lm_cols_ lm + x) in
  (5 <= x < lm_cols_ lm - 6 /\ 5 <= y < lm_rows_ lm - 6 ->
   out !! k =
     Some (signNormal
             (pixel_nor toC toT d_default lm (mat_data depth)
                (y * mat_cols depth + x) x y)))
  /\ (~ (5 <= x < lm_cols_ lm - 6 /\ 5 <= y < lm_rows_ lm - 6) ->
      out !! k = mat_data normals !! k).
Proof.
  intros Hcols Hlen Hx Hy out k.
  assert (Hk : (k < length (mat_data normals))%nat) by (unfold k; nia).
  pose proof (computeImpl_lookup toC toT d_default lm depth normals x y
                Hcols Hx (proj1 Hy) Hk) as Hlk.
  fold out k in Hlk. split; intros Hin; rewrite Hlk.
  - by rewrite decide_True.
  - by rewrite decide_False.
Qed.

Lemma LINEMOD_written_pixels_witness :
  let out := mat_data (computeImpl (fun d : Z => d) float_ofZ 0 lm12 depth12 normals12) in
  let k := Z.to_nat (5 * lm_cols_ lm12 + 5) in
  (5 <= 5 < lm_cols_ lm12 - 6 /\ 5 <= 5 < lm_rows_ lm12 - 6 ->
   out !! k =
     Some (signNormal
             (pixel_nor (fun d : Z => d) float_ofZ 0 lm12 (mat_data depth12)
                (5 * mat_cols depth12 + 5) 5 5)))
  /\ (~ (5 <= 5 < lm_cols_ lm12 - 6 /\ 5 <= 5 < lm_rows_ lm12 - 6) ->
      out !! k = mat_data normals12 !! k).
Proof.
  apply (LINEMOD_written_pixels (fun d : Z => d) float_ofZ 0 lm12 depth12
           normals12 5 5); [reflexivity | reflexivity | cbn; lia | cbn; lia].
Defined.

(** C5 as stated fails: on the 12 x 12 grid the pixel [(6, 5)] has
    [5 <= 6 < cols - 5] and [5 <= 5 < rows - 5], yet LINEMOD leaves the marker
    there; the only pixel written is [(5, 5)], which gets [(-0, -0, -1)]. *)
Lemma LINEMOD_margin_counterexample :
  let out := mat_data (computeImpl (fun d : Z => d) float_ofZ 0 lm12 depth12 normals12) in
  (5 <= 6 < lm_cols_ lm12 - 5 /\ 5 <= 5 < lm_rows_ lm12 - 5)
  /\ out !! Z.to_nat (5 * 12 + 6) = Some marker
  /\ out !! Z.to_nat (5 * 12 + 5) = Some (Vec3 (-0) (-0) (-1))%float
  /\ (forall k : nat, (k < 144)%nat -> k <> 65%nat -> out !! k = Some marker).
Proof.
  split; [cbn; lia|]. split; [vm_compute; reflexivity|].
  split; [vm_compute; reflexivity|].
  intros k Hk Hne.
  assert (Hall : Forall (fun j => j = 65%nat \/
            mat_data (computeImpl (fun d : Z => d) float_ofZ 0 lm12 depth12 normals12)
              !! j = Some marker) (seq 0 144)).
  { vm_compute. repeat (constructor; [first [by right | by left]|]). constructor. }
  rewrite list.Forall_forall in Hall. destruct (Hall k) as [?|?]; [|done..].
  apply elem_of_seq. lia.
Qed.

(** ** What the estimators write *)

Lemma signNormal_unit_facing (v : Vec3T R) :
  v <> Vec3 0%R 0%R 0%R -> unit_facing (signNormal v).
Proof. intros Hv. split; [by apply signNormal_unit | by apply signNormal_facing]. Qed.

(** C10.  [FALS::compute] does not read its first argument: two calls with
    the same cache and the same radius grid give the same normals whatever
    the two point fields are, and whatever the output grids held before. *)
Theorem FALS_compute_ignores_points {T : Type} `{Floating T}
    (boxFilter : Z -> Z -> Z -> list (Vec3T T) -> list (Vec3T T))
    (f : FALS) (points1 points2 : list (Vec3T T)) (r : list T)
    (normals1 normals2 : list (Vec3T T)) :
  length normals1 = Z.to_nat (fals_rows_ f * fals_cols_ f) ->
  length normals2 = Z.to_nat (fals_rows_ f * fals_cols_ f) ->
  FALS_compute boxFilter f points1 r normals1 =
  FALS_compute boxFilter f points2 r normals2.
Proof.
  intros H1 H2. apply list_eq. intros i.
  destruct (decide (i < Z.to_nat (fals_rows_ f * fals_cols_ f))%nat) as [Hi|Hi].
  - rewrite !FALS_compute_pixel by lia. done.
  - unfold FALS_compute. rewrite !write_loop_outside by lia.
    rewrite !lookup_ge_None_2 by lia. done.
Qed.

Lemma FALS_compute_ignores_points_witness :
  FALS_compute (fun _ _ _ B => B) fals1 [Vec3 1 2 3]%R [2%R] [Vec3 0 0 0]%R =
  FALS_compute (fun _ _ _ B => B) fals1 [Vec3 4 5 6]%R [2%R] [Vec3 9 9 9]%R.
Proof.
  apply (FALS_compute_ignores_points (fun _ _ _ B => B) fals1);
    reflexivity.
Defined.


Lemma accumulate_depth12 :
  accumulate (C := Z) (fun d : Z => d) 0 12 (mat_data depth12) 65 1000 =
  mkAccum 150 0 150 0 0.
Proof. vm_compute. reflexivity. Qed.

Lemma pixel_nor_depth12 :
  pixel_nor (fun d : Z => d) IZR 0 lm12R (mat_data depth12) (5 * mat_cols depth12 + 5) 5 5
  <> Vec3 0%R 0%R 0%R.
Proof.
  unfold pixel_nor.
  change (5 * mat_cols depth12 + 5) with 65.
  change (lm_cols_ lm12R) with 12.
  change (rdZ 0 (mat_data depth12) 65) with 1000.
  rewrite accumulate_depth12.
  unfold det_of, dx_of, dy_of, multiply_by_K_inv, K_inv_of, cross.
  cbn [A0 A1 A3 b0 b1 v0 v1 v2 m00 m01 m02 m10 m11 m12 m20 m21 m22 lm_K_ lm12R
       c_ofZ c_add c_sub c_mul f_div f_opp f_container Container_long
       Floating_R Container_R Z.mul Z.add Z.sub Z.opp Pos.mul Pos.add].
  intros Heq. injection Heq as _ _ Hz.
  repeat match type of Hz with
         | context [IZR ?z] =>
             let z' := eval vm_compute in z in progress change z with z' in Hz
         end.
  lra.
Qed.



(** ** The dispatcher *)

(** *** Configuration errors *)

Lemma CV_Assert_bind {A : Type} (b : bool) (k : outcome A) :
  (CV_Assert b ;; k) = if b then k else AssertFailed.
Proof. by destruct b. Qed.

Ltac assert_step :=
  match goal with
  | |- context [CV_Assert ?b] =>
      destruct b eqn:?;
      cbn [CV_Assert mbind outcome_bind];
      unfold initialize, initialize_normals_impl;
      cbn [rgbd_normals_impl_ rows_ cols_ depth_ K_ window_size_ method_]
  end.

(** One [CV_Assert]: the branch in which it holds is kept, the other one is
    left to [tac]. *)
Ltac assert_pass tac :=
  match goal with
  | |- context [CV_Assert ?b] =>
      destruct b eqn:?; cbn [CV_Assert mbind outcome_bind];
      [ unfold initialize, initialize_normals_impl;
        cbn [rgbd_normals_impl_ rows_ cols_ depth_ K_ window_size_ method_]
      | tac ]
  end.

Ltac unfold_codes :=
  unfold CV_16U, CV_32F, CV_64F, RGBD_NORMALS_METHOD_FALS,
    RGBD_NORMALS_METHOD_LINEMOD, RGBD_NORMALS_METHOD_SRI in *.

Ltac reflect_tests :=
  repeat match goal with
    | H : (_ && _) = true |- _ => apply andb_true_iff in H as [? ?]
    | H : (_ || _) = false |- _ => apply orb_false_iff in H as [? ?]
    | H : (_ && _) = false |- _ => apply andb_false_iff in H
    | H : (_ || _) = true |- _ => apply orb_true_iff in H
    | H : _ \/ _ |- _ => destruct H
    | H : (_ =? _) = true |- _ => apply Z.eqb_eq in H
    | H : (_ =? _) = false |- _ => apply Z.eqb_neq in H
    | H : (_ <? _) = true |- _ => apply Z.ltb_lt in H
    | H : (_ <? _) = false |- _ => apply Z.ltb_ge in H
    end.

Lemma rejected_dec (rows cols depth : Z) (K : Mat) (window_size method : Z) :
  rejected rows cols depth K window_size method
  \/ ~ rejected rows cols depth K window_size method.
Proof.
  assert (Hdec : Decision (rejected rows cols depth K window_size method))
    by (unfold rejected; apply _).
  destruct Hdec; [by left | by right].
Qed.

Section ConfigureFacts.
Variable convertTo : Mat -> Z -> Mat.
Variable FALS_SRI_cache : Estimator -> outcome unit.
Variables (rows cols depth : Z) (K : Mat) (window_size method : Z).
Local Abbreviation result :=
  (configure convertTo FALS_SRI_cache rows cols depth K window_size method).

Lemma configure_rejected :
  rejected rows cols depth K window_size method -> result = AssertFailed.
Proof.
  intros Hr. unfold configure, RgbdNormals_new.
  repeat assert_pass ltac:(reflexivity).
  exfalso. unfold rejected in Hr. unfold_codes. reflect_tests; lia.
Qed.

(** A configuration that passes the assertions gets its estimator, and the
    call ends as the cache build of that estimator ends. *)
Lemma configure_accepted :
  ~ rejected rows cols depth K window_size method ->
  exists est,
    est_base est
    = RgbdNormalsImpl_new convertTo rows cols window_size depth K method
    /\ delete_normals_impl (Some est) method depth = Some (est_class est)
    /\ (method = RGBD_NORMALS_METHOD_LINEMOD ->
        Estimator_cache FALS_SRI_cache est = Done tt)
    /\ result
       = (Estimator_cache FALS_SRI_cache est ;;
          Done (mkRgbdNormals rows cols depth K window_size method (Some est))).
Proof.
  intros Hn. unfold configure, RgbdNormals_new.
  repeat assert_pass
    ltac:(exfalso; apply Hn; unfold rejected; unfold_codes; reflect_tests; lia).
  unfold delete_normals_impl.
  destruct (Z.eqb_spec method RGBD_NORMALS_METHOD_FALS) as [->|?];
    [|destruct (Z.eqb_spec method RGBD_NORMALS_METHOD_LINEMOD) as [->|?];
      [|destruct (Z.eqb_spec method RGBD_NORMALS_METHOD_SRI) as [->|?];
        [|exfalso; unfold_codes; reflect_tests; lia]]];
    destruct (depth =? CV_32F);
    (eexists (mkEstimator _ _); split; [reflexivity|];
     split; [|split; [|reflexivity]]);
    solve [ reflexivity | intros [=] ].
Qed.

End ConfigureFacts.

(** C9 (amended).  Construction followed by the first [initialize] fails a
    [CV_Assert] of the dispatcher when [rows <= 0] or [cols <= 0], the
    precision is neither single nor double, the window size is not 1, 3, 5
    or 7, the method is none of the three, [K] is not 3 x 3, or the elements
    of [K] are neither single nor double floats.  Every other configuration
    gets its estimator, of the class of its method and precision, and the
    call ends as [cache()] of that estimator ends.  So for LINEMOD, whose
    [cache()] is empty, and whenever the cache builds of FALS and SRI
    complete, these are exactly the configurations that are rejected, and
    every other one is accepted without an error. *)
Theorem configuration_rejected_iff (convertTo : Mat -> Z -> Mat)
    (FALS_SRI_cache : Estimator -> outcome unit)
    (rows cols depth : Z) (K : Mat) (window_size method : Z) :
  let result :=
    configure convertTo FALS_SRI_cache rows cols depth K window_size method in
  (rejected rows cols depth K window_size method -> result = AssertFailed)
  /\ (~ rejected rows cols depth K window_size method ->
      exists est,
        est_base est
        = RgbdNormalsImpl_new convertTo rows cols window_size depth K method
        /\ delete_normals_impl (Some est) method depth = Some (est_class est)
        /\ result
           = (Estimator_cache FALS_SRI_cache est ;;
              Done (mkRgbdNormals rows cols depth K window_size method
                      (Some est))))
  /\ (method = RGBD_NORMALS_METHOD_LINEMOD
      \/ (forall est, FALS_SRI_cache est = Done tt) ->
      (rejected rows cols depth K window_size method <-> result = AssertFailed)
      /\ (~ rejected rows cols depth K window_size method <->
          exists impl,
            result = Done (mkRgbdNormals rows cols depth K window_size method
                             (Some impl)))).
Proof.
  intros result.
  pose proof (configure_rejected convertTo FALS_SRI_cache rows cols depth K
                window_size method) as Hrej.
  pose proof (configure_accepted convertTo FALS_SRI_cache rows cols depth K
                window_size method) as Hacc.
  fold result in Hrej, Hacc.
  split; [exact Hrej|]. split.
  { intros Hn. destruct (Hacc Hn) as (est & Hbase & Hclass & _ & Hres).
    by exists est. }
  intros Hcache.
  assert (Hdone : ~ rejected rows cols depth K window_size method ->
                  exists impl,
                    result = Done (mkRgbdNormals rows cols depth K window_size
                                     method (Some impl))).
  { intros Hn. destruct (Hacc Hn) as (est & _ & _ & Hlm & Hres).
    exists est. rewrite Hres.
    assert (Hc : Estimator_cache FALS_SRI_cache est = Done tt).
    { destruct Hcache as [Hm|Hall]; [by apply Hlm|].
      unfold Estimator_cache. by destruct (est_class est). }
    by rewrite Hc. }
  destruct (rejected_dec rows cols depth K window_size method) as [Hr|Hn].
  - split; split.
    + exact Hrej.
    + by intros _.
    + by intros Hn.
    + intros [impl Himpl]. rewrite (Hrej Hr) in Himpl. done.
  - destruct (Hdone Hn) as [impl Himpl]. split; split.
    + by intros Hr.
    + intros Hfail. rewrite Himpl in Hfail. done.
    + intros _. by exists impl.
    + by intros _.
Qed.

(** C9 as stated fails: a 3 x 3 matrix [K] of 32-bit integers meets every
    condition of the claim, and [initialize_normals_impl] still refuses it,
    on its assertion about [K.depth()], before any cache is built. *)
Lemma integer_K_counterexample :
  let K := K_example CV_32S in
  (forall FALS_SRI_cache : Estimator -> outcome unit,
     configure convertTo_exact FALS_SRI_cache 480 640 CV_32F K 5
       RGBD_NORMALS_METHOD_FALS
     = AssertFailed)
  /\ ~ (480 <= 0 \/ 640 <= 0
        \/ ~ (CV_32F = CV_32F \/ CV_32F = CV_64F)
        \/ ~ (5 = 1 \/ 5 = 3 \/ 5 = 5 \/ 5 = 7)
        \/ ~ (RGBD_NORMALS_METHOD_FALS = RGBD_NORMALS_METHOD_FALS
              \/ RGBD_NORMALS_METHOD_FALS = RGBD_NORMALS_METHOD_LINEMOD
              \/ RGBD_NORMALS_METHOD_FALS = RGBD_NORMALS_METHOD_SRI)
        \/ ~ (m_cols K = 3 /\ m_rows K = 3)).
Proof.
  split; [intros; vm_compute; reflexivity|].
  cbn. unfold CV_32F, CV_64F, RGBD_NORMALS_METHOD_FALS,
    RGBD_NORMALS_METHOD_LINEMOD, RGBD_NORMALS_METHOD_SRI. lia.
Qed.

(** *** When the cache is rebuilt *)

(** X1.  What [validate] tests: everything but [cols]. *)
Lemma validate_true_iff (impl : RgbdNormalsImpl) (rows cols depth : Z)
    (K_ori : Mat) (window_size method : Z) :
  validate impl rows cols depth K_ori window_size method = true <->
  m_cols K_ori = m_cols (impl_K_ori_ impl)
  /\ m_rows K_ori = m_rows (impl_K_ori_ impl)
  /\ mat_type K_ori = mat_type (impl_K_ori_ impl)
  /\ countNonZero_ne K_ori (impl_K_ori_ impl) = 0%nat
  /\ rows = impl_rows_ impl /\ impl_cols_ impl <> 0
  /\ window_size = impl_window_size_ impl /\ depth = impl_depth_ impl
  /\ method = impl_method_ impl.
Proof.
  unfold validate.
  destruct (Z.eqb_spec (m_cols K_ori) (m_cols (impl_K_ori_ impl)));
    [|cbn; split; [done|tauto]].
  destruct (Z.eqb_spec (m_rows K_ori) (m_rows (impl_K_ori_ impl)));
    [|cbn; split; [done|tauto]].
  destruct (Z.eqb_spec (mat_type K_ori) (mat_type (impl_K_ori_ impl)));
    [|cbn; split; [done|tauto]].
  cbn [negb orb].
  rewrite !andb_true_iff, !negb_true_iff, !Z.eqb_eq, Z.eqb_neq, Nat.ltb_ge.
  split; [intros; repeat split; try tauto; lia | intros; repeat split; try tauto; lia].
Qed.

Lemma validate_ignores_cols (impl : RgbdNormalsImpl) (rows cols cols' depth : Z)
    (K_ori : Mat) (window_size method : Z) :
  validate impl rows cols depth K_ori window_size method =
  validate impl rows cols' depth K_ori window_size method.
Proof. reflexivity. Qed.

(** C4 fails on the code.  An object configured for 480 x 640 and
    initialized, whose [cols] is then set to 320: [validate] accepts the
    estimator built for 640 columns, and [initialize] keeps it without
    building any cache, where a new object configured for 480 x 320 gets an
    estimator for 320 columns.  The cache builds of the two configurations
    complete. *)
Lemma initialize_keeps_cache_after_cols_change :
  let K := K_example CV_64F in
  let old := mkEstimator FALS_float
               (RgbdNormalsImpl_new convertTo_exact 480 640 5 CV_32F K
                  RGBD_NORMALS_METHOD_FALS) in
  let fresh := mkEstimator FALS_float
                 (RgbdNormalsImpl_new convertTo_exact 480 320 5 CV_32F K
                    RGBD_NORMALS_METHOD_FALS) in
  let changed := mkRgbdNormals 480 320 CV_32F K 5 RGBD_NORMALS_METHOD_FALS
                   (Some old) in
  configure convertTo_exact cache_completes 480 640 CV_32F K 5
    RGBD_NORMALS_METHOD_FALS
    = Done (mkRgbdNormals 480 640 CV_32F K 5 RGBD_NORMALS_METHOD_FALS (Some old))
  /\ validate (est_base old) 480 320 CV_32F K 5 RGBD_NORMALS_METHOD_FALS = true
  /\ (forall FALS_SRI_cache : Estimator -> outcome unit,
        initialize convertTo_exact FALS_SRI_cache changed = Done changed)
  /\ impl_cols_ (est_base old) = 640
  /\ configure convertTo_exact cache_completes 480 320 CV_32F K 5
       RGBD_NORMALS_METHOD_FALS
     = Done (mkRgbdNormals 480 320 CV_32F K 5 RGBD_NORMALS_METHOD_FALS
               (Some fresh)).
Proof. repeat split; intros; vm_compute; reflexivity. Qed.

(** Every other field is compared: a change of [rows] alone rebuilds. *)
Example initialize_rebuilds_after_rows_change :
  let K := K_example CV_64F in
  let old := mkEstimator FALS_float
               (RgbdNormalsImpl_new convertTo_exact 480 640 5 CV_32F K
                  RGBD_NORMALS_METHOD_FALS) in
  initialize convertTo_exact cache_completes
    (mkRgbdNormals 240 640 CV_32F K 5 RGBD_NORMALS_METHOD_FALS (Some old))
  = Done (mkRgbdNormals 240 640 CV_32F K 5 RGBD_NORMALS_METHOD_FALS
            (Some (mkEstimator FALS_float
                     (RgbdNormalsImpl_new convertTo_exact 240 640 5 CV_32F K
                        RGBD_NORMALS_METHOD_FALS)))).
Proof. vm_compute. reflexivity. Qed.

(** *** The depth image handed to LINEMOD *)

(** For LINEMOD the local [points3d] of [operator()] is never assigned: the
    split of a 3-channel input is the split of an empty matrix. *)
Lemma LINEMOD_depth_three_channels (points3d_ori : Mat) :
  m_channels points3d_ori = 3 ->
  LINEMOD_depth points3d_ori Mat_empty = Undefined.
Proof. intros Hc. unfold LINEMOD_depth. by rewrite Hc. Qed.

(** C7 fails on the code.  With the LINEMOD method and a 3-channel input the
    call reaches [channels[2]] on the empty vector that [cv::split] leaves
    for the unassigned [points3d]; whatever the estimators compute, no depth
    image is handed to [LINEMOD::compute].  The third channel of the input
    itself would have been the constant 1000. *)
Lemma LINEMOD_three_channel_call_undefined :
  (forall (FALS_SRI_cache : Estimator -> outcome unit)
      (single : Floating float)
      (uninitialized : Z -> Z -> Z -> list (list float))
      (FALS_float_compute FALS_double_compute SRI_float_compute SRI_double_compute
         : Estimator -> Mat -> Mat -> Mat -> Mat)
      (LINEMOD_float_compute LINEMOD_double_compute
         : Estimator -> Mat -> Mat -> Mat),
      RgbdNormals_call convertTo_exact FALS_SRI_cache single uninitialized
        FALS_float_compute FALS_double_compute
        LINEMOD_float_compute LINEMOD_double_compute
        SRI_float_compute SRI_double_compute
        linemod12 points12 Mat_empty = Undefined)
  /\ (m_data <$> cv_split points12 !! 2%nat)
     = Some (replicate 144 [1000%float]).
Proof.
  split; [intros; vm_compute; reflexivity | vm_compute; reflexivity].
Qed.

(** With a single-channel depth image the same object hands the input
    itself to [LINEMOD::compute]. *)
Example LINEMOD_single_channel_call :
  let depth := mkMat 2 12 12 CV_64F 1 (replicate 144 [1000%float]) in
  exists n,
    RgbdNormals_call convertTo_exact cache_completes Floating_double
      (fun _ _ _ => [])
      (fun _ _ _ m => m) (fun _ _ _ m => m)
      (fun _ d _ => d) (fun _ d _ => d)
      (fun _ _ _ m => m) (fun _ _ _ m => m)
      linemod12 depth Mat_empty = Done (n, depth).
Proof. eexists. vm_compute. reflexivity. Qed.

(** ** The angular precompute *)

Section ThetaPhiFacts.
Context {T : Type} `{Floating T} `{Trig T}.
Local Open Scope scalar_scope.

Lemma depthTo3d_lookup (cols : Z) (n k : nat) (z : T) (K : Mat33T T) :
  (k < n)%nat ->
  depthTo3d cols (replicate n z) K !! k =
  Some (Vec3 ((c_ofZ (Z.of_nat k mod cols) - m02 K) * z / m00 K)
             ((c_ofZ (Z.of_nat k / cols) - m12 K) * z / m11 K) z).
Proof.
  intros Hk. unfold depthTo3d.
  by rewrite list_lookup_imap, lookup_replicate_2 by done.
Qed.

Lemma computeThetaPhi_at (rows cols : Z) (K : Mat33T T) (k : nat) :
  (k < Z.to_nat (rows * cols))%nat ->
  let P := Vec3 ((c_ofZ (Z.of_nat k mod cols) - m02 K) * (m00 K * 1) / m00 K)
                ((c_ofZ (Z.of_nat k / cols) - m12 K) * (m00 K * 1) / m11 K)
                (m00 K * 1) in
  let theta := t_float (t_atan2 (v0 P) (v2 P)) in
  let phi := t_float (t_asin (v1 P / norm_vec P)) in
  let g := computeThetaPhi rows cols K in
  cos_theta g !! k = Some (t_cos theta) /\ sin_theta g !! k = Some (t_sin theta)
  /\ cos_phi g !! k = Some (t_cos phi) /\ sin_phi g !! k = Some (t_sin phi).
Proof.
  intros Hk P theta phi g. unfold g, computeThetaPhi.
  cbn [cos_theta sin_theta cos_phi sin_phi].
  rewrite !list_lookup_fmap, lookup_zip_with. unfold computeRadius.
  rewrite list_lookup_fmap, !depthTo3d_lookup by done. done.
Qed.

End ThetaPhiFacts.

Lemma computeThetaPhi_lookup (rows cols : Z) (K : Mat33T R) (x y : Z) :
  0 <= x < cols -> 0 <= y < rows ->
  let k := Z.to_nat (y * cols + x) in
  let P := backproject K x y (m00 K) in
  let theta := Ratan2 (v0 P) (v2 P) in
  let phi := asin (v1 P / norm_vec P) in
  let g := computeThetaPhi rows cols K in
  cos_theta g !! k = Some (cos theta) /\ sin_theta g !! k = Some (sin theta)
  /\ cos_phi g !! k = Some (cos phi) /\ sin_phi g !! k = Some (sin phi).
Proof.
  intros Hx Hy k P theta phi g.
  assert (Hk : (k < Z.to_nat (rows * cols))%nat) by (unfold k; nia).
  assert (Hmod : Z.of_nat k mod cols = x).
  { unfold k. rewrite Z2Nat.id by nia.
    rewrite Z.add_comm, Z.mod_add by lia. apply Z.mod_small. lia. }
  assert (Hdiv : Z.of_nat k / cols = y).
  { unfold k. rewrite Z2Nat.id by nia.
    rewrite Z.add_comm, Z.div_add by lia. rewrite Z.div_small by lia. lia. }
  pose proof (computeThetaPhi_at rows cols K k Hk) as Hat.
  cbv zeta in Hat. rewrite Hmod, Hdiv in Hat.
  cbn [c_ofZ c_sub c_mul f_div f_container Floating_R Container_R] in Hat.
  rewrite !Rmult_1_r in Hat. exact Hat.
Qed.

Section Rays.
Local Open Scope R_scope.

(** The angle of a ray does not change along the ray. *)
Lemma Ratan2_scale (s y x : R) : 0 < s -> Ratan2 (s * y) (s * x) = Ratan2 y x.
Proof.
  intros Hs. unfold Ratan2.
  assert (Hq : x <> 0 -> s * y / (s * x) = y / x) by (intros; field; lra).
  repeat match goal with
         | |- context [Rlt_dec ?a ?b] => destruct (Rlt_dec a b)
         | |- context [Rle_dec ?a ?b] => destruct (Rle_dec a b)
         end;
    try reflexivity; try (exfalso; nra); rewrite Hq by lra; reflexivity.
Qed.

Lemma norm_vec_scale (s a b c : R) :
  0 <= s -> norm_vec (Vec3 (s * a) (s * b) (s * c)) = s * norm_vec (Vec3 a b c).
Proof.
  intros Hs. rewrite !norm_vec_R. cbn [v0 v1 v2]. unfold sumsq.
  replace (s * a * (s * a) + s * b * (s * b) + s * c * (s * c))
    with (s * s * (a * a + b * b + c * c)) by ring.
  rewrite sqrt_mult by nra. by rewrite sqrt_square.
Qed.

Lemma backproject_scale (K : Mat33T R) (x y : Z) (z : R) :
  backproject K x y z =
  Vec3 (z * v0 (backproject K x y 1)) (z * v1 (backproject K x y 1))
       (z * v2 (backproject K x y 1)).
Proof. unfold backproject. cbn [v0 v1 v2]. f_equal; unfold Rdiv; ring. Qed.

Lemma norm_backproject_pos (K : Mat33T R) (x y : Z) :
  0 < norm_vec (backproject K x y 1).
Proof.
  rewrite norm_vec_R. apply sqrt_lt_R0. unfold backproject, sumsq.
  cbn [v0 v1 v2].
  generalize ((IZR x - m02 K) * 1 / m00 K) ((IZR y - m12 K) * 1 / m11 K).
  intros a b. nra.
Qed.

(** For a positive focal length the rays through the points of depth
    [K(0,0)] are the rays through the points of depth 1. *)
Lemma angles_of_unit_depth (K : Mat33T R) (x y : Z) :
  0 < m00 K ->
  let P := backproject K x y (m00 K) in
  let P1 := backproject K x y 1 in
  Ratan2 (v0 P) (v2 P) = Ratan2 (v0 P1) (v2 P1)
  /\ v1 P / norm_vec P = v1 P1 / norm_vec P1.
Proof.
  intros Hf P P1. unfold P. rewrite backproject_scale. fold P1.
  cbn [v0 v1 v2]. split; [by apply Ratan2_scale|].
  pose proof (norm_backproject_pos K x y) as Hn. fold P1 in Hn.
  destruct P1 as [a b c]. rewrite norm_vec_scale by lra.
  cbn [v0 v1 v2]. field. split; lra.
Qed.

End Rays.



(** The precondition on [K(0,0)] is needed: the depth image that
    [computeThetaPhi] back-projects is filled with [K(0,0)], so with
    [K(0,0) = -1] its points lie behind the camera, and at the principal
    point [theta] is [PI], outside the range from [-PI/2] to [PI/2] that the
    comment in the source gives it, where the point of depth 1 gives 0. *)
Example computeThetaPhi_negative_focal :
  let K := (Mat33 (-1) 0 0 0 1 0 0 0 1)%R in
  let g := computeThetaPhi 1 1 K in
  let P1 := backproject K 0 0 1 in
  cos_theta g !! 0%nat = Some (-1)%R
  /\ cos (Ratan2 (v0 P1) (v2 P1)) = 1%R
  /\ cos_theta g !! 0%nat <> Some (cos (Ratan2 (v0 P1) (v2 P1))).
Proof.
  intros K g P1.
  assert (H1 : cos_theta g !! 0%nat = Some (-1)%R).
  { destruct (computeThetaPhi_lookup 1 1 K 0 0) as [Hc _]; [lia..|].
    cbv zeta in Hc. change (Z.to_nat (0 * 1 + 0)) with 0%nat in Hc.
    fold g in Hc. rewrite Hc. f_equal.
    unfold backproject, K. cbn [v0 v1 v2 m00 m02 m11 m12]. unfold Ratan2.
    destruct (Rlt_dec 0 (-1)) as [?|_]; [lra|].
    destruct (Rlt_dec (-1) 0) as [_|?]; [|lra].
    destruct (Rle_dec 0 ((0 - 0) * -1 / -1)) as [_|?]; [|lra].
    replace ((0 - 0) * -1 / -1 / -1)%R with 0%R by lra.
    rewrite atan_0, Rplus_0_l. apply cos_PI. }
  assert (H2 : cos (Ratan2 (v0 P1) (v2 P1)) = 1%R).
  { unfold P1, backproject, K. cbn [v0 v1 v2 m00 m02 m11 m12]. unfold Ratan2.
    destruct (Rlt_dec 0 1) as [_|?]; [|lra].
    replace ((0 - 0) * 1 / -1 / 1)%R with 0%R by lra.
    rewrite atan_0. apply cos_0. }
  split; [done|]. split; [done|].
  rewrite H1, H2. intros [=]. lra.
Qed.

(** ** The invalidity sentinel *)

Section NaNArithmetic.
Variable nan_bits : pd_operation -> list pdouble -> bool * Z.

(** No arithmetic operation returns a signaling NaN. *)
Lemma pd_op2_not_signaling (o : pd_operation) (op : float -> float -> float)
    (a b : pdouble) :
  pd_signaling (pd_op2 nan_bits o op a b) = false.
Proof.
  destruct a, b; cbn [pd_op2 pd_nan pd_signaling]; try reflexivity.
  by destruct (PrimFloat.is_nan _).
Qed.

Lemma pd_op2_nan_right (o : pd_operation) (op : float -> float -> float)
    (a : pdouble) (s q : bool) (p : Z) :
  pd_op2 nan_bits o op a (PNaN s q p) = pd_nan nan_bits o [a; PNaN s q p].
Proof. by destruct a. Qed.

(** The scalar [signNormal] sends a triple whose last component is a NaN to
    three quiet NaNs. *)
Lemma signNormal3_of_nan (a b : pdouble) (s q : bool) (p : Z) :
  let out := @signNormal3 pdouble (Floating_pdouble nan_bits) a b (PNaN s q p) in
  pd_quiet (v0 out) = true /\ pd_quiet (v1 out) = true
  /\ pd_quiet (v2 out) = true.
Proof.
  unfold signNormal3.
  cbn [c_gt c_mul c_add c_ofZ f_div f_sqrt f_container Floating_pdouble
       Container_pdouble pd_gt].
  match goal with
  | |- context [pd_op2 nan_bits PDiv ?d ?x ?y] =>
      assert (exists s' p', pd_op2 nan_bits PDiv d x y = PNaN s' true p')
        as (s' & p' & ->)
  end.
  { rewrite (pd_op2_nan_right PMul). unfold pd_nan at 1.
    rewrite (pd_op2_nan_right PAdd). unfold pd_nan at 1. cbn [pd_op1].
    unfold pd_nan at 1. rewrite (pd_op2_nan_right PDiv). unfold pd_nan.
    eauto. }
  rewrite !(pd_op2_nan_right PMul). by cbn.
Qed.

(** Every channel of the output of SRI is the result of a multiplication,
    whatever the OpenCV primitives return: none is a signaling NaN. *)
Lemma SRI_output_is_computed {MapTable : Type}
    (remap : list pdouble -> MapTable -> MapTable -> list pdouble)
    (remap3 : list (Vec3T pdouble) -> MapTable -> MapTable -> list (Vec3T pdouble))
    (sepFilter2D : list pdouble -> list pdouble -> list pdouble -> list pdouble)
    (s : @SRI pdouble MapTable) (points3d : list (Vec3T pdouble))
    (r_non_interp : list pdouble) (i : nat) (out : Vec3T pdouble) :
  (i < Z.to_nat (sri_rows_ s * sri_cols_ s))%nat ->
  @SRI_compute pdouble (Floating_pdouble nan_bits) MapTable remap remap3
    sepFilter2D s points3d r_non_interp !! i = Some out ->
  pd_signaling (v0 out) = false /\ pd_signaling (v1 out) = false
  /\ pd_signaling (v2 out) = false.
Proof.
  intros Hi Hout.
  destruct (remap3 (@SRI_normals pdouble (Floating_pdouble nan_bits) MapTable
                      remap sepFilter2D s r_non_interp)
              (invxy_ s) (invfxy_ s) !! i) as [q|] eqn:Hq.
  - rewrite (@SRI_compute_pixel pdouble (Floating_pdouble nan_bits) MapTable
               remap remap3 sepFilter2D s points3d r_non_interp i q Hi Hq)
      in Hout.
    injection Hout as <-. unfold signNormal3.
    destruct (c_gt (v2 q) (c_ofZ 0)); cbn [v0 v1 v2];
      repeat split; apply pd_op2_not_signaling.
  - apply lookup_ge_None in Hq. unfold SRI_compute in Hout.
    apply lookup_lt_Some in Hout. rewrite update_loop_length in Hout. lia.
Qed.

End NaNArithmetic.




(** ** Further properties of the helpers *)

Section RadiusFacts.
Local Open Scope R_scope.

Lemma norm_vec_ge_z (p : Vec3T R) : Rabs (v2 p) <= norm_vec p.
Proof.
  rewrite norm_vec_R. destruct p as [a b c]. cbn [v0 v1 v2].
  rewrite <- sqrt_Rsqr_abs. apply sqrt_le_1_alt. unfold sumsq, Rsqr. nra.
Qed.

Lemma Vec3_zero_dec (p : Vec3T R) : p = Vec3 0 0 0 \/ p <> Vec3 0 0 0.
Proof.
  destruct p as [a b c].
  destruct (Req_dec a 0) as [->|?]; [|right; congruence].
  destruct (Req_dec b 0) as [->|?]; [|right; congruence].
  destruct (Req_dec c 0) as [->|?]; [|right; congruence].
  by left.
Qed.

Lemma norm_vec_zero : norm_vec (Vec3 0 0 0 : Vec3T R) = 0.
Proof.
  rewrite norm_vec_R. cbn [v0 v1 v2]. unfold sumsq.
  replace (0 * 0 + 0 * 0 + 0 * 0) with 0 by ring. apply sqrt_0.
Qed.

Lemma norm_vec_zero_iff (p : Vec3T R) : norm_vec p = 0 <-> p = Vec3 0 0 0.
Proof.
  split.
  - intros Hn. destruct (Vec3_zero_dec p) as [|Hne]; [done|].
    destruct p as [a b c]. pose proof (sqrt_sumsq_pos a b c Hne) as Hpos.
    rewrite norm_vec_R in Hn. cbn [v0 v1 v2] in Hn. lra.
  - intros ->. apply norm_vec_zero.
Qed.

End RadiusFacts.

(** X2.  [computeRadius] returns one radius for every point: the Euclidean
    distance of the point to the origin, which is at least the absolute
    value of its depth and is zero only for the origin itself. *)
Theorem computeRadius_distance (points : list (Vec3T R)) :
  length (computeRadius points) = length points
  /\ (forall (i : nat) (p : Vec3T R), points !! i = Some p ->
        computeRadius points !! i
          = Some (sqrt (v0 p * v0 p + v1 p * v1 p + v2 p * v2 p))
        /\ (Rabs (v2 p) <= norm_vec p)%R
        /\ (norm_vec p = 0%R <-> p = Vec3 0%R 0%R 0%R))
  /\ (forall i : nat, points !! i = None -> computeRadius points !! i = None).
Proof.
  unfold computeRadius. split; [apply length_fmap|]. split.
  - intros i p Hp. rewrite list_lookup_fmap, Hp.
    split; [done|]. split; [apply norm_vec_ge_z | apply norm_vec_zero_iff].
  - intros i Hp. by rewrite list_lookup_fmap, Hp.
Qed.

Section ScaleFacts.
Local Open Scope R_scope.

Lemma signNormal_scale_pos (s : R) (v : Vec3T R) :
  0 < s -> signNormal (vec_scale s v) = signNormal v.
Proof.
  intros Hs. destruct (Vec3_zero_dec v) as [->|Hne].
  { unfold vec_scale. cbn [v0 v1 v2]. by rewrite Rmult_0_r. }
  destruct v as [a b c]. pose proof (sqrt_sumsq_pos a b c Hne) as Hn.
  assert (Hnv : norm_vec (Vec3 a b c) <> 0).
  { rewrite norm_vec_R. cbn [v0 v1 v2]. lra. }
  unfold vec_scale. cbn [v0 v1 v2].
  destruct (Rlt_le_dec 0 c) as [Hc|Hc].
  - rewrite !signNormal_pos by (cbn [v2]; nra).
    rewrite norm_vec_scale by lra. cbn [v0 v1 v2]. f_equal; field; lra.
  - rewrite !signNormal_nonpos by (cbn [v2]; nra).
    rewrite norm_vec_scale by lra. cbn [v0 v1 v2]. f_equal; field; lra.
Qed.

Lemma signNormal_opp (v : Vec3T R) :
  v2 v <> 0 -> signNormal (vec_scale (-1) v) = signNormal v.
Proof.
  intros Hz. destruct v as [a b c]. cbn [v2] in Hz.
  assert (Hnorm : norm_vec (vec_scale (-1) (Vec3 a b c)) = norm_vec (Vec3 a b c)).
  { rewrite !norm_vec_R. unfold vec_scale. cbn [v0 v1 v2]. f_equal.
    unfold sumsq. ring. }
  destruct (Rlt_le_dec 0 c) as [Hc|Hc].
  - rewrite (signNormal_pos (Vec3 a b c)) by (cbn [v2]; lra).
    rewrite signNormal_nonpos by (unfold vec_scale; cbn [v2]; lra).
    rewrite Hnorm. unfold vec_scale. cbn [v0 v1 v2].
    f_equal; unfold Rdiv; ring.
  - rewrite (signNormal_nonpos (Vec3 a b c)) by (cbn [v2]; lra).
    rewrite signNormal_pos by (unfold vec_scale; cbn [v2]; lra).
    rewrite Hnorm. unfold vec_scale. cbn [v0 v1 v2].
    f_equal; unfold Rdiv; ring.
Qed.

Lemma vec_scale_scale (s t : R) (v : Vec3T R) :
  vec_scale s (vec_scale t v) = vec_scale (s * t) v.
Proof. unfold vec_scale. cbn [v0 v1 v2]. f_equal; ring. Qed.

Lemma signNormal_scale_neg (s : R) (v : Vec3T R) :
  s < 0 -> v2 v <> 0 -> signNormal (vec_scale s v) = signNormal v.
Proof.
  intros Hs Hz.
  replace s with (- s * -1) by ring. rewrite <- vec_scale_scale.
  rewrite signNormal_scale_pos by lra. by apply signNormal_opp.
Qed.

End ScaleFacts.

(** X3.  The result of [signNormal] depends only on the line the vector
    spans: for a vector that is not zero, a positive factor never changes
    it, and a negative factor does not change it either unless the
    z-component is zero. *)
Theorem signNormal_scale_invariant (s : R) (v : Vec3T R) :
  v <> Vec3 0%R 0%R 0%R ->
  ((0 < s)%R -> signNormal (vec_scale s v) = signNormal v)
  /\ ((s < 0)%R -> v2 v <> 0%R -> signNormal (vec_scale s v) = signNormal v).
Proof.
  intros _. split; [apply signNormal_scale_pos | apply signNormal_scale_neg].
Qed.

Lemma signNormal_scale_invariant_witness :
  ((0 < -2)%R ->
   signNormal (vec_scale (-2) (Vec3 3 0 4)%R) = signNormal (Vec3 3 0 4)%R)
  /\ ((-2 < 0)%R -> v2 (Vec3 3 0 4)%R <> 0%R ->
      signNormal (vec_scale (-2) (Vec3 3 0 4)%R) = signNormal (Vec3 3 0 4)%R).
Proof.
  apply (signNormal_scale_invariant (-2) (Vec3 3 0 4)%R).
  intros [=]; lra.
Defined.

(** ** Further properties of LINEMOD *)

Ltac real_ops :=
  cbn [v0 v1 v2 m00 m01 m02 m10 m11 m12 m20 m21 m22
       c_ofZ c_add c_sub c_mul c_abs f_div f_opp f_sqrt f_container
       Floating_R Container_R].

(** X4.  For an upper-triangular [K] of last row [(0, 0, 1)] with nonzero
    focal lengths, the [K_inv] that [computeImpl] writes out by hand is the
    inverse of [K], and [multiply_by_K_inv], which skips the entries below
    the diagonal, is the product with it. *)
Theorem K_inv_of_inverts_K (K : Mat33T R) (a b c : R) :
  m10 K = 0%R -> m20 K = 0%R -> m21 K = 0%R -> m22 K = 1%R ->
  m00 K <> 0%R -> m11 K <> 0%R ->
  multiply_by_K_inv (fun u : R => u) (K_inv_of K) a b c
    = mat_vec (K_inv_of K) (Vec3 a b c)
  /\ mat_vec (K_inv_of K) (mat_vec K (Vec3 a b c)) = Vec3 a b c
  /\ mat_vec K (mat_vec (K_inv_of K) (Vec3 a b c)) = Vec3 a b c.
Proof.
  intros H10 H20 H21 H22 Hfx Hfy. destruct K as [k00 k01 k02 k10 k11 k12 k20 k21 k22].
  cbn [m00 m01 m02 m10 m11 m12 m20 m21 m22] in *. subst.
  unfold multiply_by_K_inv, mat_vec, K_inv_of. real_ops.
  repeat split; f_equal; field; done.
Qed.

Lemma K_inv_of_inverts_K_witness :
  let K := (Mat33 525 0 320 0 525 240 0 0 1)%R in
  multiply_by_K_inv (fun u : R => u) (K_inv_of K) 1%R 2%R 3%R
    = mat_vec (K_inv_of K) (Vec3 1 2 3)%R
  /\ mat_vec (K_inv_of K) (mat_vec K (Vec3 1 2 3)%R) = (Vec3 1 2 3)%R
  /\ mat_vec K (mat_vec (K_inv_of K) (Vec3 1 2 3)%R) = (Vec3 1 2 3)%R.
Proof.
  apply (K_inv_of_inverts_K (Mat33 525 0 320 0 525 240 0 0 1)%R 1%R 2%R 3%R);
    cbn; try reflexivity; lra.
Defined.

Section DivisionFree.
Local Open Scope R_scope.

(** The two vectors the code multiplies, and their cross product, against
    the formula with the division. *)
Lemma cross_times_det (K : Mat33T R) (x y : Z) (d det dx dy : R) :
  det <> 0 ->
  cross
    (multiply_by_K_inv (fun u : R => u) (K_inv_of K)
       (d * det + IZR (x + 1) * dx) (IZR y * dx) dx)
    (multiply_by_K_inv (fun u : R => u) (K_inv_of K)
       (IZR x * dy) (d * det + IZR (y + 1) * dy) dy)
  = vec_scale (det * det) (nor_by_division K x y d (dx / det) (dy / det)).
Proof.
  intros Hdet. destruct K as [k00 k01 k02 k10 k11 k12 k20 k21 k22].
  unfold nor_by_division, multiply_by_K_inv, mat_vec, K_inv_of, cross,
    vec_scale, vec_sub.
  real_ops. rewrite !plus_IZR.
  generalize (1 / k00) (- k01 / (k00 * k11)) ((k01 * k12 - k02 * k11) / (k00 * k11))
    (1 / k11) (- k12 / k11).
  intros i00 i01 i02 i11 i12. f_equal; field; done.
Qed.

End DivisionFree.

(** X5.  LINEMOD without the division.  Over exact arithmetic, where the
    determinant of the normal equations is not zero, the vector the code
    hands to [signNormal] is [det^2] times the cross product that the
    comment in [computeImpl] describes, with the gradient
    [(dx / det, dy / det)]; the normal stored is the normal of that cross
    product.  [toT] is a conversion that commutes with sums and products, as
    those of [long] and of the reals to the reals do, and the two focal
    lengths of [K] are not zero. *)
Theorem LINEMOD_division_free {D C : Type} `{Container C}
    (toC : D -> C) (toT : C -> R) (d_default : D)
    (lm : @LINEMOD R) (depth : list D) (p_line x y : Z) :
  (forall a b : C, toT (a + b)%S = (toT a + toT b)%R) ->
  (forall a b : C, toT (a * b)%S = (toT a * toT b)%R) ->
  (forall z : Z, toT (c_ofZ z) = IZR z) ->
  m00 (lm_K_ lm) <> 0%R -> m11 (lm_K_ lm) <> 0%R ->
  let d := rdZ d_default depth p_line in
  let acc := accumulate toC d_default (lm_cols_ lm) depth p_line d in
  det_of acc <> 0 ->
  let det := IZR (det_of acc) in
  let nor := nor_by_division (lm_K_ lm) x y (toT (toC d))
               (toT (dx_of acc) / det) (toT (dy_of acc) / det) in
  pixel_nor toC toT d_default lm depth p_line x y = vec_scale (det * det) nor
  /\ pixel_normal toC toT d_default lm depth p_line x y = signNormal nor.
Proof.
  intros Hadd Hmul HofZ _ _ d acc Hdet det nor.
  assert (Hdet' : det <> 0%R) by (unfold det; by apply not_0_IZR).
  assert (Hnor : pixel_nor toC toT d_default lm depth p_line x y
                 = vec_scale (det * det) nor).
  { unfold pixel_nor. fold d. fold acc. cbv zeta.
    unfold multiply_by_K_inv at 1 2.
    rewrite !Hadd, !Hmul, !HofZ. fold det.
    apply (cross_times_det (lm_K_ lm) x y (toT (toC d)) det
             (toT (dx_of acc)) (toT (dy_of acc)) Hdet'). }
  split; [exact Hnor|].
  unfold pixel_normal. rewrite Hnor. apply signNormal_scale_pos. nra.
Qed.

Lemma LINEMOD_division_free_witness :
  let d := rdZ 0 (mat_data depth12) 65 in
  let acc := accumulate (fun u : Z => u) 0 (lm_cols_ lm12R) (mat_data depth12) 65 d in
  let det := IZR (det_of acc) in
  let nor := nor_by_division (lm_K_ lm12R) 5 5 (IZR d)
               (IZR (dx_of acc) / det) (IZR (dy_of acc) / det) in
  pixel_nor (fun u : Z => u) IZR 0 lm12R (mat_data depth12) 65 5 5
    = vec_scale (det * det) nor
  /\ pixel_normal (fun u : Z => u) IZR 0 lm12R (mat_data depth12) 65 5 5
     = signNormal nor.
Proof.
  apply (LINEMOD_division_free (fun u : Z => u) IZR 0 lm12R (mat_data depth12)
           65 5 5);
    [apply plus_IZR | apply mult_IZR | reflexivity | cbn; lra | cbn; lra
    | vm_compute; discriminate].
Defined.

(** *** The size of the integers of [computeImpl<unsigned short, long>] *)

Ltac split_sample p Hd ij :=
  let E := fresh "E" in
  destruct (p ij) eqn:E; [apply Hd in E; cbn [fst snd] in E | clear E].

(** The sums over any set of samples whose [delta] lies between -50 and
    50. *)
Lemma sample_sums_bounded (p : Z * Z -> bool) (delta : Z * Z -> Z) :
  (forall ij, p ij = true -> -50 <= delta ij <= 50) ->
  let S := List.filter p sample_grid in
  let a0 := Zsum ((fun ij => ij.1 * ij.1) <$> S) in
  let a1 := Zsum ((fun ij => ij.1 * ij.2) <$> S) in
  let a3 := Zsum ((fun ij => ij.2 * ij.2) <$> S) in
  let s0 := Zsum ((fun ij => ij.1 * delta ij) <$> S) in
  let s1 := Zsum ((fun ij => ij.2 * delta ij) <$> S) in
  0 <= a0 <= 150 /\ -50 <= a1 <= 50 /\ 0 <= a3 <= 150
  /\ -1500 <= s0 <= 1500 /\ -1500 <= s1 <= 1500
  /\ 0 <= a0 * a3 - a1 * a1 <= 22500
  /\ -225000 <= a3 * s0 - a1 * s1 <= 225000
  /\ -225000 <= - a1 * s0 + a0 * s1 <= 225000
  /\ (a0 * a3 - a1 * a1 = 0 -> a3 * s0 - a1 * s1 = 0 /\ - a1 * s0 + a0 * s1 = 0).
Proof.
  intros Hd. rewrite sample_grid_value. cbn [List.filter].
  split_sample p Hd (-5, -5); split_sample p Hd (0, -5); split_sample p Hd (5, -5);
  split_sample p Hd (-5, 0); split_sample p Hd (0, 0); split_sample p Hd (5, 0);
  split_sample p Hd (-5, 5); split_sample p Hd (0, 5); split_sample p Hd (5, 5);
  unfold Zsum; cbn [fmap list_fmap foldr fst snd]; lia.
Qed.

Lemma accumulate_long_sums (d_default cols_ : Z) (depth : list Z) (p_line d : Z) :
  let delta := delta_at (fun u : Z => u) d_default cols_ depth p_line d in
  let S := List.filter (fun ij => negb (Z.abs (delta ij) >? 50)) sample_grid in
  accumulate (fun u : Z => u) d_default cols_ depth p_line d =
  mkAccum (Zsum ((fun ij => ij.1 * ij.1) <$> S))
          (Zsum ((fun ij => ij.1 * ij.2) <$> S))
          (Zsum ((fun ij => ij.2 * ij.2) <$> S))
          (Zsum ((fun ij => ij.1 * delta ij) <$> S))
          (Zsum ((fun ij => ij.2 * delta ij) <$> S)).
Proof.
  intros delta S. rewrite accumulate_samples, fold_accum_sample.
  cbn [A0 A1 A3 b0 b1 accum_zero]. rewrite !fold_left_Zadd.
  reflexivity.
Qed.

(** X6.  In [computeImpl<unsigned short, long>] every integer stays small:
    whatever the depth image holds, the accumulators, the determinant (which
    is never negative) and the two gradients are bounded, and for a 16-bit
    depth [d] and pixel coordinates that fit an [int] the values handed to
    [multiply_by_K_inv] are below [2^50] in absolute value: they are far
    from the limits of a [long] of 64 bits, and their conversion to [double]
    is exact. *)
Theorem LINEMOD_long_values_bounded (d_default cols_ : Z) (depth : list Z)
    (p_line d x y : Z) :
  0 <= d <= 65535 -> 0 <= x < 2 ^ 31 - 1 -> 0 <= y < 2 ^ 31 - 1 ->
  let acc := accumulate (fun u : Z => u) d_default cols_ depth p_line d in
  let det := det_of acc in
  let dx := dx_of acc in
  let dy := dy_of acc in
  (0 <= A0 acc <= 150 /\ -50 <= A1 acc <= 50 /\ 0 <= A3 acc <= 150
   /\ Z.abs (b0 acc) <= 1500 /\ Z.abs (b1 acc) <= 1500)
  /\ 0 <= det <= 22500
  /\ Z.abs dx <= 225000 /\ Z.abs dy <= 225000
  /\ Z.abs (d * det + (x + 1) * dx) < 2 ^ 50 /\ Z.abs (y * dx) < 2 ^ 50
  /\ Z.abs (x * dy) < 2 ^ 50 /\ Z.abs (d * det + (y + 1) * dy) < 2 ^ 50.
Proof.
  intros Hd Hx Hy acc det dx dy.
  pose proof (sample_sums_bounded
                (fun ij => negb (Z.abs (delta_at (fun u : Z => u) d_default cols_
                                          depth p_line d ij) >? 50))
                (delta_at (fun u : Z => u) d_default cols_ depth p_line d)) as Hb.
  cbv zeta in Hb.
  unfold det, dx, dy, det_of, dx_of, dy_of, acc.
  rewrite accumulate_long_sums.
  cbn [c_ofZ c_add c_sub c_mul Container_long A0 A1 A3 b0 b1].
  set (S := List.filter _ sample_grid) in *.
  set (a0 := Zsum ((fun ij => ij.1 * ij.1) <$> S)) in *.
  set (a1 := Zsum ((fun ij => ij.1 * ij.2) <$> S)) in *.
  set (a3 := Zsum ((fun ij => ij.2 * ij.2) <$> S)) in *.
  set (s0 := Zsum ((fun ij => ij.1 * delta_at (fun u : Z => u) d_default cols_
                                       depth p_line d ij) <$> S)) in *.
  set (s1 := Zsum ((fun ij => ij.2 * delta_at (fun u : Z => u) d_default cols_
                                       depth p_line d ij) <$> S)) in *.
  destruct Hb as (Ha0 & Ha1 & Ha3 & Hs0 & Hs1 & Hdet & Hdx & Hdy & _).
  { intros ij Hp. apply negb_true_iff in Hp. lia. }
  clearbody a0 a1 a3 s0 s1. clear S.
  assert (H50 : 2 ^ 50 = 1125899906842624) by reflexivity.
  assert (H31 : 2 ^ 31 = 2147483648) by reflexivity.
  rewrite H50. rewrite H31 in Hx, Hy.
  split; [repeat split; lia|].
  split; [lia|]. split; [lia|]. split; [lia|].
  clear Hs0 Hs1 Ha0 Ha1 Ha3.
  generalize dependent (a0 * a3 - a1 * a1). intros D HD.
  generalize dependent (a3 * s0 - a1 * s1). intros DX HDX.
  generalize dependent (- a1 * s0 + a0 * s1). intros DY HDY.
  repeat split; nia.
Qed.

Lemma LINEMOD_long_values_bounded_witness :
  let acc := accumulate (fun u : Z => u) 0 12 (mat_data depth12) 65 1000 in
  let det := det_of acc in
  let dx := dx_of acc in
  let dy := dy_of acc in
  (0 <= A0 acc <= 150 /\ -50 <= A1 acc <= 50 /\ 0 <= A3 acc <= 150
   /\ Z.abs (b0 acc) <= 1500 /\ Z.abs (b1 acc) <= 1500)
  /\ 0 <= det <= 22500
  /\ Z.abs dx <= 225000 /\ Z.abs dy <= 225000
  /\ Z.abs (1000 * det + (5 + 1) * dx) < 2 ^ 50 /\ Z.abs (5 * dx) < 2 ^ 50
  /\ Z.abs (5 * dy) < 2 ^ 50 /\ Z.abs (1000 * det + (5 + 1) * dy) < 2 ^ 50.
Proof.
  apply (LINEMOD_long_values_bounded 0 12 (mat_data depth12) 65 1000 5 5); lia.
Defined.

Lemma long_gradients_degenerate (d_default cols_ : Z) (depth : list Z)
    (p_line d : Z) :
  det_of (accumulate (fun u : Z => u) d_default cols_ depth p_line d) = 0 ->
  dx_of (accumulate (fun u : Z => u) d_default cols_ depth p_line d) = 0
  /\ dy_of (accumulate (fun u : Z => u) d_default cols_ depth p_line d) = 0.
Proof.
  pose proof (sample_sums_bounded
                (fun ij => negb (Z.abs (delta_at (fun u : Z => u) d_default cols_
                                          depth p_line d ij) >? 50))
                (delta_at (fun u : Z => u) d_default cols_ depth p_line d)) as Hb.
  cbv zeta in Hb. rewrite accumulate_long_sums.
  set (S := List.filter _ sample_grid) in *.
  set (a0 := Zsum ((fun ij => ij.1 * ij.1) <$> S)) in *.
  set (a1 := Zsum ((fun ij => ij.1 * ij.2) <$> S)) in *.
  set (a3 := Zsum ((fun ij => ij.2 * ij.2) <$> S)) in *.
  set (s0 := Zsum ((fun ij => ij.1 * delta_at (fun u : Z => u) d_default cols_
                                       depth p_line d ij) <$> S)) in *.
  set (s1 := Zsum ((fun ij => ij.2 * delta_at (fun u : Z => u) d_default cols_
                                       depth p_line d ij) <$> S)) in *.
  destruct Hb as (_ & _ & _ & _ & _ & _ & _ & _ & Hdeg).
  { intros ij Hp. apply negb_true_iff in Hp. lia. }
  clearbody a0 a1 a3 s0 s1. clear S. exact Hdeg.
Qed.

Lemma degenerate_cross (K_inv : Mat33T R) (d x y : Z) :
  cross (multiply_by_K_inv IZR K_inv (d * 0 + (x + 1) * 0) (y * 0) 0)
        (multiply_by_K_inv IZR K_inv (x * 0) (d * 0 + (y + 1) * 0) 0)
  = Vec3 0%R 0%R 0%R.
Proof.
  rewrite !Z.mul_0_r, Z.add_0_l. unfold multiply_by_K_inv, cross.
  cbn [v0 v1 v2 c_ofZ c_add c_sub c_mul f_container Floating_R Container_R].
  f_equal; ring.
Qed.

(** X7.  Where the determinant vanishes.  In
    [computeImpl<unsigned short, long>] a determinant of zero, as at a pixel
    all of whose neighbouring samples are rejected, makes both gradients
    zero, and the vector handed to [signNormal] is the zero vector, whose
    norm is zero: the normal of such a pixel is a quotient by zero. *)
Theorem LINEMOD_degenerate_pixel (d_default : Z) (lm : @LINEMOD R)
    (depth : list Z) (p_line x y : Z) :
  let d := rdZ d_default depth p_line in
  let acc := accumulate (fun u : Z => u) d_default (lm_cols_ lm) depth p_line d in
  let nor := pixel_nor (fun u : Z => u) IZR d_default lm depth p_line x y in
  det_of acc = 0 ->
  dx_of acc = 0 /\ dy_of acc = 0
  /\ nor = Vec3 0%R 0%R 0%R /\ norm_vec nor = 0%R.
Proof.
  cbv zeta. intros Hdet.
  destruct (long_gradients_degenerate _ _ _ _ _ Hdet) as [Hdx Hdy].
  assert (Hnor : pixel_nor (fun u : Z => u) IZR d_default lm depth p_line x y
                 = Vec3 0%R 0%R 0%R).
  { unfold pixel_nor. cbv zeta. rewrite Hdet, Hdx, Hdy. apply degenerate_cross. }
  split; [done|]. split; [done|]. split; [done|].
  rewrite Hnor. apply norm_vec_zero.
Qed.

Lemma LINEMOD_degenerate_pixel_witness :
  let d := rdZ 0 isolated12 65 in
  let acc := accumulate (fun u : Z => u) 0 (lm_cols_ lm12R) isolated12 65 d in
  let nor := pixel_nor (fun u : Z => u) IZR 0 lm12R isolated12 65 5 5 in
  dx_of acc = 0 /\ dy_of acc = 0
  /\ nor = Vec3 0%R 0%R 0%R /\ norm_vec nor = 0%R.
Proof.
  apply (LINEMOD_degenerate_pixel 0 lm12R isolated12 65 5 5).
  vm_compute. reflexivity.
Defined.

(** *** The reads of [computeImpl] *)

Lemma rdZ_inside {A : Type} (d1 d2 : A) (buf : list A) (z : Z) :
  0 <= z -> (Z.to_nat z < length buf)%nat -> rdZ d1 buf z = rdZ d2 buf z.
Proof.
  intros Hz Hl. unfold rdZ, rd.
  destruct (Z.ltb_spec z 0) as [?|_]; [lia|].
  destruct (lookup_lt_is_Some_2 buf _ Hl) as [a ->]. done.
Qed.

Lemma keyed_writes_agree {A K : Type} (key : K -> nat) (val1 val2 : K -> A)
    (l : list K) (buf : list A) :
  (forall a, a ∈ l -> val1 a = val2 a) ->
  keyed_writes key val1 l buf = keyed_writes key val2 l buf.
Proof.
  intros Hv. unfold keyed_writes. apply fold_left_agree.
  intros acc a Ha. by rewrite Hv.
Qed.

(** The offsets of the nine samples. *)
Lemma offsets_inside (cols_ : Z) (i : nat) :
  (i < 9)%nat ->
  exists a b, rd 0 (offsets cols_) i = b * cols_ + a
              /\ -5 <= a <= 5 /\ -5 <= b <= 5.
Proof.
  intros Hi.
  exists (rd (0, 0) sample_grid i).1, (rd (0, 0) sample_grid i).2.
  split.
  - do 9 (destruct i as [|i]; [reflexivity|]). lia.
  - rewrite sample_grid_value.
    do 9 (destruct i as [|i]; [cbn; lia|]). lia.
Qed.

Section LINEMODReads.
Context {D C T : Type} `{Container C} `{Floating T}.
Variable toC : D -> C.
Variable toT : C -> T.

Lemma sample_inside (rows cols x y a b : Z) :
  5 <= x < cols - 6 -> 5 <= y < rows - 6 -> -5 <= a <= 5 -> -5 <= b <= 5 ->
  0 <= y * cols + x + (b * cols + a) < rows * cols.
Proof. intros Hx Hy Ha Hb. nia. Qed.

Lemma accumulate_default (d1 d2 : D) (rows cols : Z) (depth : list D)
    (x y : Z) (d : D) :
  (Z.to_nat (rows * cols) <= length depth)%nat ->
  5 <= x < cols - 6 -> 5 <= y < rows - 6 ->
  accumulate toC d1 cols depth (y * cols + x) d =
  accumulate toC d2 cols depth (y * cols + x) d.
Proof.
  intros Hl Hx Hy. unfold accumulate. apply fold_left_agree.
  intros acc i Hi. apply elem_of_seq in Hi.
  change (Z.to_nat (square_size * square_size)) with 9%nat in Hi.
  destruct (offsets_inside cols i) as (a & b & Ho & Ha & Hb); [lia|].
  unfold accum_step, sample_delta. rewrite Ho.
  pose proof (sample_inside rows cols x y a b Hx Hy Ha Hb) as Hin.
  rewrite (rdZ_inside d1 d2) by lia. done.
Qed.

Lemma pixel_normal_default (d1 d2 : D) (lm : LINEMOD) (depth : list D) (x y : Z) :
  (Z.to_nat (lm_rows_ lm * lm_cols_ lm) <= length depth)%nat ->
  5 <= x < lm_cols_ lm - 6 -> 5 <= y < lm_rows_ lm - 6 ->
  pixel_normal toC toT d1 lm depth (y * lm_cols_ lm + x) x y =
  pixel_normal toC toT d2 lm depth (y * lm_cols_ lm + x) x y.
Proof.
  intros Hl Hx Hy. unfold pixel_normal, pixel_nor.
  assert (Hd : rdZ d1 depth (y * lm_cols_ lm + x) = rdZ d2 depth (y * lm_cols_ lm + x)).
  { apply rdZ_inside; nia. }
  rewrite Hd.
  by rewrite (accumulate_default d1 d2 (lm_rows_ lm) (lm_cols_ lm)).
Qed.

End LINEMODReads.

(** X8.  [computeImpl] reads the depth image only inside its [rows_ x cols_]
    buffer: on a continuous depth image of the size of the estimator, the
    result does not depend on what a read outside the buffer would give. *)
Theorem computeImpl_reads_inside {D C T : Type} `{Container C} `{Floating T}
    (toC : D -> C) (toT : C -> T) (d1 d2 : D)
    (lm : LINEMOD) (depth : Mat_ D) (normals : Mat_ (Vec3T T)) :
  mat_cols depth = lm_cols_ lm ->
  (Z.to_nat (lm_rows_ lm * lm_cols_ lm) <= length (mat_data depth))%nat ->
  computeImpl toC toT d1 lm depth normals = computeImpl toC toT d2 lm depth normals.
Proof.
  intros Hc Hl.
  assert (Hdata : mat_data (computeImpl toC toT d1 lm depth normals)
                = mat_data (computeImpl toC toT d2 lm depth normals)).
  { rewrite !computeImpl_keyed. apply keyed_writes_agree.
    intros [x y] Hxy%elem_of_visited. cbn [fst snd]. rewrite Hc.
    apply pixel_normal_default; [done|lia..]. }
  unfold computeImpl in *. cbn [mat_data] in Hdata. by rewrite Hdata.
Qed.

Lemma computeImpl_reads_inside_witness :
  computeImpl (fun d : Z => d) float_ofZ 0 lm12 depth12 normals12
  = computeImpl (fun d : Z => d) float_ofZ 7 lm12 depth12 normals12.
Proof.
  apply (computeImpl_reads_inside (fun d : Z => d) float_ofZ 0 7 lm12 depth12
           normals12); [reflexivity | cbn; lia].
Defined.

(** *** Images too small for the window *)

Lemma visited_small (rows_ cols_ : Z) :
  rows_ <= 11 \/ cols_ <= 11 -> visited rows_ cols_ = [].
Proof.
  intros Hs. destruct (visited rows_ cols_) as [|[x y] l] eqn:Hv; [done|].
  assert (Hin : (x, y) ∈ visited rows_ cols_) by (rewrite Hv; left).
  apply elem_of_visited in Hin. lia.
Qed.

Lemma computeImpl_small {D C T : Type} `{Container C} `{Floating T}
    (toC : D -> C) (toT : C -> T) (d_default : D)
    (lm : LINEMOD) (depth : Mat_ D) (normals : Mat_ (Vec3T T)) :
  lm_rows_ lm <= 11 \/ lm_cols_ lm <= 11 ->
  computeImpl toC toT d_default lm depth normals = normals.
Proof.
  intros Hs.
  pose proof (computeImpl_keyed toC toT d_default lm depth normals) as Hk.
  rewrite visited_small in Hk by done. cbn in Hk.
  destruct normals as [c data]. unfold computeImpl in *. cbn [mat_data mat_cols] in *.
  by rewrite Hk.
Qed.

(** X9.  [LINEMOD::compute] leaves the normals as it found them when the
    image has fewer than 12 rows or fewer than 12 columns, whatever the depth
    image is, and when the depth image is of a depth other than 16-bit
    unsigned, [float] or [double], whatever its size: the output of such a
    call is what [Mat::create] allocated. *)
Theorem LINEMOD_compute_leaves_normals {T F32 : Type} `{Floating T} `{Container F32}
    (long_to_T : Z -> T) (float_to_T : F32 -> T) (double_to_T : float -> T)
    (float_default : F32)
    (lm : LINEMOD) (depth_in : DepthImage F32) (normals : Mat_ (Vec3T T)) :
  (lm_rows_ lm <= 11 \/ lm_cols_ lm <= 11)
  \/ (exists code, depth_in = DepthOther code) ->
  LINEMOD_compute long_to_T float_to_T double_to_T float_default lm depth_in normals
  = normals.
Proof.
  intros [Hs|[code ->]]; [|done].
  destruct depth_in; cbn [LINEMOD_compute]; try done; by apply computeImpl_small.
Qed.

Lemma LINEMOD_compute_leaves_normals_witness :
  LINEMOD_compute float_ofZ (fun u : float => u) (fun u : float => u) 0%float
    {| lm_rows_ := 11; lm_cols_ := 12; lm_K_ := lm_K_ lm12 |}
    (Depth16U (mkMat_ 12 (replicate 132 1000))) normals12
  = normals12.
Proof.
  apply (LINEMOD_compute_leaves_normals float_ofZ (fun u : float => u)
           (fun u : float => u) 0%float
           {| lm_rows_ := 11; lm_cols_ := 12; lm_K_ := lm_K_ lm12 |}
           (Depth16U (mkMat_ 12 (replicate 132 1000))) normals12).
  left. left. cbn. lia.
Defined.

(** *** Planar patches *)

Section PlanarPatch.
Variables (d_default cols_ : Z) (depth : list Z) (p_line d gx gy : Z).
Hypothesis Hplane : forall i j, (i, j) ∈ sample_grid ->
  rdZ d_default depth (p_line + (j * cols_ + i)) = d + gx * i + gy * j.
Hypothesis Hslope : 5 * (Z.abs gx + Z.abs gy) <= 50.

Lemma planar_centre : rdZ d_default depth p_line = d.
Proof.
  pose proof (Hplane 0 0) as H0. rewrite sample_grid_value in H0.
  replace (p_line + (0 * cols_ + 0)) with p_line in H0 by lia.
  rewrite H0; [lia|]. apply list_elem_of_In. cbn [In]. tauto.
Qed.

Lemma planar_accum_sample (acc : @Accum Z) (i j : Z) :
  (i, j) ∈ sample_grid ->
  accum_sample (fun u : Z => u) d_default cols_ depth p_line d acc (i, j) =
  mkAccum (A0 acc + i * i) (A1 acc + i * j) (A3 acc + j * j)
          (b0 acc + i * (gx * i + gy * j)) (b1 acc + j * (gx * i + gy * j)).
Proof.
  intros Hin. unfold accum_sample, delta_at. cbn [fst snd].
  rewrite (Hplane i j Hin).
  cbn [c_ofZ c_add c_sub c_mul c_abs c_gt Container_long difference_threshold].
  unfold difference_threshold. cbn [c_ofZ Container_long].
  replace (d + gx * i + gy * j - d) with (gx * i + gy * j) by lia.
  assert (Hij : -5 <= i <= 5 /\ -5 <= j <= 5).
  { rewrite sample_grid_value in Hin. apply list_elem_of_In in Hin. cbn [In] in Hin.
    repeat destruct Hin as [Hin|Hin]; try (injection Hin as <- <-; lia); done. }
  destruct (Z.gtb_spec (Z.abs (gx * i + gy * j)) 50) as [Hgt|_]; [nia|done].
Qed.

Lemma planar_fold (l : list (Z * Z)) (acc : @Accum Z) :
  (forall ij, ij ∈ l -> ij ∈ sample_grid) ->
  fold_left (accum_sample (fun u : Z => u) d_default cols_ depth p_line d) l acc =
  mkAccum (A0 acc + Zsum ((fun ij => ij.1 * ij.1) <$> l))
          (A1 acc + Zsum ((fun ij => ij.1 * ij.2) <$> l))
          (A3 acc + Zsum ((fun ij => ij.2 * ij.2) <$> l))
          (b0 acc + Zsum ((fun ij => ij.1 * (gx * ij.1 + gy * ij.2)) <$> l))
          (b1 acc + Zsum ((fun ij => ij.2 * (gx * ij.1 + gy * ij.2)) <$> l)).
Proof.
  revert acc. induction l as [|[i j] l IH]; intros acc Hl.
  - destruct acc. unfold Zsum. cbn. f_equal; lia.
  - cbn [fold_left]. rewrite planar_accum_sample by (apply Hl; left).
    rewrite IH by (intros ij Hij; apply Hl; by right).
    unfold Zsum. cbn [A0 A1 A3 b0 b1 fmap list_fmap foldr fst snd]. f_equal; lia.
Qed.

Lemma planar_accumulate :
  accumulate (fun u : Z => u) d_default cols_ depth p_line d =
  mkAccum 150 0 150 (150 * gx) (150 * gy).
Proof.
  rewrite accumulate_samples, planar_fold by done.
  rewrite sample_grid_value. unfold Zsum.
  cbn [A0 A1 A3 b0 b1 accum_zero fmap list_fmap foldr fst snd c_ofZ Container_long].
  f_equal; lia.
Qed.

End PlanarPatch.

Section AxisNormal.
Local Open Scope R_scope.

Lemma signNormal_z_axis (c : R) : c <> 0 -> signNormal (Vec3 0 0 c) = Vec3 0 0 (-1).
Proof.
  intros Hc.
  assert (Hn : norm_vec (Vec3 0 0 c) = Rabs c).
  { rewrite norm_vec_R. cbn [v0 v1 v2]. unfold sumsq.
    replace (0 * 0 + 0 * 0 + c * c) with (c²) by (unfold Rsqr; ring).
    apply sqrt_Rsqr_abs. }
  destruct (Rlt_le_dec 0 c) as [Hpos|Hneg].
  - rewrite signNormal_pos by (cbn [v2]; lra). rewrite Hn. cbn [v0 v1 v2].
    rewrite Rabs_pos_eq by lra. f_equal; field; lra.
  - rewrite signNormal_nonpos by (cbn [v2]; lra). rewrite Hn. cbn [v0 v1 v2].
    rewrite Rabs_left by lra. f_equal; field; lra.
Qed.

Lemma multiply_by_K_inv_IZR (K_inv : Mat33T R) (a b c : Z) :
  multiply_by_K_inv IZR K_inv a b c =
  multiply_by_K_inv (fun u : R => u) K_inv (IZR a) (IZR b) (IZR c).
Proof. reflexivity. Qed.

Lemma nor_by_division_flat (K : Mat33T R) (x y : Z) (d : R) :
  nor_by_division K x y d 0 0 =
  Vec3 0 0 (d * (1 / m00 K) * (d * (1 / m11 K))).
Proof.
  destruct K as [k00 k01 k02 k10 k11 k12 k20 k21 k22].
  unfold nor_by_division, mat_vec, K_inv_of, cross, vec_scale, vec_sub.
  real_ops.
  generalize (1 / k00) (- k01 / (k00 * k11)) ((k01 * k12 - k02 * k11) / (k00 * k11))
    (1 / k11) (- k12 / k11).
  intros i00 i01 i02 i11 i12. f_equal; ring.
Qed.

End AxisNormal.

(** X10.  LINEMOD on a planar patch.  Where the nine samples of a pixel lie
    on the plane [d + gx i + gy j] of integer slopes with
    [5 (|gx| + |gy|) <= 50], [computeImpl<unsigned short, long>] rejects no
    sample, its determinant is 22500 and its gradients are [22500 gx] and
    [22500 gy]: the slopes are recovered exactly, and the normal is that of
    the formula with the gradient [(gx, gy)].  On a patch of constant nonzero
    depth the normal is [(0, 0, -1)].  The two focal lengths of [K] are not
    zero. *)
Theorem LINEMOD_planar_patch (d_default : Z) (lm : @LINEMOD R) (depth : list Z)
    (p_line x y d gx gy : Z) :
  (forall i j, (i, j) ∈ sample_grid ->
     rdZ d_default depth (p_line + (j * lm_cols_ lm + i)) = d + gx * i + gy * j) ->
  5 * (Z.abs gx + Z.abs gy) <= 50 ->
  m00 (lm_K_ lm) <> 0%R -> m11 (lm_K_ lm) <> 0%R ->
  let acc := accumulate (fun u : Z => u) d_default (lm_cols_ lm) depth p_line
               (rdZ d_default depth p_line) in
  let normal := pixel_normal (fun u : Z => u) IZR d_default lm depth p_line x y in
  acc = mkAccum 150 0 150 (150 * gx) (150 * gy)
  /\ det_of acc = 22500 /\ dx_of acc = 22500 * gx /\ dy_of acc = 22500 * gy
  /\ normal = signNormal (nor_by_division (lm_K_ lm) x y (IZR d) (IZR gx) (IZR gy))
  /\ (gx = 0 -> gy = 0 -> d <> 0 -> normal = (Vec3 0 0 (-1))%R).
Proof.
  intros Hplane Hslope Hfx Hfy acc normal.
  pose proof (planar_centre d_default (lm_cols_ lm) depth p_line d gx gy Hplane) as Hd.
  pose proof (planar_accumulate d_default (lm_cols_ lm) depth p_line d gx gy
                Hplane Hslope) as Hacc.
  assert (Hacc' : acc = mkAccum 150 0 150 (150 * gx) (150 * gy)).
  { unfold acc. by rewrite Hd. }
  assert (Hnormal : normal
            = signNormal (nor_by_division (lm_K_ lm) x y (IZR d) (IZR gx) (IZR gy))).
  { unfold normal, pixel_normal, pixel_nor. rewrite Hd, Hacc.
    unfold det_of, dx_of, dy_of.
    cbn [A0 A1 A3 b0 b1 c_ofZ c_add c_sub c_mul Container_long].
    replace (150 * 150 - 0 * 0) with 22500 by lia.
    replace (150 * (150 * gx) - 0 * (150 * gy)) with (22500 * gx) by lia.
    replace (- 0 * (150 * gx) + 150 * (150 * gy)) with (22500 * gy) by lia.
    rewrite !multiply_by_K_inv_IZR.
    replace (IZR (d * 22500 + (x + 1) * (22500 * gx)))
      with (IZR d * 22500 + IZR (x + 1) * (22500 * IZR gx))%R
      by (rewrite (plus_IZR (d * 22500)), !mult_IZR; reflexivity).
    replace (IZR (d * 22500 + (y + 1) * (22500 * gy)))
      with (IZR d * 22500 + IZR (y + 1) * (22500 * IZR gy))%R
      by (rewrite (plus_IZR (d * 22500)), !mult_IZR; reflexivity).
    rewrite !mult_IZR.
    rewrite (cross_times_det (lm_K_ lm) x y (IZR d) 22500
               (22500 * IZR gx) (22500 * IZR gy)) by lra.
    replace (22500 * IZR gx / 22500)%R with (IZR gx) by (field; lra).
    replace (22500 * IZR gy / 22500)%R with (IZR gy) by (field; lra).
    apply signNormal_scale_pos. lra. }
  split; [exact Hacc'|]. rewrite Hacc'.
  unfold det_of, dx_of, dy_of.
  cbn [A0 A1 A3 b0 b1 c_ofZ c_add c_sub c_mul Container_long].
  split; [lia|]. split; [lia|]. split; [lia|]. split; [exact Hnormal|].
  intros -> -> Hd0. rewrite Hnormal, nor_by_division_flat.
  apply signNormal_z_axis.
  assert (IZR d <> 0)%R by (by apply not_0_IZR).
  assert (1 / m00 (lm_K_ lm) <> 0)%R
    by (unfold Rdiv; rewrite Rmult_1_l; by apply Rinv_neq_0_compat).
  assert (1 / m11 (lm_K_ lm) <> 0)%R
    by (unfold Rdiv; rewrite Rmult_1_l; by apply Rinv_neq_0_compat).
  apply Rmult_integral_contrapositive_currified;
    apply Rmult_integral_contrapositive_currified; assumption.
Qed.

Lemma LINEMOD_planar_patch_witness :
  let acc := accumulate (fun u : Z => u) 0 (lm_cols_ lm12R) tilted12 65
               (rdZ 0 tilted12 65) in
  let normal := pixel_normal (fun u : Z => u) IZR 0 lm12R tilted12 65 5 5 in
  acc = mkAccum 150 0 150 (150 * 2) (150 * 3)
  /\ det_of acc = 22500 /\ dx_of acc = 22500 * 2 /\ dy_of acc = 22500 * 3
  /\ normal = signNormal (nor_by_division (lm_K_ lm12R) 5 5 (IZR 1025) (IZR 2) (IZR 3))
  /\ (2 = 0 -> 3 = 0 -> 1025 <> 0 -> normal = (Vec3 0 0 (-1))%R).
Proof.
  apply (LINEMOD_planar_patch 0 lm12R tilted12 65 5 5 1025 2 3);
    [| lia | cbn; lra | cbn; lra].
  intros i j Hin. rewrite sample_grid_value in Hin.
  apply list_elem_of_In in Hin. cbn [In] in Hin.
  repeat destruct Hin as [Hin|Hin]; try (injection Hin as <- <-; reflexivity); done.
Defined.

(** ** The caches *)

Section AngleFacts.
Local Open Scope R_scope.

Lemma sqrt_sum_squares_pos (x y : R) : x <> 0 -> 0 < sqrt (x * x + y * y).
Proof. intros Hx. apply sqrt_lt_R0. nra. Qed.

Lemma sqrt_one_plus_ratio (x y : R) :
  0 < x -> sqrt (1 + (y / x)²) = sqrt (x * x + y * y) / x.
Proof.
  intros Hx.
  replace (1 + (y / x)²) with ((x * x + y * y) / (x * x))
    by (unfold Rsqr; field; lra).
  rewrite sqrt_div by nra. by rewrite sqrt_square by lra.
Qed.

Lemma sqrt_one_plus_ratio_neg (x y : R) :
  x < 0 -> sqrt (1 + (y / x)²) = sqrt (x * x + y * y) / - x.
Proof.
  intros Hx.
  replace (y / x) with (- y / - x) by (field; lra).
  rewrite sqrt_one_plus_ratio by lra. do 2 f_equal. ring.
Qed.

(** The cosine and the sine of the angle of the point [(x, y)]. *)
Lemma cos_sin_Ratan2 (y x : R) :
  x <> 0 ->
  cos (Ratan2 y x) = x / sqrt (x * x + y * y)
  /\ sin (Ratan2 y x) = y / sqrt (x * x + y * y).
Proof.
  intros Hx. pose proof (sqrt_sum_squares_pos x y Hx) as Hs. unfold Ratan2.
  destruct (Rlt_dec 0 x) as [Hpos|Hnpos].
  - rewrite cos_atan, sin_atan, sqrt_one_plus_ratio by done.
    split; field; lra.
  - destruct (Rlt_dec x 0) as [Hneg|?]; [|lra].
    destruct (Rle_dec 0 y).
    + rewrite neg_cos, neg_sin, cos_atan, sin_atan, sqrt_one_plus_ratio_neg by done.
      split; field; lra.
    + replace (atan (y / x) - PI) with (- (PI - atan (y / x))) by ring.
      rewrite cos_neg, sin_neg, Rtrigo_facts.cos_pi_minus, Rtrigo_facts.sin_pi_minus.
      rewrite cos_atan, sin_atan, sqrt_one_plus_ratio_neg by done.
      split; field; lra.
Qed.

End AngleFacts.

Section FALSCacheFacts.
Context {T : Type} `{Floating T} `{Trig T}.
Local Open Scope scalar_scope.

Lemma FALS_V_lookup (g : ThetaPhi) (k : nat) (ct st cp sp : T) :
  cos_theta g !! k = Some ct -> sin_theta g !! k = Some st ->
  cos_phi g !! k = Some cp -> sin_phi g !! k = Some sp ->
  FALS_V g !! k = Some (Vec3 (st * cp) sp (ct * cp)).
Proof.
  intros Hct Hst Hcp Hsp. unfold FALS_V.
  rewrite !lookup_zip_with, Hst, Hcp, Hsp, Hct. reflexivity.
Qed.

Lemma computeThetaPhi_lengths (rows cols : Z) (K : Mat33T T) :
  let g := computeThetaPhi rows cols K in
  let n := Z.to_nat (rows * cols) in
  length (cos_theta g) = n /\ length (sin_theta g) = n
  /\ length (cos_phi g) = n /\ length (sin_phi g) = n.
Proof.
  cbv zeta. unfold computeThetaPhi. cbn [cos_theta sin_theta cos_phi sin_phi].
  rewrite !length_fmap, length_zip_with. unfold computeRadius.
  rewrite length_fmap. unfold depthTo3d. rewrite length_imap, length_replicate.
  repeat split; lia.
Qed.

Lemma FALS_V_length (rows cols : Z) (K : Mat33T T) :
  length (FALS_V (computeThetaPhi rows cols K)) = Z.to_nat (rows * cols).
Proof.
  destruct (computeThetaPhi_lengths rows cols K) as (H1 & H2 & H3 & H4).
  unfold FALS_V. rewrite !length_zip_with. lia.
Qed.

Variable boxFilter9 : Z -> Z -> Z -> list (Mat33T T) -> list (Mat33T T).
Variable invert : Mat33T T -> Mat33T T.

Lemma FALS_cache_M_inv (rows cols w : Z) (K : Mat33T T) (k : nat) :
  (k < Z.to_nat (rows * cols))%nat ->
  M_inv_ (FALS_cache boxFilter9 invert rows cols w K) !! k =
  Some (invert (rd mat_zero
                  (boxFilter9 rows cols w
                     (FALS_M rows cols (FALS_V (computeThetaPhi rows cols K)))) k)).
Proof.
  intros Hk. unfold FALS_cache. cbn [M_inv_].
  rewrite write_loop_inside; [done|done|by rewrite length_replicate].
Qed.

Lemma FALS_M_lookup (rows cols : Z) (V : list (Vec3T T)) (k : nat) :
  (k < Z.to_nat (rows * cols))%nat ->
  FALS_M rows cols V !! k = Some (VVt_of (rd vec_zero V k)).
Proof.
  intros Hk. unfold FALS_M.
  rewrite write_loop_inside; [done|done|by rewrite length_replicate].
Qed.

End FALSCacheFacts.

Section DirectionFacts.
Local Open Scope R_scope.

Lemma unit_of_angles (theta phi : R) :
  norm_vec (Vec3 (sin theta * cos phi) (sin phi) (cos theta * cos phi)) = 1.
Proof.
  rewrite norm_vec_R. cbn [v0 v1 v2]. unfold sumsq.
  pose proof (sin2_cos2 theta) as Ht. pose proof (sin2_cos2 phi) as Hp.
  unfold Rsqr in *.
  replace (sin theta * cos phi * (sin theta * cos phi) + sin phi * sin phi
           + cos theta * cos phi * (cos theta * cos phi))
    with ((sin theta * sin theta + cos theta * cos theta) * (cos phi * cos phi)
          + sin phi * sin phi) by ring.
  rewrite Ht, Rmult_1_l, Rplus_comm, Hp. apply sqrt_1.
Qed.

(** The direction of a point whose depth is not zero, from its angles. *)
Lemma direction_of_angles (X Y Z : R) :
  Z <> 0 ->
  let r := sqrt (X * X + Y * Y + Z * Z) in
  let theta := Ratan2 X Z in
  let phi := asin (Y / r) in
  Vec3 (sin theta * cos phi) (sin phi) (cos theta * cos phi)
  = Vec3 (X / r) (Y / r) (Z / r).
Proof.
  intros HZ r theta phi.
  assert (Hr : 0 < r) by (apply sqrt_lt_R0; nra).
  assert (Hrr : r * r = X * X + Y * Y + Z * Z) by (apply sqrt_sqrt; nra).
  pose proof (sqrt_sum_squares_pos Z X HZ) as Hh.
  set (h := sqrt (Z * Z + X * X)) in *.
  assert (Hhh : h * h = Z * Z + X * X) by (apply sqrt_sqrt; nra).
  destruct (cos_sin_Ratan2 X Z HZ) as [Hc Hs]. fold theta h in Hc, Hs.
  assert (Hq : -1 <= Y / r <= 1).
  { assert (- r <= Y <= r) by (split; nra).
    split; [apply Rmult_le_reg_r with r | apply Rmult_le_reg_r with r];
      try lra; unfold Rdiv; rewrite Rmult_assoc, Rinv_l by lra; lra. }
  assert (Hsp : sin phi = Y / r) by (by apply sin_asin).
  assert (Hcp : cos phi = h / r).
  { unfold phi. rewrite cos_asin by done.
    replace (1 - (Y / r)²) with ((h * h) / (r * r))
      by (unfold Rsqr; rewrite Hhh; field_simplify_eq; [nra | lra]).
    rewrite sqrt_div by nra. by rewrite !sqrt_square by lra. }
  rewrite Hs, Hc, Hsp, Hcp. f_equal; field; lra.
Qed.

End DirectionFacts.

Lemma FALS_cache_V_lookup
    (boxFilter9 : Z -> Z -> Z -> list (Mat33T R) -> list (Mat33T R))
    (invert : Mat33T R -> Mat33T R) (rows cols w : Z) (K : Mat33T R) (x y : Z) :
  0 <= x < cols -> 0 <= y < rows ->
  let P := backproject K x y (m00 K) in
  let theta := Ratan2 (v0 P) (v2 P) in
  let phi := asin (v1 P / norm_vec P) in
  V_ (FALS_cache boxFilter9 invert rows cols w K) !! Z.to_nat (y * cols + x)
  = Some (Vec3 (sin theta * cos phi) (sin phi) (cos theta * cos phi))%R.
Proof.
  intros Hx Hy P theta phi.
  destruct (computeThetaPhi_lookup rows cols K x y Hx Hy) as (Hct & Hst & Hcp & Hsp).
  unfold FALS_cache. cbn [V_].
  exact (FALS_V_lookup _ _ _ _ _ _ Hct Hst Hcp Hsp).
Qed.

(** X11.  The cache of FALS.  [FALS::cache] fills [V_] and [M_inv_] with one
    entry for every pixel of the [rows x cols] grid.  Over exact arithmetic
    and for a [K] whose focal lengths are not zero, the vector of [V_] at a
    pixel is the direction [P / |P|] of the point [P] that the camera sees
    at that pixel, and it is a unit vector. *)
Theorem FALS_cache_directions
    (boxFilter9 : Z -> Z -> Z -> list (Mat33T R) -> list (Mat33T R))
    (invert : Mat33T R -> Mat33T R) (rows cols w : Z) (K : Mat33T R) (x y : Z) :
  0 <= x < cols -> 0 <= y < rows ->
  m00 K <> 0%R -> m11 K <> 0%R ->
  let f := FALS_cache boxFilter9 invert rows cols w K in
  let k := Z.to_nat (y * cols + x) in
  let P := backproject K x y (m00 K) in
  (length (V_ f) = Z.to_nat (rows * cols)
   /\ length (M_inv_ f) = Z.to_nat (rows * cols))
  /\ V_ f !! k = Some (vec_div P (norm_vec P))
  /\ norm_vec (vec_div P (norm_vec P)) = 1%R.
Proof.
  intros Hx Hy HK _ f k P.
  pose proof (FALS_cache_V_lookup boxFilter9 invert rows cols w K x y Hx Hy) as HV.
  cbv zeta in HV. fold f k P in HV.
  assert (Hdir : (Vec3 (sin (Ratan2 (v0 P) (v2 P)) * cos (asin (v1 P / norm_vec P)))
                       (sin (asin (v1 P / norm_vec P)))
                       (cos (Ratan2 (v0 P) (v2 P)) * cos (asin (v1 P / norm_vec P))))%R
                 = vec_div P (norm_vec P)).
  { pose proof (direction_of_angles (v0 P) (v1 P) (v2 P)) as Hd.
    cbv zeta in Hd. rewrite vec_div_R, norm_vec_R. unfold sumsq.
    rewrite Hd; [done|].
    unfold P, backproject. cbn [v2]. done. }
  split; [split|split].
  - apply FALS_V_length.
  - unfold f, FALS_cache. cbn [M_inv_].
    by rewrite write_loop_length, length_replicate.
  - by rewrite HV, Hdir.
  - rewrite <- Hdir. apply unit_of_angles.
Qed.

Lemma FALS_cache_directions_witness :
  let K := (Mat33 525 0 320 0 525 240 0 0 1)%R in
  let f := FALS_cache (fun _ _ _ M => M) (fun M => M) 480 640 5 K in
  let k := Z.to_nat (240 * 640 + 320) in
  let P := backproject K 320 240 (m00 K) in
  (length (V_ f) = Z.to_nat (480 * 640)
   /\ length (M_inv_ f) = Z.to_nat (480 * 640))
  /\ V_ f !! k = Some (vec_div P (norm_vec P))
  /\ norm_vec (vec_div P (norm_vec P)) = 1%R.
Proof.
  apply (FALS_cache_directions (fun _ _ _ M => M) (fun M => M) 480 640 5
           (Mat33 525 0 320 0 525 240 0 0 1)%R 320 240);
    [lia | lia | cbn; lra | cbn; lra].
Defined.

Section RankOne.
Local Open Scope R_scope.

Lemma VVt_of_mat_vec (v w : Vec3T R) :
  mat_vec (VVt_of v) w = vec_scale (v0 v * v0 w + v1 v * v1 w + v2 v * v2 w) v.
Proof.
  destruct v, w. unfold mat_vec, VVt_of, vec_scale. real_ops. f_equal; ring.
Qed.

Lemma orthogonal_exists (v : Vec3T R) :
  exists w : Vec3T R, w <> Vec3 0 0 0 /\ v0 v * v0 w + v1 v * v1 w + v2 v * v2 w = 0.
Proof.
  destruct v as [a b c]. cbn [v0 v1 v2].
  destruct (Req_dec a 0) as [->|Ha].
  - exists (Vec3 1 0 0). cbn [v0 v1 v2]. split; [intros [=]; lra | ring].
  - exists (Vec3 b (- a) 0). cbn [v0 v1 v2]. split; [intros [=]; lra | ring].
Qed.

End RankOne.

(** X12.  FALS with a window of one pixel.  When the box filter of size 1 x 1
    returns its input, the matrix that [FALS::cache] hands to [cv::invert]
    at a pixel is [V V^t] for the vector [V] of that pixel: it maps every
    [w] to [(V . w) V], so it sends some nonzero vector to zero and has no
    inverse.  The arithmetic is exact and the focal lengths of [K] are not
    zero. *)
Theorem FALS_window_one_singular
    (boxFilter9 : Z -> Z -> Z -> list (Mat33T R) -> list (Mat33T R))
    (invert : Mat33T R -> Mat33T R) (rows cols : Z) (K : Mat33T R) (x y : Z) :
  (forall M, boxFilter9 rows cols 1 M = M) ->
  0 <= x < cols -> 0 <= y < rows ->
  m00 K <> 0%R -> m11 K <> 0%R ->
  let f := FALS_cache boxFilter9 invert rows cols 1 K in
  let k := Z.to_nat (y * cols + x) in
  exists v : Vec3T R,
    V_ f !! k = Some v
    /\ M_inv_ f !! k = Some (invert (VVt_of v))
    /\ (forall w, mat_vec (VVt_of v) w
                  = vec_scale (v0 v * v0 w + v1 v * v1 w + v2 v * v2 w)%R v)
    /\ (exists w, w <> Vec3 0%R 0%R 0%R /\ mat_vec (VVt_of v) w = Vec3 0%R 0%R 0%R).
Proof.
  intros Hbox Hx Hy _ _ f k.
  assert (Hk : (k < Z.to_nat (rows * cols))%nat) by (unfold k; nia).
  pose proof (FALS_cache_V_lookup boxFilter9 invert rows cols 1 K x y Hx Hy) as HV.
  cbv zeta in HV. fold f k in HV.
  eexists. split; [exact HV|]. split; [|split].
  - unfold f. rewrite FALS_cache_M_inv by done. rewrite Hbox.
    unfold rd at 1. rewrite FALS_M_lookup by done. cbn [default].
    unfold f, FALS_cache in HV. cbn [V_] in HV. unfold rd. by rewrite HV.
  - apply VVt_of_mat_vec.
  - match goal with
    | |- context [VVt_of ?v] => destruct (orthogonal_exists v) as (w & Hw & Ho)
    end.
    exists w. split; [done|]. rewrite VVt_of_mat_vec, Ho.
    unfold vec_scale. f_equal; ring.
Qed.

Lemma FALS_window_one_singular_witness :
  let K := (Mat33 525 0 320 0 525 240 0 0 1)%R in
  let f := FALS_cache (fun _ _ _ M => M) (fun M => M) 480 640 1 K in
  let k := Z.to_nat (240 * 640 + 320) in
  exists v : Vec3T R,
    V_ f !! k = Some v
    /\ M_inv_ f !! k = Some (VVt_of v)
    /\ (forall w, mat_vec (VVt_of v) w
                  = vec_scale (v0 v * v0 w + v1 v * v1 w + v2 v * v2 w)%R v)
    /\ (exists w, w <> Vec3 0%R 0%R 0%R /\ mat_vec (VVt_of v) w = Vec3 0%R 0%R 0%R).
Proof.
  apply (FALS_window_one_singular (fun _ _ _ M => M) (fun M => M) 480 640
           (Mat33 525 0 320 0 525 240 0 0 1)%R 320 240);
    [reflexivity | lia | lia | cbn; lra | cbn; lra].
Defined.

(** *** The angular grid of SRI *)

Lemma bind_lookup_rows {A B : Type} (f : A -> list B) (c : nat) (l : list A)
    (i j : nat) :
  (forall a, length (f a) = c) -> (j < c)%nat ->
  (l ≫= f) !! (i * c + j)%nat = l !! i ≫= fun a => f a !! j.
Proof.
  intros Hf Hj. revert i. induction l as [|a l IH]; intros i; [done|].
  cbn [mbind list_bind]. destruct i as [|i].
  - cbn. rewrite lookup_app_l by (rewrite Hf; lia). done.
  - rewrite lookup_app_r by (rewrite Hf; nia).
    rewrite Hf. replace (S i * c + j - c)%nat with (i * c + j)%nat by nia.
    apply IH.
Qed.

Lemma bind_singleton_length {A B : Type} (g : A -> B) (l : list A) :
  length (l ≫= fun x => [g x]) = length l.
Proof. induction l as [|x l IH]; [done|]. cbn. by rewrite IH. Qed.

Lemma bind_fixed_length {A B : Type} (f : A -> list B) (c : nat) (l : list A) :
  (forall a, length (f a) = c) -> length (l ≫= f) = (length l * c)%nat.
Proof.
  intros Hf. induction l as [|x l IH]; [done|].
  cbn. rewrite length_app, Hf, IH. lia.
Qed.

Section SRICacheFacts.
Context {T : Type} `{Floating T} `{Trig T}.
Local Open Scope scalar_scope.

Lemma SRI_R_hat_grid_lookup (rows_ cols_ : Z) (a : AngleRange) (x y : Z) :
  (0 <= x < cols_)%Z -> (0 <= y < rows_)%Z ->
  SRI_R_hat_grid rows_ cols_ a !! Z.to_nat (y * cols_ + x)
  = Some (SRI_R_hat (SRI_theta a x) (SRI_phi a y)).
Proof.
  intros Hx Hy. unfold SRI_R_hat_grid.
  replace (Z.to_nat (y * cols_ + x))
    with (Z.to_nat y * Z.to_nat cols_ + Z.to_nat x)%nat by nia.
  rewrite (bind_lookup_rows _ (Z.to_nat cols_)).
  - rewrite (lookup_seqZ_lt 0 rows_ (Z.to_nat y)) by lia. cbn [mbind option_bind].
    replace (Z.to_nat x) with (Z.to_nat x * 1 + 0)%nat at 1 by lia.
    rewrite (bind_lookup_rows _ 1) by (done || lia).
    rewrite (lookup_seqZ_lt 0 cols_ (Z.to_nat x)) by lia. cbn.
    do 3 f_equal; lia.
  - intros y'. by rewrite bind_singleton_length, length_seqZ.
  - lia.
Qed.

Lemma SRI_R_hat_grid_length (rows_ cols_ : Z) (a : AngleRange) :
  (0 <= rows_)%Z -> (0 <= cols_)%Z ->
  length (SRI_R_hat_grid rows_ cols_ a) = Z.to_nat (rows_ * cols_).
Proof.
  intros Hr Hc. unfold SRI_R_hat_grid.
  rewrite (bind_fixed_length _ (Z.to_nat cols_)), length_seqZ.
  - nia.
  - intros y'. by rewrite bind_singleton_length, length_seqZ.
Qed.

Lemma Mat_at_inside (cols : Z) (data : list T) (row col : Z) :
  (0 <= row * cols + col)%Z ->
  (Z.to_nat (row * cols + col) < length data)%nat ->
  exists v, Mat_at cols data row col = Done v
            /\ data !! Z.to_nat (row * cols + col) = Some v.
Proof.
  intros Hk Hl. unfold Mat_at, vector_at.
  destruct (Z.ltb_spec (row * cols + col) 0) as [?|_]; [lia|].
  destruct (lookup_lt_is_Some_2 data _ Hl) as [v Hv]. rewrite Hv. by exists v.
Qed.

Lemma Mat_at_before (cols : Z) (data : list T) (row col : Z) :
  (row * cols + col < 0)%Z -> Mat_at cols data row col = Undefined.
Proof.
  intros Hk. unfold Mat_at.
  by destruct (Z.ltb_spec (row * cols + col) 0) as [_|?]; [|lia].
Qed.

End SRICacheFacts.

(** X13.  The angular range of SRI.  [SRI::cache] reads [sin_phi] at column
    [cols_/2 - 1].  For an image of one column this is column [-1] of the
    first row, before the buffer, and the cache is not built; for two columns
    or more all four reads are inside the grids and [R_hat_] gets one matrix
    for every pixel.  For an image of one row [min_phi] and [max_phi] are the
    same entry, and [phi_step_] is the quotient of their difference by
    [rows_ - 1 = 0]. *)
Theorem SRI_cache_one_column {T : Type} `{Floating T} `{Trig T}
    (rows cols : Z) (K : Mat33T T) :
  1 <= rows -> 1 <= cols ->
  (cols = 1 -> SRI_cache_R_hat rows cols K = Undefined)
  /\ (2 <= cols ->
      exists a,
        SRI_cache_R_hat rows cols K = Done (a, SRI_R_hat_grid rows cols a)
        /\ length (SRI_R_hat_grid rows cols a) = Z.to_nat (rows * cols)
        /\ (rows = 1 ->
            max_phi a = min_phi a
            /\ phi_step_ a
               = (t_float (t_float (min_phi a - min_phi a) / t_float 0))%S)).
Proof.
  intros Hr Hc.
  destruct (computeThetaPhi_lengths rows cols K) as (_ & Hst & _ & Hsp).
  unfold SRI_cache_R_hat, SRI_angle_range.
  destruct (Mat_at_inside cols (sin_theta (computeThetaPhi rows cols K)) 0 0)
    as (s_min & -> & _); [lia | rewrite Hst; nia |].
  destruct (Mat_at_inside cols (sin_theta (computeThetaPhi rows cols K)) 0 (cols - 1))
    as (s_max & -> & _); [lia | rewrite Hst; nia |].
  cbn [mbind outcome_bind]. split.
  - intros ->. rewrite (Mat_at_before 1 _ 0) by reflexivity. done.
  - intros Hc2.
    assert (Hq : 0 <= Z.quot cols 2 - 1 < cols).
    { pose proof (Z.quot_div_nonneg cols 2).
      assert (1 <= cols / 2) by (apply Z.div_le_lower_bound; lia).
      assert (cols / 2 <= cols) by (apply Z.div_le_upper_bound; lia). lia. }
    destruct (Mat_at_inside cols (sin_phi (computeThetaPhi rows cols K)) 0
                (Z.quot cols 2 - 1)) as (p_min & -> & Hpmin);
      [lia | rewrite Hsp; nia |].
    destruct (Mat_at_inside cols (sin_phi (computeThetaPhi rows cols K)) (rows - 1)
                (Z.quot cols 2 - 1)) as (p_max & -> & Hpmax);
      [nia | rewrite Hsp; nia |].
    cbn [mbind outcome_bind]. eexists. split; [reflexivity|].
    split; [apply SRI_R_hat_grid_length; lia|].
    intros ->. cbn [max_phi min_phi phi_step_].
    change (1 - 1) with 0 in Hpmax.
    rewrite Hpmin in Hpmax. injection Hpmax as ->. done.
Qed.

Lemma SRI_cache_one_column_witness :
  let K := (Mat33 525 0 320 0 525 240 0 0 1)%R in
  (1 = 1 -> SRI_cache_R_hat 1 1 K = Undefined)
  /\ (2 <= 1 ->
      exists a,
        SRI_cache_R_hat 1 1 K = Done (a, SRI_R_hat_grid 1 1 a)
        /\ length (SRI_R_hat_grid 1 1 a) = Z.to_nat (1 * 1)
        /\ (1 = 1 ->
            max_phi a = min_phi a
            /\ phi_step_ a
               = (t_float (t_float (min_phi a - min_phi a) / t_float 0))%S)).
Proof.
  apply (@SRI_cache_one_column R Floating_R Trig_R 1 1
           (Mat33 525 0 320 0 525 240 0 0 1)%R); lia.
Defined.

Section RHatFacts.
Local Open Scope R_scope.

Lemma SRI_R_hat_entries (theta phi : R) :
  cos phi <> 0 ->
  SRI_R_hat theta phi =
  Mat33 (- (sin theta * cos phi)) (cos theta / cos phi) (- (sin theta * sin phi))
        (- sin phi) 0 (cos phi)
        (- (cos theta * cos phi)) (- sin theta / cos phi) (- (cos theta * sin phi)).
Proof.
  intros Hc. unfold SRI_R_hat, mat_mul. real_ops.
  cbn [t_cos t_sin t_float Trig_R]. f_equal; field; done.
Qed.

End RHatFacts.

(** X14.  The matrices of SRI.  Over exact arithmetic, for a cell whose
    [cos(phi)] and whose radius [r] are not zero, the matrix that
    [SRI::cache] stores has the entry [R(1,1) = 0], and its first column is
    minus the unit vector of the angles [theta] and [phi].  So the three
    sums that [SRI::compute] hands to [signNormal], which leave the term of
    [R(1,1)] out, are the product [R (1, r_theta / r, r_phi / r)], and where
    the two derivatives of the radius are zero the normal of the cell is
    minus the viewing direction, provided it faces the camera. *)
Theorem SRI_cell_is_matrix_product {MapTable : Type} (rows cols : Z)
    (a : @AngleRange R) (s : @SRI R MapTable) (r r_theta r_phi : list R)
    (x y : Z) :
  R_hat_ s = SRI_R_hat_grid rows cols a ->
  0 <= x < cols -> 0 <= y < rows ->
  let theta := SRI_theta a x in
  let phi := SRI_phi a y in
  cos phi <> 0%R ->
  let i := Z.to_nat (y * cols + x) in
  rd 0%R r i <> 0%R ->
  let Rm := SRI_R_hat theta phi in
  let dt := (rd 0 r_theta i / rd 0 r i)%R in
  let dp := (rd 0 r_phi i / rd 0 r i)%R in
  (m11 Rm = 0%R
   /\ Vec3 (m00 Rm) (m10 Rm) (m20 Rm)
      = Vec3 (- (sin theta * cos phi))%R (- sin phi)%R (- (cos theta * cos phi))%R)
  /\ SRI_cell s r r_theta r_phi i = signNormal (mat_vec Rm (Vec3 1%R dt dp))
  /\ (dt = 0%R -> dp = 0%R -> (0 <= cos theta * cos phi)%R ->
      SRI_cell s r r_theta r_phi i
      = Vec3 (- (sin theta * cos phi))%R (- sin phi)%R (- (cos theta * cos phi))%R).
Proof.
  intros HR Hx Hy theta phi Hc i _ Rm dt dp.
  assert (HRm : Rm = (Mat33 (- (sin theta * cos phi)) (cos theta / cos phi)
                        (- (sin theta * sin phi)) (- sin phi) 0 (cos phi)
                        (- (cos theta * cos phi)) (- sin theta / cos phi)
                        (- (cos theta * sin phi)))%R)
    by (by apply SRI_R_hat_entries).
  assert (Hcell : SRI_cell s r r_theta r_phi i
                  = signNormal (mat_vec Rm (Vec3 1%R dt dp))).
  { assert (HRi : rd mat_zero (R_hat_ s) i = Rm).
    { apply rd_lookup. rewrite HR. by apply SRI_R_hat_grid_lookup. }
    unfold SRI_cell. cbn [f_isNaN Floating_R]. rewrite HRi.
    rewrite signNormal3_signNormal. f_equal.
    rewrite HRm. unfold mat_vec. real_ops. fold dt dp. f_equal; ring. }
  split; [|split].
  - rewrite HRm. cbn [m00 m10 m20 m11]. done.
  - exact Hcell.
  - intros Hdt Hdp Hface. rewrite Hcell, Hdt, Hdp, HRm.
    unfold mat_vec. real_ops.
    replace (- (sin theta * cos phi) * 1 + cos theta / cos phi * 0
             + - (sin theta * sin phi) * 0)%R with (- (sin theta * cos phi))%R by ring.
    replace (- sin phi * 1 + 0 * 0 + cos phi * 0)%R with (- sin phi)%R by ring.
    replace (- (cos theta * cos phi) * 1 + - sin theta / cos phi * 0
             + - (cos theta * sin phi) * 0)%R with (- (cos theta * cos phi))%R by ring.
    apply signNormal_fixed; [|cbn [v2]; lra].
    pose proof (unit_of_angles theta phi) as Hu.
    rewrite norm_vec_R in *. cbn [v0 v1 v2] in *. unfold sumsq in *.
    rewrite <- Hu. f_equal. ring.
Qed.

Lemma SRI_cell_is_matrix_product_witness :
  let theta := SRI_theta angles0 0 in
  let phi := SRI_phi angles0 0 in
  let i := Z.to_nat (0 * 1 + 0) in
  let Rm := SRI_R_hat theta phi in
  let dt := (rd 0 [0] i / rd 0 [2] i)%R in
  let dp := (rd 0 [0] i / rd 0 [2] i)%R in
  (m11 Rm = 0%R
   /\ Vec3 (m00 Rm) (m10 Rm) (m20 Rm)
      = Vec3 (- (sin theta * cos phi))%R (- sin phi)%R (- (cos theta * cos phi))%R)
  /\ SRI_cell sri_cached [2%R] [0%R] [0%R] i = signNormal (mat_vec Rm (Vec3 1%R dt dp))
  /\ (dt = 0%R -> dp = 0%R -> (0 <= cos theta * cos phi)%R ->
      SRI_cell sri_cached [2%R] [0%R] [0%R] i
      = Vec3 (- (sin theta * cos phi))%R (- sin phi)%R (- (cos theta * cos phi))%R).
Proof.
  apply (SRI_cell_is_matrix_product 1 1 angles0 sri_cached [2%R] [0%R] [0%R] 0 0);
    [reflexivity | lia | lia | | change (2 <> 0)%R; lra].
  unfold SRI_phi, angles0. cbn [min_phi phi_step_ t_float Trig_R c_ofZ c_add c_mul
                                f_container Floating_R Container_R].
  rewrite Rmult_0_l, Rplus_0_l, cos_0. lra.
Defined.

(** ** Further properties of the dispatcher *)

Lemma filter_length_zero {A : Type} (p : A -> bool) (l : list A) :
  length (List.filter p l) = 0%nat <-> forall x, x ∈ l -> p x = false.
Proof.
  induction l as [|a l IH]; cbn [List.filter].
  - split; [intros _ x Hx; by apply elem_of_nil in Hx | done].
  - destruct (p a) eqn:Hp; cbn [length].
    + split; [done|]. intros Hall. rewrite Hall in Hp by left. done.
    + rewrite IH. split.
      * intros Hall x [->|Hx]%elem_of_cons; [done | by apply Hall].
      * intros Hall x Hx. apply Hall. by right.
Qed.

Lemma zip_diag {A : Type} (l : list A) : zip l l = (fun x => (x, x)) <$> l.
Proof. induction l as [|a l IH]; [done|]. cbn. by rewrite IH. Qed.

(** A matrix differs from itself exactly in its NaN elements. *)
Lemma countNonZero_ne_self (K : Mat) :
  countNonZero_ne K K = 0%nat <->
  forall v, v ∈ concat (m_data K) -> PrimFloat.is_nan v = false.
Proof.
  unfold countNonZero_ne. rewrite filter_length_zero, zip_diag. split.
  - intros Hall v Hv. apply (Hall (v, v)).
    apply list_elem_of_fmap. by exists v.
  - intros Hall [v1 v2] (v & [= -> ->] & Hv)%list_elem_of_fmap. by apply Hall.
Qed.

(** What a call of [initialize_normals_impl] that returns leaves behind. *)
Lemma initialize_normals_impl_done (convertTo : Mat -> Z -> Mat)
    (FALS_SRI_cache : Estimator -> outcome unit) (n n' : RgbdNormals)
    (rows cols depth : Z) (K : Mat) (window_size method : Z) :
  initialize_normals_impl convertTo FALS_SRI_cache n rows cols depth K
    window_size method = Done n' ->
  0 < cols
  /\ exists est,
       n' = mkRgbdNormals (rows_ n) (cols_ n) (depth_ n) (K_ n) (window_size_ n)
              (method_ n) (Some est)
       /\ est_base est
          = RgbdNormalsImpl_new convertTo rows cols window_size depth K method
       /\ delete_normals_impl (Some est) method depth = Some (est_class est)
       /\ Estimator_cache FALS_SRI_cache est = Done tt.
Proof.
  unfold initialize_normals_impl.
  repeat assert_pass ltac:(discriminate).
  assert (0 < cols) by (reflect_tests; lia).
  unfold delete_normals_impl.
  destruct (Z.eqb_spec method RGBD_NORMALS_METHOD_FALS) as [->|?];
    [|destruct (Z.eqb_spec method RGBD_NORMALS_METHOD_LINEMOD) as [->|?];
      [|destruct (Z.eqb_spec method RGBD_NORMALS_METHOD_SRI) as [->|?];
        [|exfalso; unfold_codes; reflect_tests; lia]]];
    destruct (depth =? CV_32F);
    match goal with
    | |- context [Estimator_cache ?c ?e] =>
        destruct (Estimator_cache c e) eqn:Hcache
    end;
    cbn [mbind outcome_bind]; try discriminate;
    intros [= <-]; (split; [done|]);
    (eexists; split; [reflexivity|]); repeat split; try reflexivity;
    match goal with
    | H : Estimator_cache _ _ = Done ?u |- _ => by destruct u
    end.
Qed.

(** What the first [initialize] of an object leaves behind. *)
Lemma initialize_fresh (convertTo : Mat -> Z -> Mat)
    (FALS_SRI_cache : Estimator -> outcome unit) (n n' : RgbdNormals) :
  rgbd_normals_impl_ n = None -> initialize convertTo FALS_SRI_cache n = Done n' ->
  0 < cols_ n
  /\ exists est,
       n' = mkRgbdNormals (rows_ n) (cols_ n) (depth_ n) (K_ n) (window_size_ n)
              (method_ n) (Some est)
       /\ est_base est = RgbdNormalsImpl_new convertTo (rows_ n) (cols_ n)
                           (window_size_ n) (depth_ n) (K_ n) (method_ n)
       /\ delete_normals_impl (Some est) (method_ n) (depth_ n)
          = Some (est_class est).
Proof.
  intros Hnone. unfold initialize. rewrite Hnone. intros Hinit.
  apply initialize_normals_impl_done in Hinit
    as (Hcols & est & -> & Hbase & Hdel & _).
  split; [done|]. by exists est.
Qed.

(** X15.  When the cache survives.  An estimator that [initialize] has just
    built passes [validate] against the unchanged fields of its object, and
    so is kept by the next call, exactly when no element of [K] is NaN: the
    comparison [K_ori != K_ori_] counts a NaN as a difference, so with a NaN
    in [K] every call of [initialize] builds the estimator and its cache
    again. *)
Theorem fresh_estimator_validates_iff (convertTo : Mat -> Z -> Mat)
    (FALS_SRI_cache : Estimator -> outcome unit)
    (n n' : RgbdNormals) :
  rgbd_normals_impl_ n = None -> initialize convertTo FALS_SRI_cache n = Done n' ->
  exists est,
    rgbd_normals_impl_ n' = Some est
    /\ (validate (est_base est) (rows_ n') (cols_ n') (depth_ n') (K_ n')
          (window_size_ n') (method_ n') = true
        <-> forall v, v ∈ concat (m_data (K_ n')) -> PrimFloat.is_nan v = false).
Proof.
  intros Hnone Hinit.
  destruct (initialize_fresh convertTo FALS_SRI_cache n n' Hnone Hinit)
    as (Hcols & est & -> & Hbase & _).
  exists est. split; [done|].
  cbn [rows_ cols_ depth_ K_ window_size_ method_]. rewrite Hbase.
  rewrite <- countNonZero_ne_self.
  unfold validate, RgbdNormalsImpl_new.
  cbn [impl_rows_ impl_cols_ impl_depth_ impl_K_ori_ impl_window_size_ impl_method_].
  rewrite !Z.eqb_refl. cbn [negb orb andb].
  destruct (Z.eqb_spec (cols_ n) 0) as [?|_]; [lia|]. cbn [negb andb].
  rewrite andb_true_r.
  destruct (countNonZero_ne (K_ n) (K_ n)) as [|c]; cbn; split; done.
Qed.

Lemma fresh_estimator_validates_iff_witness :
  let n := mkRgbdNormals 480 640 CV_32F (K_example CV_64F) 5
             RGBD_NORMALS_METHOD_FALS None in
  let n' := mkRgbdNormals 480 640 CV_32F (K_example CV_64F) 5
              RGBD_NORMALS_METHOD_FALS
              (Some (mkEstimator FALS_float
                       (RgbdNormalsImpl_new convertTo_exact 480 640 5 CV_32F
                          (K_example CV_64F) RGBD_NORMALS_METHOD_FALS))) in
  exists est,
    rgbd_normals_impl_ n' = Some est
    /\ (validate (est_base est) (rows_ n') (cols_ n') (depth_ n') (K_ n')
          (window_size_ n') (method_ n') = true
        <-> forall v, v ∈ concat (m_data (K_ n')) -> PrimFloat.is_nan v = false).
Proof.
  apply (fresh_estimator_validates_iff convertTo_exact cache_completes
           (mkRgbdNormals 480 640 CV_32F (K_example CV_64F) 5
              RGBD_NORMALS_METHOD_FALS None));
    [reflexivity | vm_compute; reflexivity].
Defined.

(** X16.  Which class is deleted.  [delete_normals_impl] chooses the class
    it casts the pointer to from the method and the precision it is given.
    For an estimator that [initialize] has just built, the destructor casts
    to the class the estimator was built as.  After a change of the method,
    [validate] refuses the estimator, and the deletion that [initialize] and
    the destructor then request goes through the class of the new method,
    which is not the class of the object. *)
Theorem delete_normals_impl_class (convertTo : Mat -> Z -> Mat)
    (FALS_SRI_cache : Estimator -> outcome unit)
    (n n' : RgbdNormals) (method' : Z) :
  rgbd_normals_impl_ n = None -> initialize convertTo FALS_SRI_cache n = Done n' ->
  method' = RGBD_NORMALS_METHOD_FALS \/ method' = RGBD_NORMALS_METHOD_LINEMOD
    \/ method' = RGBD_NORMALS_METHOD_SRI ->
  method' <> method_ n' ->
  exists est,
    rgbd_normals_impl_ n' = Some est
    /\ RgbdNormals_destroy n' = Some (est_class est)
    /\ let changed := mkRgbdNormals (rows_ n') (cols_ n') (depth_ n') (K_ n')
                        (window_size_ n') method' (Some est) in
       validate (est_base est) (rows_ changed) (cols_ changed) (depth_ changed)
         (K_ changed) (window_size_ changed) (method_ changed) = false
       /\ (exists c, RgbdNormals_destroy changed = Some c /\ c <> est_class est).
Proof.
  intros Hnone Hinit Hm Hne.
  destruct (initialize_fresh convertTo FALS_SRI_cache n n' Hnone Hinit)
    as (Hcols & est & -> & Hbase & Hdel).
  cbn [method_] in Hne.
  exists est. split; [done|]. split; [exact Hdel|].
  cbn [rows_ cols_ depth_ K_ window_size_ method_]. split.
  - rewrite Hbase. unfold validate, RgbdNormalsImpl_new.
    cbn [impl_rows_ impl_cols_ impl_depth_ impl_K_ori_ impl_window_size_ impl_method_].
    destruct (Z.eqb_spec method' (method_ n)) as [?|_]; [done|].
    rewrite !andb_false_r. by destruct (_ || _).
  - unfold RgbdNormals_destroy in *.
    cbn [rgbd_normals_impl_ method_ depth_] in *.
    unfold delete_normals_impl in *.
    repeat match goal with
           | H : context [if ?b then _ else _] |- _ => destruct b eqn:?
           | |- context [if ?b then _ else _] => destruct b eqn:?
           end;
      reflect_tests; unfold_codes; try lia; try discriminate;
      injection Hdel as <-; eexists; (split; [reflexivity | discriminate]).
Qed.

Lemma delete_normals_impl_class_witness :
  let n' := mkRgbdNormals 480 640 CV_32F (K_example CV_64F) 5
              RGBD_NORMALS_METHOD_FALS
              (Some (mkEstimator FALS_float
                       (RgbdNormalsImpl_new convertTo_exact 480 640 5 CV_32F
                          (K_example CV_64F) RGBD_NORMALS_METHOD_FALS))) in
  exists est,
    rgbd_normals_impl_ n' = Some est
    /\ RgbdNormals_destroy n' = Some (est_class est)
    /\ let changed := mkRgbdNormals (rows_ n') (cols_ n') (depth_ n') (K_ n')
                        (window_size_ n') RGBD_NORMALS_METHOD_SRI (Some est) in
       validate (est_base est) (rows_ changed) (cols_ changed) (depth_ changed)
         (K_ changed) (window_size_ changed) (method_ changed) = false
       /\ (exists c, RgbdNormals_destroy changed = Some c /\ c <> est_class est).
Proof.
  apply (delete_normals_impl_class convertTo_exact cache_completes
           (mkRgbdNormals 480 640 CV_32F (K_example CV_64F) 5
              RGBD_NORMALS_METHOD_FALS None) _ RGBD_NORMALS_METHOD_SRI);
    [reflexivity | vm_compute; reflexivity | right; right; reflexivity
    | vm_compute; discriminate].
Defined.

Ltac assert_cases :=
  repeat match goal with
         | |- context [CV_Assert ?b] =>
             destruct b eqn:?; cbn [CV_Assert mbind outcome_bind]
         end.

Section CallFacts.
Variable convertTo : Mat -> Z -> Mat.
Variable FALS_SRI_cache : Estimator -> outcome unit.
Variable single : Floating float.
Variable uninitialized : Z -> Z -> Z -> list (list float).
Variables FALS_float_compute FALS_double_compute
  : Estimator -> Mat -> Mat -> Mat -> Mat.
Variables LINEMOD_float_compute LINEMOD_double_compute
  : Estimator -> Mat -> Mat -> Mat.
Variables SRI_float_compute SRI_double_compute
  : Estimator -> Mat -> Mat -> Mat -> Mat.
Local Abbreviation call :=
  (RgbdNormals_call convertTo FALS_SRI_cache single uninitialized
     FALS_float_compute FALS_double_compute
     LINEMOD_float_compute LINEMOD_double_compute
     SRI_float_compute SRI_double_compute).

Lemma call_rejects (n : RgbdNormals) (points3d_in normals_out : Mat) :
  ~ input_accepted (method_ n) points3d_in ->
  call n points3d_in normals_out = AssertFailed.
Proof.
  intros Hno. unfold RgbdNormals_call.
  destruct (method_ n =? RGBD_NORMALS_METHOD_FALS) eqn:?;
    [|destruct (method_ n =? RGBD_NORMALS_METHOD_LINEMOD) eqn:?;
      [|destruct (method_ n =? RGBD_NORMALS_METHOD_SRI) eqn:?]];
    assert_cases; try reflexivity;
    exfalso; apply Hno; unfold input_accepted; reflect_tests; unfold_codes; lia.
Qed.

(** What is left of the call once the input is accepted. *)
Lemma call_accepted (n : RgbdNormals) (points3d_in normals_out : Mat) :
  input_accepted (method_ n) points3d_in ->
  (initialize convertTo FALS_SRI_cache n = AssertFailed ->
   call n points3d_in normals_out = AssertFailed)
  /\ (initialize convertTo FALS_SRI_cache n = Undefined ->
      call n points3d_in normals_out = Undefined)
  /\ (forall n', initialize convertTo FALS_SRI_cache n = Done n' ->
      call n points3d_in normals_out <> AssertFailed
      /\ (mat_is_empty points3d_in = true ->
          call n points3d_in normals_out
          = Done (n', Mat_create uninitialized normals_out (m_rows points3d_in)
                        (m_cols points3d_in) (depth_ n') 3))).
Proof.
  intros Hok. unfold RgbdNormals_call.
  destruct (method_ n =? RGBD_NORMALS_METHOD_FALS) eqn:?;
    [|destruct (method_ n =? RGBD_NORMALS_METHOD_LINEMOD) eqn:?;
      [|destruct (method_ n =? RGBD_NORMALS_METHOD_SRI) eqn:?]];
    assert_cases;
    try (exfalso; unfold input_accepted in Hok; reflect_tests; unfold_codes; lia);
    (split; [intros ->; reflexivity|]; split; [intros ->; reflexivity|]);
    intros n' ->; cbn [mbind outcome_bind];
    (destruct ((method_ n' =? RGBD_NORMALS_METHOD_SRI)
               || (method_ n' =? RGBD_NORMALS_METHOD_FALS)));
    (destruct (mat_is_empty points3d_in); [split; [discriminate | reflexivity]|]);
    (split; [|discriminate]);
    (destruct (rgbd_normals_impl_ n'); [|discriminate]);
    repeat match goal with
           | |- context [if ?b then _ else _] => destruct b
           end; try discriminate;
    unfold LINEMOD_depth, vector_at;
    repeat match goal with
           | |- context [if ?b then _ else _] => destruct b
           | |- context [match ?o with Some _ => _ | None => _ end] => destruct o
           end; discriminate.
Qed.

Lemma input_accepted_dec (method : Z) (m : Mat) :
  input_accepted method m \/ ~ input_accepted method m.
Proof.
  assert (Hdec : Decision (input_accepted method m))
    by (unfold input_accepted; apply _).
  destruct Hdec; [by left | by right].
Qed.

End CallFacts.

(** X17.  When [operator()] raises.  The call fails an assertion exactly
    when the input does not have two dimensions, or does not have the
    channels and the depth that the method asks for, or when [initialize]
    fails one.  Nothing else is tested: the number of rows and of columns of
    the input is not compared with the size the estimator was built for. *)
Theorem RgbdNormals_call_raises_iff (convertTo : Mat -> Z -> Mat)
    (FALS_SRI_cache : Estimator -> outcome unit)
    (single : Floating float) (uninitialized : Z -> Z -> Z -> list (list float))
    (FALS_float_compute FALS_double_compute : Estimator -> Mat -> Mat -> Mat -> Mat)
    (LINEMOD_float_compute LINEMOD_double_compute : Estimator -> Mat -> Mat -> Mat)
    (SRI_float_compute SRI_double_compute : Estimator -> Mat -> Mat -> Mat -> Mat)
    (n : RgbdNormals) (points3d_in normals_out : Mat) :
  RgbdNormals_call convertTo FALS_SRI_cache single uninitialized
    FALS_float_compute FALS_double_compute
    LINEMOD_float_compute LINEMOD_double_compute
    SRI_float_compute SRI_double_compute n points3d_in normals_out = AssertFailed
  <-> (~ input_accepted (method_ n) points3d_in
       \/ initialize convertTo FALS_SRI_cache n = AssertFailed).
Proof.
  destruct (input_accepted_dec (method_ n) points3d_in) as [Hok|Hno].
  - destruct (call_accepted convertTo FALS_SRI_cache single uninitialized
                FALS_float_compute FALS_double_compute
                LINEMOD_float_compute LINEMOD_double_compute
                SRI_float_compute SRI_double_compute n points3d_in normals_out Hok)
      as (Hfail & Hundef & Hdone).
    destruct (initialize convertTo FALS_SRI_cache n) as [n'| |] eqn:Hinit.
    + destruct (Hdone n' eq_refl) as [Hne _]. split; [done|intros [?|?]; done].
    + split; [by right | intros _; by apply Hfail].
    + rewrite Hundef by done. split; [done|intros [?|?]; done].
  - split; [by left | intros _; by apply call_rejects].
Qed.

(** X18.  An empty input.  When the input is accepted and empty, the call
    runs [initialize], which builds the estimator and its cache, allocates
    the output for the size of the input and returns: no [compute] is called,
    also for LINEMOD with three channels. *)
Theorem RgbdNormals_call_empty_input (convertTo : Mat -> Z -> Mat)
    (FALS_SRI_cache : Estimator -> outcome unit)
    (single : Floating float) (uninitialized : Z -> Z -> Z -> list (list float))
    (FALS_float_compute FALS_double_compute : Estimator -> Mat -> Mat -> Mat -> Mat)
    (LINEMOD_float_compute LINEMOD_double_compute : Estimator -> Mat -> Mat -> Mat)
    (SRI_float_compute SRI_double_compute : Estimator -> Mat -> Mat -> Mat -> Mat)
    (n n' : RgbdNormals) (points3d_in normals_out : Mat) :
  input_accepted (method_ n) points3d_in ->
  mat_is_empty points3d_in = true ->
  initialize convertTo FALS_SRI_cache n = Done n' ->
  RgbdNormals_call convertTo FALS_SRI_cache single uninitialized
    FALS_float_compute FALS_double_compute
    LINEMOD_float_compute LINEMOD_double_compute
    SRI_float_compute SRI_double_compute n points3d_in normals_out
  = Done (n', Mat_create uninitialized normals_out (m_rows points3d_in)
                (m_cols points3d_in) (depth_ n') 3).
Proof.
  intros Hok Hempty Hinit.
  destruct (call_accepted convertTo FALS_SRI_cache single uninitialized
              FALS_float_compute FALS_double_compute
              LINEMOD_float_compute LINEMOD_double_compute
              SRI_float_compute SRI_double_compute n points3d_in normals_out Hok)
    as (_ & _ & Hdone).
  by apply Hdone.
Qed.

Lemma RgbdNormals_call_empty_input_witness :
  let points := mkMat 2 0 0 CV_64F 3 [] in
  let n' := mkRgbdNormals 12 12 CV_64F (K_example CV_64F) 5
              RGBD_NORMALS_METHOD_LINEMOD
              (Some (mkEstimator LINEMOD_double
                       (RgbdNormalsImpl_new convertTo_exact 12 12 5 CV_64F
                          (K_example CV_64F) RGBD_NORMALS_METHOD_LINEMOD))) in
  RgbdNormals_call convertTo_exact cache_completes Floating_double (fun _ _ _ => [])
    (fun _ _ _ m => m) (fun _ _ _ m => m) (fun _ d _ => d) (fun _ d _ => d)
    (fun _ _ _ m => m) (fun _ _ _ m => m) linemod12 points Mat_empty
  = Done (n', Mat_create (fun _ _ _ => []) Mat_empty (m_rows points)
                (m_cols points) (depth_ n') 3).
Proof.
  apply (RgbdNormals_call_empty_input convertTo_exact cache_completes Floating_double
           (fun _ _ _ => []) (fun _ _ _ m => m) (fun _ _ _ m => m)
           (fun _ d _ => d) (fun _ d _ => d) (fun _ _ _ m => m) (fun _ _ _ m => m)
           linemod12 _ (mkMat 2 0 0 CV_64F 3 []) Mat_empty);
    [ unfold input_accepted; vm_compute; intuition discriminate
    | reflexivity | vm_compute; reflexivity ].
Defined.

(** [initialize] touches the estimator only. *)
Lemma initialize_fields (convertTo : Mat -> Z -> Mat)
    (FALS_SRI_cache : Estimator -> outcome unit) (n n' : RgbdNormals) :
  initialize convertTo FALS_SRI_cache n = Done n' ->
  exists est,
    n' = mkRgbdNormals (rows_ n) (cols_ n) (depth_ n) (K_ n) (window_size_ n)
           (method_ n) (Some est).
Proof.
  unfold initialize.
  assert (Hbuild :
    initialize_normals_impl convertTo FALS_SRI_cache n (rows_ n) (cols_ n)
      (depth_ n) (K_ n) (window_size_ n) (method_ n) = Done n' ->
    exists est,
      n' = mkRgbdNormals (rows_ n) (cols_ n) (depth_ n) (K_ n) (window_size_ n)
             (method_ n) (Some est)).
  { intros Hinit.
    apply initialize_normals_impl_done in Hinit as (_ & est & -> & _).
    by exists est. }
  destruct (rgbd_normals_impl_ n) as [est|] eqn:Himpl; [|exact Hbuild].
  destruct (validate _ _ _ _ _ _ _); cbn [negb]; [|exact Hbuild].
  intros [= <-]. exists est. destruct n. cbn in *. by subst.
Qed.

Section CallState.
Variable convertTo : Mat -> Z -> Mat.
Variable FALS_SRI_cache : Estimator -> outcome unit.
Variable single : Floating float.
Variable uninitialized : Z -> Z -> Z -> list (list float).
Variables FALS_float_compute FALS_double_compute
  : Estimator -> Mat -> Mat -> Mat -> Mat.
Variables LINEMOD_float_compute LINEMOD_double_compute
  : Estimator -> Mat -> Mat -> Mat.
Variables SRI_float_compute SRI_double_compute
  : Estimator -> Mat -> Mat -> Mat -> Mat.
Local Abbreviation call :=
  (RgbdNormals_call convertTo FALS_SRI_cache single uninitialized
     FALS_float_compute FALS_double_compute
     LINEMOD_float_compute LINEMOD_double_compute
     SRI_float_compute SRI_double_compute).

Lemma call_done_state (n m : RgbdNormals) (points3d_in normals_out out : Mat) :
  call n points3d_in normals_out = Done (m, out) ->
  initialize convertTo FALS_SRI_cache n = Done m.
Proof.
  unfold RgbdNormals_call.
  destruct (method_ n =? RGBD_NORMALS_METHOD_FALS) eqn:?;
    [|destruct (method_ n =? RGBD_NORMALS_METHOD_LINEMOD) eqn:?;
      [|destruct (method_ n =? RGBD_NORMALS_METHOD_SRI) eqn:?]];
    assert_cases; try discriminate;
    (destruct (initialize convertTo FALS_SRI_cache n) as [n'| |];
     cbn [mbind outcome_bind]; [|discriminate..]);
    (destruct ((method_ n' =? RGBD_NORMALS_METHOD_SRI)
               || (method_ n' =? RGBD_NORMALS_METHOD_FALS)));
    (destruct (mat_is_empty points3d_in); [by intros [= -> _]|]);
    (destruct (rgbd_normals_impl_ n'); [|discriminate]);
    repeat match goal with
           | |- context [if ?b then _ else _] => destruct b
           end; try (by intros [= -> _]);
    unfold LINEMOD_depth, vector_at;
    repeat match goal with
           | |- context [if ?b then _ else _] => destruct b
           | |- context [match ?o with Some _ => _ | None => _ end] => destruct o
           end; cbn [mbind outcome_bind]; try discriminate; by intros [= -> _].
Qed.

End CallState.

(** X19.  What a call changes.  When [operator()] returns, the object it
    leaves is the one [initialize] leaves: the rows, columns, precision, [K],
    window size and method are those it had, and an estimator is in place.
    The [compute] methods cannot change the object. *)
Theorem RgbdNormals_call_keeps_configuration (convertTo : Mat -> Z -> Mat)
    (FALS_SRI_cache : Estimator -> outcome unit)
    (single : Floating float) (uninitialized : Z -> Z -> Z -> list (list float))
    (FALS_float_compute FALS_double_compute : Estimator -> Mat -> Mat -> Mat -> Mat)
    (LINEMOD_float_compute LINEMOD_double_compute : Estimator -> Mat -> Mat -> Mat)
    (SRI_float_compute SRI_double_compute : Estimator -> Mat -> Mat -> Mat -> Mat)
    (n m : RgbdNormals) (points3d_in normals_out out : Mat) :
  RgbdNormals_call convertTo FALS_SRI_cache single uninitialized
    FALS_float_compute FALS_double_compute
    LINEMOD_float_compute LINEMOD_double_compute
    SRI_float_compute SRI_double_compute n points3d_in normals_out = Done (m, out) ->
  initialize convertTo FALS_SRI_cache n = Done m
  /\ exists est,
       m = mkRgbdNormals (rows_ n) (cols_ n) (depth_ n) (K_ n) (window_size_ n)
             (method_ n) (Some est).
Proof.
  intros Hcall. apply call_done_state in Hcall.
  split; [done|]. by apply (initialize_fields convertTo FALS_SRI_cache).
Qed.

Lemma RgbdNormals_call_keeps_configuration_witness :
  let depth := mkMat 2 12 12 CV_64F 1 (replicate 144 [1000%float]) in
  let m := mkRgbdNormals 12 12 CV_64F (K_example CV_64F) 5
             RGBD_NORMALS_METHOD_LINEMOD
             (Some (mkEstimator LINEMOD_double
                      (RgbdNormalsImpl_new convertTo_exact 12 12 5 CV_64F
                         (K_example CV_64F) RGBD_NORMALS_METHOD_LINEMOD))) in
  initialize convertTo_exact cache_completes linemod12 = Done m
  /\ exists est,
       m = mkRgbdNormals (rows_ linemod12) (cols_ linemod12) (depth_ linemod12)
             (K_ linemod12) (window_size_ linemod12) (method_ linemod12) (Some est).
Proof.
  apply (RgbdNormals_call_keeps_configuration convertTo_exact cache_completes
           Floating_double (fun _ _ _ => []) (fun _ _ _ m => m) (fun _ _ _ m => m)
           (fun _ d _ => d) (fun _ d _ => d) (fun _ _ _ m => m) (fun _ _ _ m => m)
           linemod12 _ (mkMat 2 12 12 CV_64F 1 (replicate 144 [1000%float]))
           Mat_empty (mkMat 2 12 12 CV_64F 1 (replicate 144 [1000%float]))).
  vm_compute. reflexivity.
Defined.
